(** * Gokuro: progress synchronisation and statistics

  A shallow embedding of the parts of the Gokuro web application that
  decide how puzzle progress and per-grid statistics are reconciled
  between the browser and the server:

  - [Stats]   : stats.js  (local statistics, streak and personal best);
  - [Merge]   : mergeStats of user.js and the merge of the stats endpoint;
  - [SyncApi] : api/sync.js (the per-record LOAD-vs-SAVE decision);
  - [User]    : user.js   (bulk pass and incremental sync of the client);
  - [App]     : app.js    (the local progress store and its persist step).

  JavaScript objects used as dictionaries are finite maps, numbers that
  the code treats as integers are [Z], and every exception that the
  source can raise on a path we model is an explicit result. *)

From Stdlib Require Import ZArith Lia Bool String Ascii List.
From stdpp Require Import gmap strings list fin_maps.

Local Open Scope string_scope.
Local Open Scope Z_scope.

(** ** JavaScript values shared by the modules *)

Module Js.

(** Truthiness of a string value: the empty string is falsy.  A field
    that is [null] or [undefined] is represented by the empty string
    wherever the source only tests truthiness, compares with a literal
    or falls back with [||]. *)
Definition truthy (s : string) : bool := negb (String.eqb s "").

(** [a || b] on strings. *)
Definition or_else (a b : string) : string := if truthy a then a else b.

(** Milliseconds in a day, [1000 * 60 * 60 * 24]. *)
Definition MS_PER_DAY : Z := 1000 * 60 * 60 * 24.

(** A non-empty date string as the code stores it.  [Day d] is the
    canonical text YYYY-MM-DD of day [d] (days since the epoch), which
    [new Date] reads as midnight UTC; [Stamp ms] is any other text that
    [new Date] accepts, with its time value; [Garbage] is a text that
    yields an Invalid Date. *)
Inductive datestr : Type :=
| Day (d : Z)
| Stamp (ms : Z)
| Garbage.

(** [new Date(s).getTime()], [None] standing for NaN. *)
Definition getTime (s : datestr) : option Z :=
  match s with
  | Day d => Some (d * MS_PER_DAY)
  | Stamp ms => Some ms
  | Garbage => None
  end.

(** [s === t] where [t] is the canonical text of day [today]. *)
Definition is_day (s : datestr) (today : Z) : bool :=
  match s with
  | Day d => d =? today
  | _ => false
  end.

(** [a >= b] on two Date objects: false as soon as one is invalid. *)
Definition date_geb (a b : option Z) : bool :=
  match a, b with
  | Some x, Some y => y <=? x
  | _, _ => false
  end.

(** [a < b] on two Date objects. *)
Definition date_ltb (a b : option Z) : bool :=
  match a, b with
  | Some x, Some y => x <? y
  | _, _ => false
  end.

(** [s.split('-')]: the pieces between dashes, at least one piece. *)
Fixpoint split_from (cur : string) (s : string) : list string :=
  match s with
  | EmptyString => [cur]
  | String c rest =>
      if Ascii.eqb c "-"%char
      then cur :: split_from "" rest
      else split_from (cur ++ String c "") rest
  end.

Definition split_dash (s : string) : list string := split_from "" s.

(** [parts[parts.length - 1]] of a non-empty array. *)
Definition last_part (parts : list string) : string := List.last parts "".

End Js.

(** ** stats.js: local statistics per grid size *)

Module Stats.
Import Js.

(** One entry of the user_stats table, as kept in local storage. *)
Record StatsRecord : Type := {
  grid_size : string;
  best_time_seconds : option Z;       (* null when no best exists *)
  best_time_date : option Z;          (* ISO timestamp, as its time value *)
  current_streak_days : N;             (* integers >= 0: created 0, then *)
  max_streak_days : N;                 (* only incremented or set to 1   *)
  last_completed_date : option datestr;
  max_streak_date : option datestr
}.

Record Changes : Type := {
  newPersonalBest : bool;
  streakIncreased : bool;
  newMaxStreak : bool
}.

Definition getEmptyStats (gridSize : string) : StatsRecord :=
  {| grid_size := gridSize;
     best_time_seconds := None;
     best_time_date := None;
     current_streak_days := 0%N;
     max_streak_days := 0%N;
     last_completed_date := None;
     max_streak_date := None |}.

(** What the function leaves behind: the storage entry of
    gokuro_user_stats, the grids handed to displayStatsForGrid and the
    records handed to window.syncStatsToServer, latest first. *)
Record World : Type := {
  storage : gmap string StatsRecord;
  displayed : list string;
  syncRequests : list (string * StatsRecord)
}.

(** getStatsForGrid: an absent entry is created empty and saved. *)
Definition getStatsForGrid (gridSize : string) (st : gmap string StatsRecord)
  : StatsRecord * gmap string StatsRecord :=
  match st !! gridSize with
  | Some s => (s, st)
  | None => (getEmptyStats gridSize, <[gridSize := getEmptyStats gridSize]> st)
  end.

Definition saveStatsForGrid (gridSize : string) (s : StatsRecord)
    (st : gmap string StatsRecord) : gmap string StatsRecord :=
  <[gridSize := s]> st.

(** The personal-best block. [now] is the clock in milliseconds. *)
Definition updatePersonalBest (now elapsedSeconds : Z) (isPristine : bool)
    (s : StatsRecord) : StatsRecord * bool :=
  if isPristine then
    match best_time_seconds s with
    | None =>
        ({| grid_size := grid_size s;
            best_time_seconds := Some elapsedSeconds;
            best_time_date := Some now;
            current_streak_days := current_streak_days s;
            max_streak_days := max_streak_days s;
            last_completed_date := last_completed_date s;
            max_streak_date := max_streak_date s |}, true)
    | Some best =>
        if elapsedSeconds <? best then
          ({| grid_size := grid_size s;
              best_time_seconds := Some elapsedSeconds;
              best_time_date := Some now;
              current_streak_days := current_streak_days s;
              max_streak_days := max_streak_days s;
              last_completed_date := last_completed_date s;
              max_streak_date := max_streak_date s |}, true)
        else (s, false)
    end
  else (s, false).

(** [Math.floor((todayDate - lastDate) / MS_PER_DAY)], NaN as [None]. *)
Definition daysDiff (today : Z) (lastCompleted : datestr) : option Z :=
  match getTime lastCompleted with
  | Some t => Some ((today * MS_PER_DAY - t) / MS_PER_DAY)
  | None => None
  end.

(** The shared tail of the two branches that may raise the maximum. *)
Definition raiseMax (today : Z) (s : StatsRecord) : StatsRecord * bool :=
  if (max_streak_days s <? current_streak_days s)%N then
    ({| grid_size := grid_size s;
        best_time_seconds := best_time_seconds s;
        best_time_date := best_time_date s;
        current_streak_days := current_streak_days s;
        max_streak_days := current_streak_days s;
        last_completed_date := last_completed_date s;
        max_streak_date := Some (Day today) |}, true)
  else (s, false).

Definition setStreak (today : Z) (streak : N) (s : StatsRecord) : StatsRecord :=
  {| grid_size := grid_size s;
     best_time_seconds := best_time_seconds s;
     best_time_date := best_time_date s;
     current_streak_days := streak;
     max_streak_days := max_streak_days s;
     last_completed_date := Some (Day today);
     max_streak_date := max_streak_date s |}.

(** The streak block: the record, streakIncreased and newMaxStreak. *)
Definition updateStreak (today : Z) (s : StatsRecord)
  : StatsRecord * bool * bool :=
  match last_completed_date s with
  | None =>
      let '(s', nm) := raiseMax today (setStreak today 1%N s) in
      (s', true, nm)
  | Some lastCompleted =>
      if is_day lastCompleted today then (s, false, false)
      else
        match daysDiff today lastCompleted with
        | Some d =>
            if d =? 1 then
              let '(s', nm) :=
                raiseMax today (setStreak today (current_streak_days s + 1)%N s) in
              (s', true, nm)
            else if 1 <? d then (setStreak today 1%N s, false, false)
            else (s, false, false)
        | None => (s, false, false)
        end
  end.

(** updateStatsOnCompletion.  The result is [None] for the source's
    [null]; [now] is the reading of the clock, whose UTC date is today. *)
Definition updateStatsOnCompletion (now : Z) (puzzleId : string)
    (elapsedSeconds : Z) (isPristine : bool) (w : World)
  : option (StatsRecord * Changes) * World :=
  let parts := split_dash puzzleId in
  if (length parts <? 4)%nat then (None, w)
  else
    let gridSize := last_part parts in
    let today := now / MS_PER_DAY in
    let '(stats0, st0) := getStatsForGrid gridSize (storage w) in
    let '(stats1, pb) := updatePersonalBest now elapsedSeconds isPristine stats0 in
    let '(stats2, si, nm) := updateStreak today stats1 in
    (Some (stats2,
           {| newPersonalBest := pb; streakIncreased := si; newMaxStreak := nm |}),
     {| storage := saveStatsForGrid gridSize stats2 st0;
        displayed := gridSize :: displayed w;
        syncRequests := (gridSize, stats2) :: syncRequests w |}).

(** A completion event and the run of a sequence of them. *)
Record Completion : Type := {
  c_now : Z;
  c_puzzleId : string;
  c_elapsed : Z;
  c_pristine : bool
}.

Definition complete (w : World) (c : Completion) : World :=
  snd (updateStatsOnCompletion (c_now c) (c_puzzleId c) (c_elapsed c)
         (c_pristine c) w).

Definition completeAll (w : World) (cs : list Completion) : World :=
  fold_left complete cs w.

(** The grid a completion is booked on, if its identifier is well formed. *)
Definition gridOf (puzzleId : string) : option string :=
  let parts := split_dash puzzleId in
  if (length parts <? 4)%nat then None else Some (last_part parts).

(** The stored best of a grid; no entry reads as no best. *)
Definition bestOf (g : string) (w : World) : option Z :=
  match storage w !! g with
  | Some s => best_time_seconds s
  | None => None
  end.

Definition streakOf (g : string) (w : World) : N :=
  match storage w !! g with
  | Some s => current_streak_days s
  | None => 0%N
  end.

(** The stored date of the last completion of a grid. *)
Definition lastCompletedOf (g : string) (w : World) : option datestr :=
  match storage w !! g with
  | Some s => last_completed_date s
  | None => None
  end.

Definition emptyWorld : World :=
  {| storage := ∅; displayed := []; syncRequests := [] |}.

End Stats.


(** ** Notions used to state the properties of stats.js *)

Module StatsSpec.
Import Js Stats.

(** The number of dashes of an identifier. *)
Fixpoint dashes (s : string) : nat :=
  match s with
  | EmptyString => 0
  | String c rest => if Ascii.eqb c "-"%char then S (dashes rest) else dashes rest
  end.

(** The record the function works on: the stored one, or a fresh one. *)
Definition recordOf (g : string) (w : World) : StatsRecord :=
  fst (getStatsForGrid g (storage w)).

(** The stored best after one completion. *)
Definition stepBest (best : option Z) (e : Z) : option Z :=
  match best with
  | None => Some e
  | Some b => if e <? b then Some e else Some b
  end.

(** The elapsed times of the pristine completions booked on grid [g]. *)
Definition countsFor (g : string) (c : Completion) : bool :=
  c_pristine c &&
  match gridOf (c_puzzleId c) with
  | Some g' => String.eqb g' g
  | None => false
  end.

Definition pristineTimes (g : string) (cs : list Completion) : list Z :=
  List.map c_elapsed (List.filter (countsFor g) cs).

(** The least element of a list, if it has one. *)
Fixpoint minimum (l : list Z) : option Z :=
  match l with
  | [] => None
  | x :: rest =>
      match minimum rest with
      | None => Some x
      | Some m => Some (Z.min x m)
      end
  end.

(** The stored best after a run, from any starting value. *)
Definition bestAfter (best : option Z) (times : list Z) : option Z :=
  fold_left stepBest times best.


(** The lower of two optional times: the one that is there when the
    other is not. *)
Definition lowerOf (a b : option Z) : option Z :=
  match a, b with
  | Some x, Some y => Some (Z.min x y)
  | Some x, None => Some x
  | None, Some y => Some y
  | None, None => None
  end.

End StatsSpec.

(** ** Merging local and remote statistics *)

Module Merge.
Import Js Stats.

(** A side of the merge is a record or nothing ([null], [undefined]); the
    source replaces nothing by the empty object, all of whose fields are
    [undefined].  The accessors below read a field through that
    replacement. *)

(** [data.best_time_seconds], when it is neither null nor undefined. *)
Definition bestField (data : option StatsRecord) : option Z :=
  match data with
  | Some s => best_time_seconds s
  | None => None
  end.

Definition bestDateField (data : option StatsRecord) : option Z :=
  match data with
  | Some s => best_time_date s
  | None => None
  end.

(** [data.last_completed_date], when it is truthy. *)
Definition lastField (data : option StatsRecord) : option datestr :=
  match data with
  | Some s => last_completed_date s
  | None => None
  end.

(** [data.current_streak_days]; only read on a side that has a date. *)
Definition streakField (data : option StatsRecord) : N :=
  match data with
  | Some s => current_streak_days s
  | None => 0%N
  end.

(** [data.max_streak_days || 0]. *)
Definition maxField (data : option StatsRecord) : N :=
  match data with
  | Some s => max_streak_days s
  | None => 0%N
  end.

Definition maxDateField (data : option StatsRecord) : option datestr :=
  match data with
  | Some s => max_streak_date s
  | None => None
  end.

Definition gridField (data : option StatsRecord) : string :=
  match data with
  | Some s => grid_size s
  | None => ""
  end.

(** Personal best: the faster time, with its date. *)
Definition mergeBest (localData remoteData : option StatsRecord)
  : option Z * option Z :=
  match bestField localData, bestField remoteData with
  | Some l, Some r =>
      if l <? r then (Some l, bestDateField localData)
      else (Some r, bestDateField remoteData)
  | Some l, None => (Some l, bestDateField localData)
  | None, Some r => (Some r, bestDateField remoteData)
  | None, None => (None, None)
  end.

(** Streak: the side with the most recent completion, local on a tie. *)
Definition mergeStreak (localData remoteData : option StatsRecord)
  : N * option datestr :=
  match lastField localData, lastField remoteData with
  | Some l, Some r =>
      if date_geb (getTime l) (getTime r)
      then (streakField localData, Some l)
      else (streakField remoteData, Some r)
  | Some l, None => (streakField localData, Some l)
  | None, Some r => (streakField remoteData, Some r)
  | None, None => (0%N, None)
  end.

(** Max streak: the higher value, with its date. *)
Definition mergeMax (localData remoteData : option StatsRecord)
  : N * option datestr :=
  if (maxField remoteData <? maxField localData)%N
  then (maxField localData, maxDateField localData)
  else (maxField remoteData, maxDateField remoteData).

(** mergeStats of user.js. *)
Definition mergeStats (local remote : option StatsRecord) : StatsRecord :=
  let best := mergeBest local remote in
  let streak := mergeStreak local remote in
  let mx := mergeMax local remote in
  {| grid_size := or_else (gridField local) (or_else (gridField remote) "unknown");
     best_time_seconds := fst best;
     best_time_date := snd best;
     current_streak_days := fst streak;
     max_streak_days := fst mx;
     last_completed_date := snd streak;
     max_streak_date := snd mx |}.

(** The merge of the stats endpoint (POST): [existingStats] is the stored
    row, if any, and [stats] the record the client sent, a record as
    stats.js and mergeStats build them: its best_time_seconds is there,
    a number or null.  A body in which the field is missing is the
    matter of [StatsApi.serverBestSent]. *)
Definition serverBest (existingStats : option StatsRecord) (stats : StatsRecord)
  : option Z * option Z :=
  match bestField existingStats with
  | Some e =>
      match best_time_seconds stats with
      | None => (Some e, bestDateField existingStats)
      | Some c =>
          if e <? c then (Some e, bestDateField existingStats)
          else (Some c, best_time_date stats)
      end
  | None =>
      match best_time_seconds stats with
      | Some c => (Some c, best_time_date stats)
      | None => (None, None)
      end
  end.

Definition serverMerge (grid_size : string)
    (existingStats : option StatsRecord) (stats : StatsRecord) : StatsRecord :=
  let best := serverBest existingStats stats in
  let streak := mergeStreak (Some stats) existingStats in
  let mx :=
    if (maxField existingStats <? max_streak_days stats)%N
    then (max_streak_days stats, max_streak_date stats)
    else (maxField existingStats, maxDateField existingStats) in
  {| Stats.grid_size := grid_size;
     best_time_seconds := fst best;
     best_time_date := snd best;
     current_streak_days := fst streak;
     max_streak_days := fst mx;
     last_completed_date := snd streak;
     max_streak_date := snd mx |}.

End Merge.

(** ** Progress records and payloads *)

Module Progress.

(** A record of the local progress store (IndexedDB, key path [id]).
    [entries] maps a cell coordinate to the letter typed in it. *)
Record ProgressRecord : Type := {
  id : string;
  status : string;
  entries : gmap string string;
  elapsedSeconds : Z;
  updatedAt : Z
}.

(** What [JSON.parse] returns on a progress_json text, as far as the code
    looks into it: JSON [null], on which reading a property throws, or a
    value with its [entries] property when that is truthy. *)
Inductive parsed : Type :=
| PNull
| PObject (entries : option (gmap string string)).

(** A progress_json value: [JNone] is null or undefined, [JEmptyText] the
    empty string, [JText r] a non-empty string on which [JSON.parse]
    returns [r] ([None] when it throws a SyntaxError), and [JValue e] a
    value that is already an object, with its [entries] property when
    that is truthy. *)
Inductive jsonValue : Type :=
| JNone
| JEmptyText
| JText (r : option parsed)
| JValue (entries : option (gmap string string)).

(** [JSON.stringify({entries, storageKey, updatedAt})] read back. *)
Definition stringify (entries : gmap string string) : jsonValue :=
  JText (Some (PObject (Some entries))).

(** [parsed.entries || {}]; [None] when the access throws. *)
Definition entriesOrEmpty (p : parsed) : option (gmap string string) :=
  match p with
  | PNull => None
  | PObject (Some e) => Some e
  | PObject None => Some ∅
  end.

(** [Object.keys(entries).length > 0]. *)
Definition hasKeys (e : gmap string string) : bool :=
  negb (bool_decide (e = ∅)).

End Progress.

(** ** app.js: the local progress store and the persist step *)

Module App.
Import Js Progress.

(** progressStore.get / set / delete, behind the three wrappers.  A
    failed IndexedDB transaction is logged and resolves like a success. *)
Definition getPuzzleProgressRecord (storageKey : string)
    (store : gmap string ProgressRecord) : option ProgressRecord :=
  if truthy storageKey then store !! storageKey else None.

Definition savePuzzleProgressRecord (record : ProgressRecord)
    (store : gmap string ProgressRecord) : gmap string ProgressRecord :=
  if truthy (id record) then <[id record := record]> store else store.

Definition deletePuzzleProgressRecord (storageKey : string)
    (store : gmap string ProgressRecord) : gmap string ProgressRecord :=
  if truthy storageKey then delete storageKey store else store.

(** The module state that the persist step reads and writes.
    [activeEntries] is [collectPuzzleEntries(activeState)], [None] while
    there is no active state; [activeStorageKey] is what
    getActivePuzzleStorageKey() returns, the empty string for null;
    [timerRunning] says that timerIntervalId is set. *)
Record State : Type := {
  activeKey : string;
  activeEntries : option (gmap string string);
  activeStorageKey : string;
  timerRunning : bool;
  timerStartTimestamp : Z;
  timerAccumulatedSeconds : Z;
  timerPaused : bool;
  puzzleCompleted : bool;
  progressStore : gmap string ProgressRecord;
  puzzleStatusCache : gmap string (string * Z)
}.

Definition withStore (st : State) (store : gmap string ProgressRecord)
    (cache : gmap string (string * Z)) : State :=
  {| activeKey := activeKey st;
     activeEntries := activeEntries st;
     activeStorageKey := activeStorageKey st;
     timerRunning := timerRunning st;
     timerStartTimestamp := timerStartTimestamp st;
     timerAccumulatedSeconds := timerAccumulatedSeconds st;
     timerPaused := timerPaused st;
     puzzleCompleted := puzzleCompleted st;
     progressStore := store;
     puzzleStatusCache := cache |}.

Definition getCurrentElapsedSeconds (now : Z) (st : State) : Z :=
  let runningSeconds :=
    if timerStartTimestamp st =? 0 then 0
    else Z.max 0 ((now - timerStartTimestamp st) / 1000) in
  timerAccumulatedSeconds st + runningSeconds.

(** setPuzzleStatusCacheEntry; [None] is the null payload. *)
Definition setPuzzleStatusCacheEntry (storageKey : string)
    (payload : option (string * Z)) (cache : gmap string (string * Z))
  : gmap string (string * Z) :=
  if truthy storageKey then
    match payload with
    | None => delete storageKey cache
    | Some (st, el) =>
        if String.eqb st "not-started" then delete storageKey cache
        else <[storageKey := (st, Z.max 0 el)]> cache
    end
  else cache.

(** The status that persistActivePuzzle settles on.  [statusOverride] is
    the empty string when the option is not given. *)
Definition resolveStatus (statusOverride : string) (hasProgress : bool)
    (st : State) : string :=
  let status :=
    if String.eqb statusOverride "paused" && negb hasProgress
    then "not-started" else statusOverride in
  if truthy status then status
  else if puzzleCompleted st then "complete"
  else if negb (timerRunning st) && (timerPaused st || hasProgress)
  then (if hasProgress then "paused" else "not-started")
  else (if hasProgress then "started" else "not-started").

(** persistActivePuzzle({statusOverride, targetKey}) at time [now].  The
    pending save timer that it cancels first is not part of the state. *)
Definition persistActivePuzzle (now : Z) (statusOverride targetKey : string)
    (st : State) : State :=
  let storageKey := or_else targetKey (activeStorageKey st) in
  match activeEntries st with
  | None => st
  | Some entries =>
      if negb (truthy storageKey) then st
      else
        let elapsedSeconds := getCurrentElapsedSeconds now st in
        let hasEntries := hasKeys entries in
        let hasProgress := hasEntries || (0 <? elapsedSeconds) in
        let status := resolveStatus statusOverride hasProgress st in
        if String.eqb status "not-started" then
          withStore st
            (deletePuzzleProgressRecord storageKey (progressStore st))
            (setPuzzleStatusCacheEntry storageKey None (puzzleStatusCache st))
        else
          withStore st
            (savePuzzleProgressRecord
               {| id := storageKey; status := status; entries := entries;
                  elapsedSeconds := elapsedSeconds; updatedAt := now |}
               (progressStore st))
            (setPuzzleStatusCacheEntry storageKey (Some (status, elapsedSeconds))
               (puzzleStatusCache st))
  end.

(** stopTimer: the running stretch is added to the accumulated time. *)
Definition stopTimer (now : Z) (st : State) : State :=
  {| activeKey := activeKey st;
     activeEntries := activeEntries st;
     activeStorageKey := activeStorageKey st;
     timerRunning := false;
     timerStartTimestamp := 0;
     timerAccumulatedSeconds :=
       if timerStartTimestamp st =? 0 then timerAccumulatedSeconds st
       else timerAccumulatedSeconds st
            + Z.max 0 ((now - timerStartTimestamp st) / 1000);
     timerPaused := timerPaused st;
     puzzleCompleted := puzzleCompleted st;
     progressStore := progressStore st;
     puzzleStatusCache := puzzleStatusCache st |}.

Definition pauseActiveTimer (now : Z) (st : State) : State :=
  let st1 :=
    if timerRunning st || negb (timerStartTimestamp st =? 0)
    then stopTimer now st else st in
  {| activeKey := activeKey st1;
     activeEntries := activeEntries st1;
     activeStorageKey := activeStorageKey st1;
     timerRunning := timerRunning st1;
     timerStartTimestamp := timerStartTimestamp st1;
     timerAccumulatedSeconds := timerAccumulatedSeconds st1;
     timerPaused := if puzzleCompleted st1 then timerPaused st1 else true;
     puzzleCompleted := puzzleCompleted st1;
     progressStore := progressStore st1;
     puzzleStatusCache := puzzleStatusCache st1 |}.

(** The timer and grid of a puzzle that is being shown: [key] and
    [storageKey] name it, [grid] is its collected entries, and the timer
    is stopped at [seconds]. *)
Definition showPuzzle (key storageKey : string)
    (grid : option (gmap string string)) (seconds : Z)
    (paused completed : bool) (cache : gmap string (string * Z))
    (st : State) : State :=
  {| activeKey := key;
     activeEntries := grid;
     activeStorageKey := storageKey;
     timerRunning := false;
     timerStartTimestamp := 0;
     timerAccumulatedSeconds := seconds;
     timerPaused := paused;
     puzzleCompleted := completed;
     progressStore := progressStore st;
     puzzleStatusCache := cache |}.

(** resetTimerState, on the puzzle that is still the active one. *)
Definition resetTimerState (st : State) : State :=
  showPuzzle (activeKey st) (activeStorageKey st) (activeEntries st) 0
    false false (puzzleStatusCache st) st.

(** restoreActivePuzzleProgress, as performSetActivePuzzle calls it for
    the puzzle stored under [storageKey]: after resetTimerState, so that
    no interval is set, and on the grid that prepareState has just made,
    so that laying the stored entries over it gives the entries of the
    record.  The timer and the grid are set from the record, the store
    is only read; the completion test that handleInput runs while the
    entries are laid over the grid is not part of this state. *)
Definition restoreActivePuzzleProgress (key storageKey : string)
    (st : State) : State :=
  match getPuzzleProgressRecord storageKey (progressStore st) with
  | None =>
      showPuzzle key storageKey (Some ∅) 0 false false
        (setPuzzleStatusCacheEntry storageKey None (puzzleStatusCache st)) st
  | Some record =>
      let seconds := Z.max 0 (elapsedSeconds record) in
      showPuzzle key storageKey (Some (entries record)) seconds
        (String.eqb (status record) "paused")
        (String.eqb (status record) "complete")
        (setPuzzleStatusCacheEntry storageKey
           (Some (or_else (status record) "started", seconds))
           (puzzleStatusCache st)) st
  end.

(** performSetActivePuzzle(key, {force, reset}).  [previousStorageKey]
    is composePuzzleStorageKey(previousDate, previousKey), [storageKey]
    is composePuzzleStorageKey(activeDate, key), and [hasDefinition] says
    that puzzles[key] exists. *)
Definition performSetActivePuzzle (now : Z) (key : string)
    (force reset : bool) (previousStorageKey storageKey : string)
    (hasDefinition : bool) (st : State) : State :=
  if negb force && String.eqb key (activeKey st) then st
  else
    let st1 := pauseActiveTimer now st in
    let previousKey := activeKey st1 in
    let st2 :=
      if truthy previousKey && negb (reset && String.eqb previousKey key)
      then persistActivePuzzle now
             (if puzzleCompleted st1 then "complete" else "paused")
             previousStorageKey st1
      else st1 in
    let st3 := resetTimerState st2 in
    if negb hasDefinition then st3
    else if reset then
      withStore
        (showPuzzle key storageKey (Some ∅) 0 false false
           (puzzleStatusCache st3) st3)
        (deletePuzzleProgressRecord storageKey (progressStore st3))
        (setPuzzleStatusCacheEntry storageKey None (puzzleStatusCache st3))
    else restoreActivePuzzleProgress key storageKey st3.

End App.

(** ** api/sync.js and api/sync-bulk.js: the server of record *)

Module SyncApi.
Import Js Progress.

(** A row of user_progress for the authenticated user.  Rows are unique
    per (auth_id, puzzle_id); the table of one user is a map from
    puzzle_id.  [r_updated_at] is the server clock at the last write. *)
Record Row : Type := {
  r_id : Z;
  r_puzzle_id : string;
  r_grid_size : string;
  r_elapsed_seconds : Z;
  r_was_paused : bool;
  r_progress_json : jsonValue;
  r_status : string;
  r_completed_at : option Z;
  r_updated_at : Z
}.

(** The table and the next value of its id sequence. *)
Record Db : Type := {
  rows : gmap string Row;
  next_id : Z
}.

(** The body of POST /sync.  [elapsed_seconds] is [None] when the field is
    undefined; [client_updated_at] is [None] when the field is falsy, and
    otherwise the time value of [new Date] on it ([None] inside for an
    Invalid Date); [immediate] is the truthiness of the flag. *)
Record SyncRequest : Type := {
  puzzle_id : string;
  grid_size : string;
  elapsed_seconds : option Z;
  was_paused : bool;
  progress_json : jsonValue;
  status : string;
  client_updated_at : option (option Z);
  immediate : bool
}.

Inductive Response : Type :=
| BadRequest                      (* 400, missing required progress fields *)
| Loaded (latest_progress : Row)  (* 200, action LOADED *)
| Saved (log_id : option Z).      (* 200, action SAVED *)

(** [!progress_json] *)
Definition jsonFalsy (j : jsonValue) : bool :=
  match j with
  | JNone | JEmptyText => true
  | _ => false
  end.

(** STEP 2: the required fields. *)
Definition missingFields (req : SyncRequest) : bool :=
  negb (truthy (puzzle_id req)) || negb (truthy (grid_size req)) ||
  negb (bool_decide (is_Some (elapsed_seconds req))) ||
  jsonFalsy (progress_json req) || negb (truthy (status req)).

(** [typeof j === 'string' ? JSON.parse(j) : (j || {})]; [None] when
    [JSON.parse] throws, as it does on the empty string. *)
Definition parseBody (j : jsonValue) : option parsed :=
  match j with
  | JText r => r
  | JEmptyText => None
  | JValue e => Some (PObject e)
  | JNone => Some (PObject None)
  end.

(** [Number(elapsed_seconds) > 0] *)
Definition elapsedPositive (e : option Z) : bool :=
  match e with
  | Some n => 0 <? n
  | None => false
  end.

(** Detect if the client actually has progress; the catch branch leaves
    the entries out. *)
Definition clientHasProgress (req : SyncRequest) : bool :=
  match parseBody (progress_json req) ≫= entriesOrEmpty with
  | Some entries =>
      elapsedPositive (elapsed_seconds req) || hasKeys entries ||
      String.eqb (status req) "complete"
  | None =>
      elapsedPositive (elapsed_seconds req) ||
      String.eqb (status req) "complete"
  end.

(** ORDER BY updated_at DESC LIMIT 1 over all rows of the user; among
    rows written at the same instant the first one met is kept. *)
Definition newerRow (acc : option Row) (r : Row) : option Row :=
  match acc with
  | None => Some r
  | Some a => if r_updated_at a <? r_updated_at r then Some r else Some a
  end.

Definition anyLatest (db : Db) : option Row :=
  fold_left newerRow (map snd (map_to_list (rows db))) None.

(** The insert of STEP 4 with its ON CONFLICT clause: a row that exists
    keeps its id, a new one takes the next id; [now] is the server clock. *)
Definition upsert (now : Z) (req : SyncRequest) (db : Db) : Z * Db :=
  let rid :=
    match rows db !! puzzle_id req with
    | Some old => r_id old
    | None => next_id db
    end in
  let row :=
    {| r_id := rid;
       r_puzzle_id := puzzle_id req;
       r_grid_size := grid_size req;
       r_elapsed_seconds := default 0 (elapsed_seconds req);
       r_was_paused := was_paused req;
       r_progress_json := progress_json req;
       r_status := status req;
       r_completed_at :=
         if String.eqb (status req) "complete"
         then Some (now / MS_PER_DAY) else None;
       r_updated_at := now |} in
  (rid,
   {| rows := <[puzzle_id req := row]> (rows db);
      next_id :=
        match rows db !! puzzle_id req with
        | Some _ => next_id db
        | None => next_id db + 1
        end |}).

(** Whether the client copy is the newer one. *)
Definition clientIsNewer (req : SyncRequest) (latest : option Row) : bool :=
  match latest with
  | None => true
  | Some l =>
      if negb (clientHasProgress req) then false
      else
        match client_updated_at req with
        | Some clientUpdatedAt =>
            date_ltb (Some (r_updated_at l)) clientUpdatedAt
        | None => false
        end
  end.

(** The handler, for a POST of an authenticated user on a database that
    answers: the response and the table afterwards.  [Loaded r] stands
    for the latest_progress object built from the columns of [r]. *)
Definition handler (now : Z) (req : SyncRequest) (db : Db) : Response * Db :=
  if missingFields req then (BadRequest, db)
  else
    let latest := rows db !! puzzle_id req in
    let hasProgress := clientHasProgress req in
    let anyLatestRow :=
      if negb (immediate req) && negb (bool_decide (is_Some latest))
         && negb hasProgress
      then anyLatest db else None in
    match anyLatestRow with
    | Some r => (Loaded r, db)
    | None =>
        if immediate req && negb hasProgress then (Saved None, db)
        else
          match latest with
          | Some l =>
              if clientIsNewer req latest
              then let '(rid, db') := upsert now req db in (Saved (Some rid), db')
              else (Loaded l, db)
          | None =>
              let '(rid, db') := upsert now req db in (Saved (Some rid), db')
          end
    end.

(** POST /sync-bulk: the rows of the requested puzzles, by puzzle_id;
    [None] is the 400 answer to an empty list. *)
Definition bulkHandler (puzzle_ids : list string) (db : Db)
  : option (gmap string Row) :=
  match puzzle_ids with
  | [] => None
  | _ => Some (filter (fun kv => kv.1 ∈ puzzle_ids) (rows db))
  end.

End SyncApi.

(** ** user.js: the client side of the synchronisation *)

Module User.
Import Js Progress SyncApi.

(** Calls of the host's applyLoadedGameState: with the latest_progress of
    a LOADED answer, or with the record re-read after a bulk download.
    What the host does inside the call is its own business: the call is
    recorded and nothing more; in particular, what the host writes into
    the local store during the call is not modelled. *)
Inductive UiEvent : Type :=
| ApplyLoaded (latest_progress : Row)
| ApplyReloaded (puzzle_id : string) (record : ProgressRecord).

(** The client, the server it talks to, and what it has done: the three
    guard flags, whether a user is signed in, the local progress store
    behind window.getPuzzleProgressRecord and
    window.savePuzzleProgressRecord, the bodies posted to /sync and the
    calls of applyLoadedGameState, latest first. *)
Record World : Type := {
  authenticated : bool;
  isBulkSyncing : bool;
  isInitializing : bool;
  hasLoadedInitialProgress : bool;
  localStore : gmap string ProgressRecord;
  server : Db;
  posted : list SyncRequest;
  applied : list UiEvent
}.

Definition setServer (w : World) (db : Db) (body : SyncRequest) : World :=
  {| authenticated := authenticated w;
     isBulkSyncing := isBulkSyncing w;
     isInitializing := isInitializing w;
     hasLoadedInitialProgress := hasLoadedInitialProgress w;
     localStore := localStore w;
     server := db;
     posted := body :: posted w;
     applied := applied w |}.

Definition setLocal (w : World) (store : gmap string ProgressRecord) : World :=
  {| authenticated := authenticated w;
     isBulkSyncing := isBulkSyncing w;
     isInitializing := isInitializing w;
     hasLoadedInitialProgress := hasLoadedInitialProgress w;
     localStore := store;
     server := server w;
     posted := posted w;
     applied := applied w |}.

Definition setGuards (w : World) (bulk init loaded : bool) : World :=
  {| authenticated := authenticated w;
     isBulkSyncing := bulk;
     isInitializing := init;
     hasLoadedInitialProgress := loaded;
     localStore := localStore w;
     server := server w;
     posted := posted w;
     applied := applied w |}.

Definition apply (w : World) (e : UiEvent) : World :=
  {| authenticated := authenticated w;
     isBulkSyncing := isBulkSyncing w;
     isInitializing := isInitializing w;
     hasLoadedInitialProgress := hasLoadedInitialProgress w;
     localStore := localStore w;
     server := server w;
     posted := posted w;
     applied := e :: applied w |}.

(** *** Bulk pass *)

(** Modelled from the spec: the statements that install
    window.getPuzzleProgressRecord and window.savePuzzleProgressRecord
    are not in the source of app.js; the two bindings are the get(key)
    and set(record) of the Local Progress Store interface, that is, the
    functions of app.js that carry these names. *)
Definition window_getPuzzleProgressRecord (storageKey : string)
    (store : gmap string ProgressRecord) : option ProgressRecord :=
  App.getPuzzleProgressRecord storageKey store.

(** Modelled from the spec: see [window_getPuzzleProgressRecord]. *)
Definition window_savePuzzleProgressRecord (record : ProgressRecord)
    (store : gmap string ProgressRecord) : gmap string ProgressRecord :=
  App.savePuzzleProgressRecord record store.

(** getLocalPuzzleData, with the binding installed. *)
Definition getLocalPuzzleData (puzzleId : string)
    (store : gmap string ProgressRecord) : option ProgressRecord :=
  window_getPuzzleProgressRecord puzzleId store.

(** The parse shared by the debug log of the loop and by
    updateLocalPuzzleData: the entries of a remote row, [None] when
    [JSON.parse] or the property access throws. *)
Definition remoteEntries (remoteData : Row) : option (gmap string string) :=
  parseBody (r_progress_json remoteData) ≫= entriesOrEmpty.

(** updateLocalPuzzleData, with the binding installed; [None] when it
    throws. *)
Definition updateLocalPuzzleData (puzzleId : string) (remoteData : Row)
    (store : gmap string ProgressRecord) : option (gmap string ProgressRecord) :=
  match remoteEntries remoteData with
  | None => None
  | Some entries =>
      let recordToSave :=
        {| id := puzzleId;
           Progress.status := or_else (r_status remoteData) "not-started";
           entries := entries;
           elapsedSeconds := r_elapsed_seconds remoteData;
           updatedAt := r_updated_at remoteData |} in
      Some (window_savePuzzleProgressRecord recordToSave store)
  end.

(** The body that uploadPuzzleToServer posts; [now] is the Date.now()
    that stands in for a missing updatedAt. *)
Definition uploadBody (now : Z) (puzzleId : string) (localData : ProgressRecord)
  : SyncRequest :=
  let timestamp := if updatedAt localData =? 0 then now else updatedAt localData in
  {| puzzle_id := puzzleId;
     grid_size := or_else (last_part (split_dash puzzleId)) "unknown";
     elapsed_seconds := Some (elapsedSeconds localData);
     was_paused := String.eqb (Progress.status localData) "paused";
     progress_json := stringify (entries localData);
     status := or_else (Progress.status localData) "not-started";
     client_updated_at := Some (Some timestamp);
     immediate := false |}.

Definition localHasProgress (localData : option ProgressRecord) : bool :=
  match localData with
  | Some l =>
      hasKeys (entries l) || (0 <? elapsedSeconds l) ||
      String.eqb (Progress.status l) "complete"
  | None => false
  end.

(** What one turn of the loop did for its key. *)
Inductive Outcome : Type :=
| Uploaded
| Downloaded
| Untouched
| Failed.

(** One turn of the loop of bulkSyncAllPuzzles, with its try and catch.
    [remotePuzzles] is the answer of /sync-bulk. *)
Definition bulkSyncKey (now : Z) (remotePuzzles : gmap string Row)
    (puzzleId : string) (w : World) : Outcome * World :=
  let localData := getLocalPuzzleData puzzleId (localStore w) in
  match remotePuzzles !! puzzleId with
  | Some remoteData =>
      match remoteEntries remoteData with
      | None => (Failed, w)
      | Some _ =>
          match updateLocalPuzzleData puzzleId remoteData (localStore w) with
          | Some store => (Downloaded, setLocal w store)
          | None => (Failed, w)
          end
      end
  | None =>
      if localHasProgress localData then
        match localData with
        | Some l =>
            let body := uploadBody now puzzleId l in
            let '(res, db) := handler now body (server w) in
            match res with
            | BadRequest => (Failed, setServer w db body)
            | _ => (Uploaded, setServer w db body)
            end
        | None => (Untouched, w)
        end
      else (Untouched, w)
  end.

(** The loop: the world, the two counters and whether the puzzle on
    screen was downloaded. *)
Record Pass : Type := {
  world : World;
  downloadedCount : nat;
  uploadedCount : nat;
  currentPuzzleDownloaded : bool
}.

Definition bulkTurn (now : Z) (remotePuzzles : gmap string Row)
    (currentPuzzleId : string) (p : Pass) (puzzleId : string) : Pass :=
  let '(o, w) := bulkSyncKey now remotePuzzles puzzleId (world p) in
  {| world := w;
     downloadedCount :=
       match o with Downloaded => S (downloadedCount p) | _ => downloadedCount p end;
     uploadedCount :=
       match o with Uploaded => S (uploadedCount p) | _ => uploadedCount p end;
     currentPuzzleDownloaded :=
       match o with
       | Downloaded =>
           String.eqb puzzleId currentPuzzleId || currentPuzzleDownloaded p
       | _ => currentPuzzleDownloaded p
       end |}.

(** bulkSyncAllPuzzles up to the point where it hands over to the stats
    pass.  [puzzleIds] is window.getAllWeeklyPuzzleIds() and
    [currentPuzzleId] the puzzle on screen (empty when there is none).
    The latch stays set: it is released by [releaseGuards] later. *)
Definition bulkSyncAllPuzzles (now : Z) (puzzleIds : list string)
    (currentPuzzleId : string) (w : World) : World :=
  if negb (authenticated w) then w
  else if isBulkSyncing w then w
  else
    match bulkHandler puzzleIds (server w) with
    | None => w
    | Some remotePuzzles =>
        let w0 := setGuards w true (isInitializing w) (hasLoadedInitialProgress w) in
        let p :=
          fold_left (bulkTurn now remotePuzzles currentPuzzleId) puzzleIds
            {| world := w0; downloadedCount := 0; uploadedCount := 0;
               currentPuzzleDownloaded := false |} in
        let w1 :=
          if currentPuzzleDownloaded p && truthy currentPuzzleId then
            match getLocalPuzzleData currentPuzzleId (localStore (world p)) with
            | Some updatedData =>
                apply (world p) (ApplyReloaded currentPuzzleId updatedData)
            | None => world p
            end
          else world p in
        setGuards w1 true (isInitializing w1) true
    end.

(** The timer of the finally block, 500 ms later. *)
Definition releaseGuards (w : World) : World :=
  setGuards w false false (hasLoadedInitialProgress w).

(** *** Incremental sync *)

(** [!!data.elapsed_seconds] *)
Definition hasTime (e : option Z) : bool :=
  match e with
  | Some n => negb (n =? 0)
  | None => false
  end.

(** The parse of syncProgressLogic, which reads the empty string as the
    empty object; [None] when [JSON.parse] throws. *)
Definition parseLocal (j : jsonValue) : option parsed :=
  match j with
  | JText r => r
  | JEmptyText => Some (PObject None)
  | JValue e => Some (PObject e)
  | JNone => Some (PObject None)
  end.

Definition hasEntries (p : parsed) : bool :=
  match p with
  | PObject (Some e) => hasKeys e
  | _ => false
  end.

(** The progress test of the client; a failed parse counts as none. *)
Definition hasProgress (data : SyncRequest) : bool :=
  match parseLocal (progress_json data) with
  | Some p =>
      hasEntries p || hasTime (elapsed_seconds data) ||
      String.eqb (status data) "complete"
  | None => false
  end.

Definition withImmediate (data : SyncRequest) (isImmediate : bool) : SyncRequest :=
  {| puzzle_id := puzzle_id data;
     grid_size := grid_size data;
     elapsed_seconds := elapsed_seconds data;
     was_paused := was_paused data;
     progress_json := progress_json data;
     status := status data;
     client_updated_at := client_updated_at data;
     immediate := isImmediate |}.

(** The answer branch of syncProgressLogic: [res] is the answer of the
    server, [currentPuzzleId] the puzzle the request was about and
    [nowData] the state of the host once the answer is in. *)
Definition receive (isInitialLoad : bool) (currentPuzzleId : string)
    (nowData : option SyncRequest) (res : Response) (w : World) : World :=
  match res with
  | Loaded latest_progress =>
      let loadedPuzzleId := r_puzzle_id latest_progress in
      let nowPuzzleId :=
        or_else (match nowData with
                 | Some n => puzzle_id n
                 | None => ""
                 end) currentPuzzleId in
      let shouldApplyLoad :=
        isInitialLoad || String.eqb loadedPuzzleId nowPuzzleId in
      if shouldApplyLoad then
        let w2 := apply w (ApplyLoaded latest_progress) in
        setGuards w2 (isBulkSyncing w2) (isInitializing w2) true
      else w
  | Saved _ => w
  | BadRequest => w
  end.

(** syncProgressLogic(isImmediate, isInitialLoad).  [data] is what
    getLocalProgressData() returns before the request and [nowData] what
    it returns after the answer ([None] when the host has no state to
    give); the token is granted and the request reaches the server,
    whose clock reads [now]. *)
Definition syncProgressLogic (now : Z) (isImmediate isInitialLoad : bool)
    (data nowData : option SyncRequest) (w : World) : World :=
  if negb (authenticated w) then w
  else if isBulkSyncing w then w
  else if negb (hasLoadedInitialProgress w) then w
  else
    match data with
    | None => w
    | Some d =>
        if negb (truthy (puzzle_id d)) || String.eqb (puzzle_id d) "unknown"
        then w
        else
          let currentPuzzleId := puzzle_id d in
          if isImmediate && negb (hasProgress d) then w
          else
            let payload := withImmediate d isImmediate in
            let '(res, db) := handler now payload (server w) in
            receive isInitialLoad currentPuzzleId nowData res
              (setServer w db payload)
    end.

End User.

(** ** Notions used to state the properties of the synchronisation *)

Module SyncSpec.
Import Js Progress SyncApi User.

(** The entries that a progress_json value carries, none when it cannot
    be read or has no such property. *)
Definition payloadEntries (j : jsonValue) : gmap string string :=
  match j with
  | JText (Some (PObject (Some e))) => e
  | JValue (Some e) => e
  | _ => ∅
  end.

(** A progress_json value that reads as an object: the JSON text of an
    object, a value that is an object already, or null, which is read
    as the empty object. *)
Definition readable (j : jsonValue) : Prop :=
  match j with
  | JText (Some (PObject _)) | JValue _ | JNone => True
  | _ => False
  end.

(** A state without progress: no entries, zero elapsed seconds and a
    status other than complete. *)
Definition noProgress (d : SyncRequest) : Prop :=
  payloadEntries (progress_json d) = ∅ /\
  elapsed_seconds d = Some 0 /\
  status d <> "complete".

(** The guards of syncProgressLogic let a request through. *)
Definition ready (w : World) : Prop :=
  authenticated w = true /\ isBulkSyncing w = false /\
  hasLoadedInitialProgress w = true.

(** A real puzzle key. *)
Definition realKey (k : string) : Prop := k <> "" /\ k <> "unknown".

(** The puzzle on screen when the answer arrives. *)
Definition nowPuzzleId (d : SyncRequest) (nowData : option SyncRequest) : string :=
  or_else (match nowData with Some n => puzzle_id n | None => "" end)
    (puzzle_id d).

(** The local record that a download writes for a remote row. *)
Definition downloaded (puzzleId : string) (remoteData : Row)
    (entries : gmap string string) : ProgressRecord :=
  {| id := puzzleId;
     Progress.status := or_else (r_status remoteData) "not-started";
     entries := entries;
     elapsedSeconds := r_elapsed_seconds remoteData;
     updatedAt := r_updated_at remoteData |}.

(** A record that stands for an untouched puzzle. *)
Definition emptyNotStarted (r : ProgressRecord) : Prop :=
  entries r = ∅ /\ elapsedSeconds r = 0 /\ Progress.status r = "not-started".

(** No record of the store stands for an untouched puzzle. *)
Definition notStartedFree (store : gmap string ProgressRecord) : Prop :=
  forall k r, store !! k = Some r -> ~ emptyNotStarted r.

End SyncSpec.

(** ** Sample data *)

Module Samples.
Import Js Stats.

(** 2025-11-20 is day 20412 of the epoch; [t20] is 10:00 UTC on it. *)
Definition day20 : Z := 20412.
Definition t20 : Z := day20 * MS_PER_DAY + 36000000.

(** A world whose only entry is the 5x5 grid. *)
Definition statsWorld (last : option datestr) (streak mx : N)
    (best : option Z) : World :=
  {| storage :=
       {[ "5x5" := {| grid_size := "5x5";
                      best_time_seconds := best;
                      best_time_date := None;
                      current_streak_days := streak;
                      max_streak_days := mx;
                      last_completed_date := last;
                      max_streak_date := None |} ]};
     displayed := [];
     syncRequests := [] |}.

Definition completion (puzzleId : string) (elapsed : Z) (pristine : bool)
  : Completion :=
  {| c_now := t20; c_puzzleId := puzzleId; c_elapsed := elapsed;
     c_pristine := pristine |}.

(** Two puzzles of the week. *)
Definition pid19 : string := "2025-11-19-5x5".
Definition pid20 : string := "2025-11-20-5x5".

(** What the host reports for a puzzle: [entries] typed so far, the
    timer at [elapsed] seconds, last touched at [touched]. *)
Definition gameState (pid st : string) (entries : gmap string string)
    (elapsed touched : Z) : SyncApi.SyncRequest :=
  {| SyncApi.puzzle_id := pid;
     SyncApi.grid_size := "5x5";
     SyncApi.elapsed_seconds := Some elapsed;
     SyncApi.was_paused := false;
     SyncApi.progress_json := Progress.stringify entries;
     SyncApi.status := st;
     SyncApi.client_updated_at := Some (Some touched);
     SyncApi.immediate := false |}.

(** A puzzle that was opened and not touched. *)
Definition untouched (pid : string) : SyncApi.SyncRequest :=
  gameState pid "not-started" ∅ 0 t20.

(** One letter typed after thirty seconds. *)
Definition oneLetter : gmap string string := {[ "0-0" := "A" ]}.

Definition remoteRow (rid : Z) (pid st : string)
    (entries : gmap string string) (elapsed written : Z) : SyncApi.Row :=
  {| SyncApi.r_id := rid;
     SyncApi.r_puzzle_id := pid;
     SyncApi.r_grid_size := "5x5";
     SyncApi.r_elapsed_seconds := elapsed;
     SyncApi.r_was_paused := false;
     SyncApi.r_progress_json := Progress.stringify entries;
     SyncApi.r_status := st;
     SyncApi.r_completed_at := None;
     SyncApi.r_updated_at := written |}.

Definition emptyDb : SyncApi.Db := {| SyncApi.rows := ∅; SyncApi.next_id := 1 |}.

(** A table with the single row [r]. *)
Definition dbWith (r : SyncApi.Row) : SyncApi.Db :=
  {| SyncApi.rows := {[ SyncApi.r_puzzle_id r := r ]};
     SyncApi.next_id := SyncApi.r_id r + 1 |}.

(** A signed-in client after its first bulk pass. *)
Definition readyWorld (db : SyncApi.Db)
    (store : gmap string Progress.ProgressRecord) : User.World :=
  {| User.authenticated := true;
     User.isBulkSyncing := false;
     User.isInitializing := false;
     User.hasLoadedInitialProgress := true;
     User.localStore := store;
     User.server := db;
     User.posted := [];
     User.applied := [] |}.

(** A signed-in client that has not synchronised yet. *)
Definition freshWorld (db : SyncApi.Db)
    (store : gmap string Progress.ProgressRecord) : User.World :=
  {| User.authenticated := true;
     User.isBulkSyncing := false;
     User.isInitializing := true;
     User.hasLoadedInitialProgress := false;
     User.localStore := store;
     User.server := db;
     User.posted := [];
     User.applied := [] |}.

Definition localRecord (pid st : string) (entries : gmap string string)
    (elapsed touched : Z) : Progress.ProgressRecord :=
  {| Progress.id := pid;
     Progress.status := st;
     Progress.entries := entries;
     Progress.elapsedSeconds := elapsed;
     Progress.updatedAt := touched |}.

(** app.js showing puzzle [pid20] with [entries] in the grid and a
    stopped timer at [seconds]. *)
Definition appState (entries : gmap string string) (seconds : Z)
    (store : gmap string Progress.ProgressRecord) : App.State :=
  {| App.activeKey := "5x5";
     App.activeEntries := Some entries;
     App.activeStorageKey := pid20;
     App.timerRunning := false;
     App.timerStartTimestamp := 0;
     App.timerAccumulatedSeconds := seconds;
     App.timerPaused := false;
     App.puzzleCompleted := false;
     App.progressStore := store;
     App.puzzleStatusCache := ∅ |}.

End Samples.

(** ** Further notions for the statistics *)

Module StatsMoreSpec.
Import Js Stats.

(** A record whose streak counters fit together: the current streak is
    not above the maximum, and a grid that was ever completed has a
    maximum of at least one. *)
Definition streakSound (s : StatsRecord) : Prop :=
  (current_streak_days s <= max_streak_days s)%N /\
  (is_Some (last_completed_date s) -> (1 <= max_streak_days s)%N).

Definition allSound (w : World) : Prop :=
  forall g s, storage w !! g = Some s -> streakSound s.

(** Completions booked on grid [g] on the days [d], [d + 1], ... in
    this order, one per day. *)
Fixpoint dayByDay (g : string) (d : Z) (cs : list Completion) : Prop :=
  match cs with
  | [] => True
  | c :: rest =>
      c_now c / MS_PER_DAY = d /\ gridOf (c_puzzleId c) = Some g /\
      dayByDay g (d + 1) rest
  end.

(** The stored maximum streak of a grid. *)
Definition maxStreakOf (g : string) (w : World) : N :=
  match storage w !! g with
  | Some s => max_streak_days s
  | None => 0%N
  end.

(** A side of a merge, when it is there, is sound. *)
Definition sideSound (A : option StatsRecord) : Prop :=
  forall s, A = Some s -> streakSound s.

End StatsMoreSpec.

(** ** Further sample data *)

Module MoreSamples.
Import Js Stats Samples.

(** The 5x5 puzzle completed on three days in a row. *)
Definition threeDays : list Completion :=
  [ {| c_now := t20; c_puzzleId := "2025-11-20-5x5"; c_elapsed := 200;
       c_pristine := true |};
    {| c_now := t20 + MS_PER_DAY; c_puzzleId := "2025-11-21-5x5";
       c_elapsed := 210; c_pristine := false |};
    {| c_now := t20 + 2 * MS_PER_DAY; c_puzzleId := "2025-11-22-5x5";
       c_elapsed := 190; c_pristine := true |} ].

(** The two sides of the merge scenario: the local record and the
    remote one, which is faster and more recent. *)
Definition statsLocal : StatsRecord :=
  {| grid_size := "5x5"; best_time_seconds := Some 200;
     best_time_date := None; current_streak_days := 3;
     max_streak_days := 3; last_completed_date := Some (Day 20411);
     max_streak_date := None |}.

Definition statsRemote : StatsRecord :=
  {| grid_size := "5x5"; best_time_seconds := Some 180;
     best_time_date := None; current_streak_days := 5;
     max_streak_days := 5; last_completed_date := Some (Day 20412);
     max_streak_date := None |}.

(** The table of the stats endpoint holding the remote record. *)
Definition tableRemote : gmap string StatsRecord := {[ "5x5" := statsRemote ]}.

End MoreSamples.

(** ** The stats endpoint and its client *)

Module StatsApi.
Import Js Stats Merge.

(** The user_stats rows of the authenticated user, by grid_size (rows
    are unique per (auth_id, grid_size)); the grid_size column of a row
    is its key. *)
Inductive Response : Type :=
| BadRequest                                  (* 400 *)
| Fetched (stats : gmap string StatsRecord)   (* 200, action FETCHED *)
| Synced (merged_stats : StatsRecord).        (* 200, action SYNCED *)

Definition DEFAULT_GRID_SIZES : list string := ["5x5"; "5x6"; "6x7"; "7x7"].

(** GET: [grid_sizes] is the query parameter split at the commas and
    trimmed, [None] when the parameter is missing. *)
Definition getHandler (grid_sizes : option (list string))
    (table : gmap string StatsRecord) : Response :=
  let gridSizes := default DEFAULT_GRID_SIZES grid_sizes in
  Fetched (filter (fun kv => kv.1 ∈ gridSizes) table).

(** POST: [stats] is [None] when the body has no stats. *)
Definition postHandler (grid_size : string) (stats : option StatsRecord)
    (table : gmap string StatsRecord) : Response * gmap string StatsRecord :=
  match stats with
  | None => (BadRequest, table)
  | Some st =>
      if negb (truthy grid_size) then (BadRequest, table)
      else
        let existingStats := table !! grid_size in
        let mergedStats := serverMerge grid_size existingStats st in
        (Synced mergedStats, <[grid_size := mergedStats]> table)
  end.

(** *** The POST on any body *)

(** The best_time_seconds field of a posted stats object: missing from
    the body, null, or a number. *)
Inductive SentBest : Type :=
| BestMissing
| BestNull
| BestNumber (seconds : Z).

(** A posted stats object.  Its other fields are read through
    truthiness tests or copied, for which a missing field is as null or
    0. *)
Record StatsBody : Type := {
  sent_best : SentBest;
  sent_best_date : option Z;
  sent_streak : N;
  sent_max : N;
  sent_last : option datestr;
  sent_max_date : option datestr
}.

(** The body that [JSON.stringify] makes of a record of stats.js. *)
Definition bodyOf (s : StatsRecord) : StatsBody :=
  {| sent_best :=
       match best_time_seconds s with
       | Some c => BestNumber c
       | None => BestNull
       end;
     sent_best_date := best_time_date s;
     sent_streak := current_streak_days s;
     sent_max := max_streak_days s;
     sent_last := last_completed_date s;
     sent_max_date := max_streak_date s |}.

(** Personal best: take the faster time.  The tests on the body are
    [=== null] and [!== null]: a missing field is undefined, which is
    not null and which no stored time is less than, so the undefined
    value is taken over with the date of the body; the database stores
    it as NULL. *)
Definition serverBestSent (existingStats : option StatsRecord)
    (body : StatsBody) : option Z * option Z :=
  match bestField existingStats with
  | Some e =>
      match sent_best body with
      | BestNull => (Some e, bestDateField existingStats)
      | BestNumber c =>
          if e <? c then (Some e, bestDateField existingStats)
          else (Some c, sent_best_date body)
      | BestMissing => (None, sent_best_date body)
      end
  | None =>
      match sent_best body with
      | BestNull => (None, None)
      | BestNumber c => (Some c, sent_best_date body)
      | BestMissing => (None, sent_best_date body)
      end
  end.

(** The three steps of the merge, as the row that is stored. *)
Definition serverMergeSent (grid_size : string)
    (existingStats : option StatsRecord) (body : StatsBody) : StatsRecord :=
  let best := serverBestSent existingStats body in
  let streak :=
    match sent_last body, lastField existingStats with
    | Some c, Some e =>
        if date_geb (getTime c) (getTime e)
        then (sent_streak body, Some c)
        else (streakField existingStats, Some e)
    | Some c, None => (sent_streak body, Some c)
    | None, Some e => (streakField existingStats, Some e)
    | None, None => (0%N, None)
    end in
  let mx :=
    if (maxField existingStats <? sent_max body)%N
    then (sent_max body, sent_max_date body)
    else (maxField existingStats, maxDateField existingStats) in
  {| Stats.grid_size := grid_size;
     best_time_seconds := fst best;
     best_time_date := snd best;
     current_streak_days := fst streak;
     max_streak_days := fst mx;
     last_completed_date := snd streak;
     max_streak_date := snd mx |}.

(** POST on any body: [body] is [None] when the body has no stats. *)
Definition postHandlerSent (grid_size : string) (body : option StatsBody)
    (table : gmap string StatsRecord) : Response * gmap string StatsRecord :=
  match body with
  | None => (BadRequest, table)
  | Some b =>
      if negb (truthy grid_size) then (BadRequest, table)
      else
        let existingStats := table !! grid_size in
        let mergedStats := serverMergeSent grid_size existingStats b in
        (Synced mergedStats, <[grid_size := mergedStats]> table)
  end.

End StatsApi.

Module StatsSync.
Import Js Stats Merge StatsApi.

(** The client of user.js with the storage of stats.js and the table of
    the stats endpoint. *)
Record World : Type := {
  user : User.World;
  localStats : gmap string StatsRecord;
  statsTable : gmap string StatsRecord
}.

(** uploadStatsToServer: the answer of the server, when it is SYNCED,
    is saved through window.saveStatsForGrid; a rejected request is
    logged and changes nothing. *)
Definition uploadStatsToServer (gridSize : string) (stats : StatsRecord)
    (w : World) : World :=
  match postHandler gridSize (Some stats) (statsTable w) with
  | (Synced merged_stats, table) =>
      {| user := user w;
         localStats := saveStatsForGrid gridSize merged_stats (localStats w);
         statsTable := table |}
  | (_, table) =>
      {| user := user w; localStats := localStats w; statsTable := table |}
  end.

(** syncStatsToServer, as stats.js calls it after a completion. *)
Definition syncStatsToServer (gridSize : string) (stats : StatsRecord)
    (w : World) : World :=
  if negb (User.authenticated (user w)) then w
  else if User.isBulkSyncing (user w) || User.isInitializing (user w) then w
  else uploadStatsToServer gridSize stats w.

(** A completion with user.js loaded: updateStatsOnCompletion on the
    local storage, then the call of window.syncStatsToServer that it
    makes with the record it has just saved. *)
Definition onCompletion (now : Z) (puzzleId : string) (elapsedSeconds : Z)
    (isPristine : bool) (w : World) : World :=
  let sw :=
    snd (updateStatsOnCompletion now puzzleId elapsedSeconds isPristine
           {| storage := localStats w; displayed := []; syncRequests := [] |}) in
  let w1 :=
    {| user := user w; localStats := storage sw; statsTable := statsTable w |} in
  match syncRequests sw with
  | (gridSize, stats) :: _ => syncStatsToServer gridSize stats w1
  | [] => w1
  end.

End StatsSync.

Module StatsSyncSamples.
Import Js Stats Samples MoreSamples.

(** A signed-in client after its first bulk pass, with the local
    statistics [localStats] and the server table [table]. *)
Definition syncedWorld (localStats table : gmap string StatsRecord)
  : StatsSync.World :=
  {| StatsSync.user := readyWorld emptyDb ∅;
     StatsSync.localStats := localStats;
     StatsSync.statsTable := table |}.

(** The same client before its first bulk pass has finished. *)
Definition startingWorld (localStats table : gmap string StatsRecord)
  : StatsSync.World :=
  {| StatsSync.user := freshWorld emptyDb ∅;
     StatsSync.localStats := localStats;
     StatsSync.statsTable := table |}.

End StatsSyncSamples.

(** ** Further notions for the synchronisation *)

Module SyncMoreSpec.
Import Js Progress SyncApi User.

(** Every row is stored under its own puzzle_id. *)
Definition keyed (db : Db) : Prop :=
  forall k r, rows db !! k = Some r -> r_puzzle_id r = k.

(** The row [row] carries the payload of the request [req]. *)
Definition carries (row : Row) (req : SyncRequest) : Prop :=
  r_puzzle_id row = puzzle_id req /\
  r_progress_json row = progress_json req /\
  r_status row = status req /\
  r_elapsed_seconds row = default 0 (elapsed_seconds req).

(** The row [row] holds the progress of the local record [l]. *)
Definition mirrors (row : Row) (l : ProgressRecord) : Prop :=
  r_progress_json row = stringify (entries l) /\
  r_elapsed_seconds row = elapsedSeconds l /\
  r_status row = or_else (Progress.status l) "not-started".

(** The server has the progress of the local record [localData] of
    [puzzleId], written at [now], and the body of the upload was posted. *)
Definition uploaded (now : Z) (puzzleId : string) (localData : ProgressRecord)
    (w : World) : Prop :=
  (exists row, rows (server w) !! puzzleId = Some row /\
     mirrors row localData /\ r_puzzle_id row = puzzleId /\ r_updated_at row = now) /\
  uploadBody now puzzleId localData ∈ posted w.

(** The local record is in place, and the server has either no row for
    the puzzle or the uploaded one. *)
Definition pending (now : Z) (puzzleId : string) (localData : ProgressRecord)
    (w : World) : Prop :=
  localStore w !! puzzleId = Some localData /\
  (rows (server w) !! puzzleId = None \/ uploaded now puzzleId localData w).

End SyncMoreSpec.

(** ** user.js: the first synchronisation after sign-in *)

Module FirstSync.
Import Js Progress SyncApi User.

(** What the host (app.js) shows to one attempt of scheduleFirstSync:
    [gameState] is what getLocalProgressData() returns, [None] when it
    is null or the call throws; [weeklyIds] is
    window.getAllWeeklyPuzzleIds(), the empty list when the function is
    not installed; [screenAtPass] is the puzzle_id that the bulk pass
    reads from window.getCurrentGameState() once the answer of
    /sync-bulk is in (empty when there is none). *)
Record Host : Type := {
  gameState : option SyncRequest;
  weeklyIds : list string;
  screenAtPass : string
}.

(** [gs && gs.puzzle_id && puzzleIds.length > 0] *)
Definition appReady (h : Host) : bool :=
  match gameState h with
  | Some gs =>
      truthy (puzzle_id gs) && negb (bool_decide (weeklyIds h = []))
  | None => false
  end.

(** scheduleFirstSync(retry), with [remaining] attempts left.  The
    attempts are 250 ms apart; [host] and [now] give the host and the
    clock at each attempt. *)
Fixpoint poll (remaining retry : nat) (now : nat -> Z) (host : nat -> Host)
    (w : World) : World :=
  match remaining with
  | O => w
  | S n =>
      if appReady (host retry) then
        bulkSyncAllPuzzles (now retry) (weeklyIds (host retry))
          (screenAtPass (host retry)) w
      else poll n (S retry) now host w
  end.

(** scheduleFirstSync(): the attempts 0 to 20. *)
Definition scheduleFirstSync (now : nat -> Z) (host : nat -> Host)
    (w : World) : World :=
  poll 21 0 now host w.

End FirstSync.

Module FirstSyncSamples.
Import Js Progress SyncApi User Samples.

(** A host that has its game state and weekly puzzles from attempt
    [ready] on. *)
Definition hostAfter (ready : nat) (attempt : nat) : FirstSync.Host :=
  if (attempt <? ready)%nat then
    {| FirstSync.gameState := None; FirstSync.weeklyIds := [];
       FirstSync.screenAtPass := "" |}
  else
    {| FirstSync.gameState := Some (untouched pid20);
       FirstSync.weeklyIds := [pid19; pid20];
       FirstSync.screenAtPass := pid20 |}.

End FirstSyncSamples.

(** ** app.js: storage keys and the status cache *)

Module AppKeys.
Import Js Progress App.

(** composePuzzleStorageKey(date, puzzleKey).  [normalizedDate] is what
    normalizeDateString(date) returns, the empty string for null. *)
Definition composePuzzleStorageKey (normalizedDate puzzleKey : string) : string :=
  or_else normalizedDate "unknown" ++ "-" ++ or_else puzzleKey "unknown".

(** What the status cache holds for a stored record. *)
Definition cacheEntryOf (r : ProgressRecord) : string * Z :=
  (Progress.status r, Z.max 0 (elapsedSeconds r)).

End AppKeys.

(** ** app.js: the grid, its totals and the test for completion *)

Module Grid.
Import Js.

(** The code of a character; texts are taken to be ASCII. *)
Definition code (c : ascii) : Z := Z.of_N (N_of_ascii c).

(** [toUpperCase] on one character and on a text. *)
Definition upperChar (c : ascii) : ascii :=
  if (97 <=? code c) && (code c <=? 122)
  then ascii_of_N (N_of_ascii c - 32) else c.

Definition toUpperCase (s : string) : string :=
  string_of_list_ascii (List.map upperChar (list_ascii_of_string s)).

(** [/^[A-Z]$/.test(char)] *)
Definition isCapital (c : ascii) : bool := (65 <=? code c) && (code c <=? 90).

(** letterValues: A is 1, ..., Z is 26. *)
Definition letterValues (c : ascii) : Z := code c - 64.

(** [letterValues[s] || 0] on a text. *)
Definition valueOf (s : string) : Z :=
  match s with
  | String c EmptyString => if isCapital c then letterValues c else 0
  | _ => 0
  end.

(** sanitizeInput: [raw.toUpperCase().replace(/[^A-Z]/g, '').slice(0, 1)]. *)
Definition sanitizeInput (raw : string) : string :=
  match List.filter isCapital (List.map upperChar (list_ascii_of_string raw)) with
  | [] => ""
  | c :: _ => String c ""
  end.

(** A cell of the grid with its input: [dataset.row], [dataset.col],
    [dataset.letter], the value of the input, [dataset.prev] and
    [dataset.prevChar]. *)
Record Cell : Type := {
  c_row : nat;
  c_col : nat;
  c_letter : string;
  c_value : string;
  c_prev : Z;
  c_prevChar : string
}.

(** The state of a puzzle, as far as the totals and the completion test
    read it.  [cells] are the cells of rowCellGroups, row by row; the
    groups of a row and of a column are the cells with that index. *)
Record PuzzleState : Type := {
  matrix : list (list ascii);
  rowCount : nat;
  colCount : nat;
  rowBases : list Z;
  colBases : list Z;
  rowRemaining : list Z;
  colRemaining : list Z;
  cells : list Cell
}.

(** The value that a character of the matrix adds to its row and
    column: that of a letter, nothing for anything else. *)
Definition charValue (ch : ascii) : Z :=
  let char := upperChar ch in
  if isCapital char then letterValues char else 0.

(** The values of the first [colCount] characters of a row; [None] when
    the row is shorter, where [matrix[r][c].toUpperCase()] throws. *)
Definition rowValues (colCount : nat) (row : list ascii) : option (list Z) :=
  if (length row <? colCount)%nat then None
  else Some (List.map charValue (take colCount row)).

Definition sumZ (l : list Z) : Z := foldr Z.add 0 l.

(** One turn of the outer loop of prepareState: the row sum is appended
    to rowBases and the values are added to colBases. *)
Definition prepareRow (colCount : nat) (acc : option (list Z * list Z))
    (row : list ascii) : option (list Z * list Z) :=
  match acc with
  | None => None
  | Some (rowBases, colBases) =>
      match rowValues colCount row with
      | None => None
      | Some values =>
          Some ((rowBases ++ [sumZ values])%list, zip_with Z.add colBases values)
      end
  end.

(** prepareState(raw), on [raw.matrix]; [None] when it throws. *)
Definition prepareState (raw : list string) : option PuzzleState :=
  let matrix := List.map list_ascii_of_string raw in
  let rowCount := length matrix in
  let colCount := match matrix with row :: _ => length row | [] => 0%nat end in
  match fold_left (prepareRow colCount) matrix (Some ([], replicate colCount 0)) with
  | None => None
  | Some (rowBases, colBases) =>
      Some {| matrix := matrix;
              rowCount := rowCount;
              colCount := colCount;
              rowBases := rowBases;
              colBases := colBases;
              rowRemaining := rowBases;
              colRemaining := colBases;
              cells := [] |}
  end.

(** The cell that renderGrid makes for the character at (r, c), none for
    a black square. *)
Definition renderCell (r c : nat) (ch : ascii) : list Cell :=
  let char := upperChar ch in
  if Ascii.eqb char "." || Ascii.eqb char "#" then []
  else [{| c_row := r; c_col := c; c_letter := String char "";
           c_value := ""; c_prev := 0; c_prevChar := "" |}].

Fixpoint renderRow (r c : nat) (row : list ascii) : list Cell :=
  match row with
  | [] => []
  | ch :: rest => (renderCell r c ch ++ renderRow r (S c) rest)%list
  end.

Fixpoint renderRows (colCount r : nat) (matrix : list (list ascii)) : list Cell :=
  match matrix with
  | [] => []
  | row :: rest =>
      (renderRow r 0 (take colCount row) ++ renderRows colCount (S r) rest)%list
  end.

(** renderGrid(state), on a state that prepareState returned: every row
    has at least [colCount] characters. *)
Definition renderGrid (st : PuzzleState) : PuzzleState :=
  {| matrix := matrix st;
     rowCount := rowCount st;
     colCount := colCount st;
     rowBases := rowBases st;
     colBases := colBases st;
     rowRemaining := rowRemaining st;
     colRemaining := colRemaining st;
     cells := renderRows (colCount st) 0 (matrix st) |}.

(** getCellValue(cell) *)
Definition getCellValue (cell : Cell) : string := toUpperCase (c_value cell).

(** isPuzzleSolved(state) *)
Definition isPuzzleSolved (st : PuzzleState) : bool :=
  negb (bool_decide (cells st = [])) &&
  forallb (fun cell =>
             truthy (c_letter cell) &&
             String.eqb (getCellValue cell) (c_letter cell))
    (cells st).

(** handleInput for the [i]-th input after its value was set to [raw]:
    the effect on the cell and on the remaining totals.  The tokens of
    the letter table, the timer and the completion flag are not part of
    this state.  [None] stands for what is not modelled: an input that
    does not exist, or a cell whose row or column is outside the totals
    (renderGrid makes no such cell). *)
Definition handleInput (i : nat) (raw : string) (st : PuzzleState)
  : option PuzzleState :=
  match cells st !! i with
  | None => None
  | Some cell =>
      let cleaned := sanitizeInput raw in
      let previousValue := c_prev cell in
      let currentValue := valueOf cleaned in
      let delta := currentValue - previousValue in
      match rowRemaining st !! c_row cell, colRemaining st !! c_col cell with
      | Some rowLeft, Some colLeft =>
          let cell' :=
            {| c_row := c_row cell; c_col := c_col cell;
               c_letter := c_letter cell;
               c_value := cleaned;
               c_prev := if delta =? 0 then c_prev cell else currentValue;
               c_prevChar := cleaned |} in
          Some {| matrix := matrix st;
                  rowCount := rowCount st;
                  colCount := colCount st;
                  rowBases := rowBases st;
                  colBases := colBases st;
                  rowRemaining :=
                    if delta =? 0 then rowRemaining st
                    else <[c_row cell := rowLeft - delta]> (rowRemaining st);
                  colRemaining :=
                    if delta =? 0 then colRemaining st
                    else <[c_col cell := colLeft - delta]> (colRemaining st);
                  cells := <[i := cell']> (cells st) |}
      | _, _ => None
      end
  end.

(** A sequence of inputs, each an index and the text typed. *)
Fixpoint play (inputs : list (nat * string)) (st : PuzzleState)
  : option PuzzleState :=
  match inputs with
  | [] => Some st
  | (i, raw) :: rest =>
      match handleInput i raw st with
      | Some st' => play rest st'
      | None => None
      end
  end.

End Grid.

(** ** Notions used to state the properties of the grid *)

Module GridSpec.
Import Js Grid.

(** The values entered so far in the cells of row [r], of column [c]. *)
Definition enteredInRow (r : nat) (cs : list Cell) : Z :=
  sumZ (List.map c_prev (List.filter (fun cell => Nat.eqb (c_row cell) r) cs)).

Definition enteredInCol (c : nat) (cs : list Cell) : Z :=
  sumZ (List.map c_prev (List.filter (fun cell => Nat.eqb (c_col cell) c) cs)).

(** The remaining total of every row and column is its base less the
    values entered in it; the value recorded for a cell is that of the
    text in its input, which is a sanitised text, and the cell lies
    inside the totals. *)
Definition balanced (st : PuzzleState) : Prop :=
  length (rowRemaining st) = length (rowBases st) /\
  length (colRemaining st) = length (colBases st) /\
  (forall r b, rowBases st !! r = Some b ->
     rowRemaining st !! r = Some (b - enteredInRow r (cells st))) /\
  (forall c b, colBases st !! c = Some b ->
     colRemaining st !! c = Some (b - enteredInCol c (cells st))) /\
  (forall i cell, cells st !! i = Some cell ->
     c_prev cell = valueOf (c_value cell) /\
     sanitizeInput (c_value cell) = c_value cell /\
     (c_row cell < length (rowBases st))%nat /\
     (c_col cell < length (colBases st))%nat).

(** The values of the target letters of the cells of a row, a column. *)
Definition targetInRow (r : nat) (cs : list Cell) : Z :=
  sumZ (List.map (fun cell => valueOf (c_letter cell))
          (List.filter (fun cell => Nat.eqb (c_row cell) r) cs)).

Definition targetInCol (c : nat) (cs : list Cell) : Z :=
  sumZ (List.map (fun cell => valueOf (c_letter cell))
          (List.filter (fun cell => Nat.eqb (c_col cell) c) cs)).

(** The base total of every row and column is the sum of the values of
    the target letters of its cells. *)
Definition basesAreTargets (st : PuzzleState) : Prop :=
  (forall r b, rowBases st !! r = Some b -> b = targetInRow r (cells st)) /\
  (forall c b, colBases st !! c = Some b -> b = targetInCol c (cells st)).

(** A puzzle of three rows and columns with two black squares. *)
Definition smallPuzzle : list string := ["ab."; "c#d"; "efg"].

(** What prepareState returns on it. *)
Definition smallPrepared : PuzzleState :=
  {| matrix := List.map list_ascii_of_string smallPuzzle;
     rowCount := 3; colCount := 3;
     rowBases := [3; 7; 18]; colBases := [9; 8; 11];
     rowRemaining := [3; 7; 18]; colRemaining := [9; 8; 11];
     cells := [] |}.

(** A wrong letter, a character that is no letter, and a correction. *)
Definition someInputs : list (nat * string) := [(0%nat, "x"); (3%nat, "4"); (0%nat, "a")].

(** The seven letters of the puzzle, typed in lower case. *)
Definition solvingInputs : list (nat * string) :=
  [(0%nat, "a"); (1%nat, "b"); (2%nat, "c"); (3%nat, "d");
   (4%nat, "e"); (5%nat, "f"); (6%nat, "g")].

Definition smallSolved : PuzzleState :=
  Eval vm_compute in
    default smallPrepared (play solvingInputs (renderGrid smallPrepared)).

End GridSpec.

(** ** Worked examples for stats.js *)

Module StatsExamples.
Import Js Stats Samples.

Example split_id : split_dash "2025-11-20-5x5" = ["2025"; "11"; "20"; "5x5"].
Proof. reflexivity. Qed.

(** The scenario of the specification: a first pristine completion. *)
Example first_completion :
  let '(r, w) := updateStatsOnCompletion t20 "2025-11-20-5x5" 245 true emptyWorld in
  match r with
  | Some (s, ch) =>
      best_time_seconds s = Some 245 /\ current_streak_days s = 1%N /\
      max_streak_days s = 1%N /\
      ch = {| newPersonalBest := true; streakIncreased := true; newMaxStreak := true |}
  | None => False
  end.
Proof. vm_compute. repeat split; reflexivity. Qed.

(** Three consecutive days give a streak of three. *)
Example three_days :
  streakOf "5x5"
    (completeAll emptyWorld
       [ {| c_now := t20; c_puzzleId := "2025-11-20-5x5"; c_elapsed := 200;
            c_pristine := true |};
         {| c_now := t20 + MS_PER_DAY; c_puzzleId := "2025-11-21-5x5";
            c_elapsed := 210; c_pristine := false |};
         {| c_now := t20 + 2 * MS_PER_DAY; c_puzzleId := "2025-11-22-5x5";
            c_elapsed := 190; c_pristine := true |} ]) = 3%N.
Proof. vm_compute. reflexivity. Qed.

End StatsExamples.

(** ** Facts about stats.js *)

Module StatsFacts.
Import Js Stats StatsSpec Samples.

(** *** Splitting a puzzle identifier *)

Lemma split_from_length (s cur : string) :
  length (split_from cur s) = S (dashes s).
Proof.
  revert cur. induction s as [|c rest IH]; intros cur; simpl.
  - reflexivity.
  - destruct (Ascii.eqb c "-"%char); simpl; rewrite IH; reflexivity.
Qed.

(** An identifier has one more segment than it has dashes. *)
Lemma split_dash_length (s : string) :
  length (split_dash s) = S (dashes s).
Proof. apply split_from_length. Qed.

Lemma gridOf_None (puzzleId : string) :
  gridOf puzzleId = None <-> (length (split_dash puzzleId) < 4)%nat.
Proof.
  unfold gridOf.
  destruct (Nat.ltb_spec (length (split_dash puzzleId)) 4); split;
    intros; try congruence; try lia.
Qed.

(** *** One completion, seen from one grid *)

Lemma updatePersonalBest_rest now e p s :
  let s' := fst (updatePersonalBest now e p s) in
  grid_size s' = grid_size s /\
  current_streak_days s' = current_streak_days s /\
  max_streak_days s' = max_streak_days s /\
  last_completed_date s' = last_completed_date s /\
  max_streak_date s' = max_streak_date s.
Proof.
  unfold updatePersonalBest.
  destruct p; [destruct (best_time_seconds s) as [b|]; [destruct (e <? b)|]|];
    simpl; repeat split; reflexivity.
Qed.

Lemma raiseMax_keeps today s :
  best_time_seconds (fst (raiseMax today s)) = best_time_seconds s /\
  current_streak_days (fst (raiseMax today s)) = current_streak_days s.
Proof.
  unfold raiseMax. destruct (max_streak_days s <? current_streak_days s)%N;
    simpl; split; reflexivity.
Qed.

Lemma updateStreak_best today s :
  best_time_seconds (fst (fst (updateStreak today s))) = best_time_seconds s.
Proof.
  unfold updateStreak.
  destruct (last_completed_date s) as [l|].
  - destruct (is_day l today); [reflexivity|].
    destruct (daysDiff today l) as [d|]; [|reflexivity].
    destruct (d =? 1).
    + destruct (raiseMax today _) as [s' nm] eqn:E. simpl.
      change s' with (fst (s', nm)). rewrite <- E.
      rewrite (proj1 (raiseMax_keeps _ _)). reflexivity.
    + destruct (1 <? d); reflexivity.
  - destruct (raiseMax today _) as [s' nm] eqn:E. simpl.
    change s' with (fst (s', nm)). rewrite <- E.
    rewrite (proj1 (raiseMax_keeps _ _)). reflexivity.
Qed.

Lemma bestOf_recordOf g w : bestOf g w = best_time_seconds (recordOf g w).
Proof.
  unfold bestOf, recordOf, getStatsForGrid.
  destruct (storage w !! g); reflexivity.
Qed.

Lemma streakOf_recordOf g w : streakOf g w = current_streak_days (recordOf g w).
Proof.
  unfold streakOf, recordOf, getStatsForGrid.
  destruct (storage w !! g); reflexivity.
Qed.

(** The record stored for the grid of a well-formed completion. *)
Lemma complete_stored now puzzleId e p w g :
  gridOf puzzleId = Some g ->
  storage (snd (updateStatsOnCompletion now puzzleId e p w)) !! g =
    Some (fst (fst (updateStreak (now / MS_PER_DAY)
                      (fst (updatePersonalBest now e p (recordOf g w)))))).
Proof.
  unfold gridOf, updateStatsOnCompletion, recordOf.
  destruct (length (split_dash puzzleId) <? 4)%nat; [discriminate|].
  intros [= <-].
  destruct (getStatsForGrid _ _) as [s0 st0]. simpl.
  destruct (updatePersonalBest _ _ _ _) as [s1 pb]. simpl.
  destruct (updateStreak _ _) as [[s2 si] nm]. simpl.
  unfold saveStatsForGrid. apply lookup_insert_eq.
Qed.

(** Every other grid keeps the entry it had. *)
Lemma complete_other now puzzleId e p w g :
  gridOf puzzleId <> Some g ->
  storage (snd (updateStatsOnCompletion now puzzleId e p w)) !! g = storage w !! g.
Proof.
  unfold gridOf, updateStatsOnCompletion.
  destruct (length (split_dash puzzleId) <? 4)%nat; [reflexivity|].
  intros Hne. assert (last_part (split_dash puzzleId) <> g) by congruence.
  unfold getStatsForGrid.
  destruct (storage w !! last_part (split_dash puzzleId)) eqn:E;
    destruct (updatePersonalBest _ _ _ _) as [s1 pb];
    destruct (updateStreak _ _) as [[s2 si] nm]; simpl;
    unfold saveStatsForGrid; rewrite !lookup_insert_ne by assumption; reflexivity.
Qed.

Lemma updatePersonalBest_best now e s :
  best_time_seconds (fst (updatePersonalBest now e true s)) =
    stepBest (best_time_seconds s) e.
Proof.
  unfold updatePersonalBest, stepBest.
  destruct (best_time_seconds s) as [b|] eqn:E; [destruct (e <? b)|]; simpl; congruence.
Qed.

Lemma complete_best now puzzleId e p w g :
  bestOf g (snd (updateStatsOnCompletion now puzzleId e p w)) =
    match gridOf puzzleId with
    | Some g' =>
        if p && String.eqb g' g then stepBest (bestOf g w) e else bestOf g w
    | None => bestOf g w
    end.
Proof.
  destruct (gridOf puzzleId) as [g'|] eqn:Hg.
  - destruct (String.eqb_spec g' g) as [->|Hne].
    + unfold bestOf at 1. rewrite (complete_stored _ _ _ _ _ _ Hg).
      rewrite updateStreak_best, andb_true_r.
      destruct p.
      * rewrite updatePersonalBest_best, bestOf_recordOf. reflexivity.
      * rewrite bestOf_recordOf. reflexivity.
    + rewrite andb_false_r. unfold bestOf.
      rewrite complete_other by congruence. reflexivity.
  - unfold bestOf. rewrite complete_other by congruence. reflexivity.
Qed.

(** *** Sequences of completions *)

Lemma minimum_spec (l : list Z) (m : Z) :
  minimum l = Some m <-> In m l /\ (forall x, In x l -> m <= x).
Proof.
  revert m. induction l as [|x rest IH]; intros m; simpl.
  - split; [discriminate|intros [[] _]].
  - destruct (minimum rest) as [m'|] eqn:E.
    + destruct (proj1 (IH m') eq_refl) as [Hin Hle]. split.
      * intros [= <-]. split.
        -- destruct (Z.min_spec x m') as [[_ ->]|[_ ->]]; auto.
        -- intros y [<-|Hy]; [lia|]. specialize (Hle y Hy). lia.
      * intros [[<-|Hm] Hall]; f_equal.
        -- specialize (Hall m' (or_intror Hin)). lia.
        -- pose proof (Hall x (or_introl eq_refl)).
           pose proof (Hall m' (or_intror Hin)). specialize (Hle m Hm). lia.
    + assert (rest = []) as ->.
      { destruct rest as [|y r]; [reflexivity|]. simpl in E.
        destruct (minimum r); discriminate. }
      split.
      * intros [= <-]. split; [auto|]. intros y [<-|[]]. lia.
      * intros [[<-|[]] _]. reflexivity.
Qed.

Lemma completeAll_best g cs w :
  bestOf g (completeAll w cs) = bestAfter (bestOf g w) (pristineTimes g cs).
Proof.
  revert w. induction cs as [|c cs IH]; intros w.
  - reflexivity.
  - unfold completeAll in *. simpl. rewrite IH.
    unfold complete at 1. rewrite complete_best.
    unfold pristineTimes, countsFor at 2. simpl.
    destruct (gridOf (c_puzzleId c)) as [g'|].
    + destruct (c_pristine c && String.eqb g' g); reflexivity.
    + rewrite andb_false_r. reflexivity.
Qed.

Lemma bestAfter_Some b times :
  bestAfter (Some b) times =
    Some (match minimum times with Some m => Z.min b m | None => b end).
Proof.
  revert b. induction times as [|t rest IH]; intros b; simpl.
  - reflexivity.
  - unfold bestAfter in *. simpl.
    destruct (Z.ltb_spec t b); rewrite IH; f_equal;
      destruct (minimum rest); lia.
Qed.

Lemma bestAfter_None times : bestAfter None times = minimum times.
Proof.
  destruct times as [|t rest]; [reflexivity|].
  unfold bestAfter. simpl. fold (bestAfter (Some t) rest).
  rewrite bestAfter_Some. destruct (minimum rest); reflexivity.
Qed.

(** *** The streak after one completion *)

Lemma daysDiff_Day today d : daysDiff today (Day d) = Some (today - d).
Proof.
  unfold daysDiff, getTime. f_equal.
  rewrite <- Z.mul_sub_distr_r. apply Z.div_mul. unfold MS_PER_DAY. lia.
Qed.



Lemma lastCompletedOf_recordOf g w :
  lastCompletedOf g w = last_completed_date (recordOf g w).
Proof.
  unfold lastCompletedOf, recordOf, getStatsForGrid.
  destruct (storage w !! g); reflexivity.
Qed.




(** *** The personal best *)

Lemma stepBest_changes best e :
  stepBest best e <> best <->
  (best = None \/ exists b, best = Some b /\ e < b).
Proof.
  unfold stepBest. destruct best as [b|].
  - destruct (Z.ltb_spec e b); split.
    + intros _. right. exists b. split; [reflexivity|assumption].
    + intros _ [=]. lia.
    + intros Hne. congruence.
    + intros [[=]|(b' & [= <-] & Hlt)]. lia.
  - split; [intros _; left; reflexivity|intros _ [=]].
Qed.

Lemma stepBest_changed best e : stepBest best e <> best -> stepBest best e = Some e.
Proof.
  unfold stepBest. destruct best as [b|]; [|reflexivity].
  destruct (e <? b); congruence.
Qed.

(** C6.  One completion changes the stored best of a grid exactly when
    it is pristine, is booked on that grid and its time is strictly less
    than the stored best or there is none, and the new best is then its
    time; a completion that is not pristine leaves every best as it was;
    so after any sequence of completions that starts without a best, the
    best of a grid is the minimum of the times of its pristine
    completions. *)
Theorem best_time_rule :
  (forall now puzzleId e p w g,
     let w' := snd (updateStatsOnCompletion now puzzleId e p w) in
     (bestOf g w' <> bestOf g w <->
        p = true /\ gridOf puzzleId = Some g /\
        (bestOf g w = None \/ exists b, bestOf g w = Some b /\ e < b)) /\
     (bestOf g w' <> bestOf g w -> bestOf g w' = Some e)) /\
  (forall now puzzleId e w g,
     bestOf g (snd (updateStatsOnCompletion now puzzleId e false w)) = bestOf g w) /\
  (forall w cs g,
     bestOf g w = None ->
     bestOf g (completeAll w cs) = minimum (pristineTimes g cs)).
Proof.
  split; [|split].
  - intros now puzzleId e p w g w'. subst w'. rewrite complete_best.
    destruct (gridOf puzzleId) as [g'|].
    + destruct p; simpl.
      * destruct (String.eqb_spec g' g) as [->|Hne].
        -- split; [|apply stepBest_changed].
           rewrite stepBest_changes. tauto.
        -- split; [split; [congruence|]|congruence].
           intros (_ & [= ?] & _). congruence.
      * split; [split; [congruence|]|congruence].
        intros ([=] & _).
    + split; [split; [congruence|]|congruence].
      intros (_ & [=] & _).
  - intros now puzzleId e w g. rewrite complete_best.
    destruct (gridOf puzzleId); reflexivity.
  - intros w cs g Hnone. rewrite completeAll_best, Hnone. apply bestAfter_None.
Qed.

Lemma best_time_rule_witness :
  bestOf "5x5"
    (completeAll emptyWorld
       [completion "2025-11-20-5x5" 245 true;
        completion "2025-11-20-5x5" 180 false;
        completion "2025-11-20-6x7" 100 true;
        completion "2025-11-20-5x5" 230 true;
        completion "2025-11-20-5x5" 260 true])
  = minimum (pristineTimes "5x5"
       [completion "2025-11-20-5x5" 245 true;
        completion "2025-11-20-5x5" 180 false;
        completion "2025-11-20-6x7" 100 true;
        completion "2025-11-20-5x5" 230 true;
        completion "2025-11-20-5x5" 260 true]) /\
  bestOf "5x5" (snd (updateStatsOnCompletion t20 "2025-11-20-5x5" 200 true
                       (statsWorld None 0 0 (Some 245)))) = Some 200.
Proof.
  split.
  - apply (proj2 (proj2 best_time_rule)). reflexivity.
  - apply (proj2 (proj1 best_time_rule t20 "2025-11-20-5x5" 200 true
                    (statsWorld None 0 0 (Some 245)) "5x5")).
    vm_compute. intros [=].
Defined.

(** *** Malformed identifiers *)

(** C10.  On an identifier with fewer than four dash-separated segments
    updateStatsOnCompletion returns null and leaves everything as it was:
    the stored statistics of every grid, and no display or sync call. *)
Theorem malformed_id_is_ignored (now : Z) (puzzleId : string) (e : Z)
    (p : bool) (w : World) :
  (length (split_dash puzzleId) < 4)%nat ->
  updateStatsOnCompletion now puzzleId e p w = (None, w).
Proof.
  intros Hlen. unfold updateStatsOnCompletion.
  destruct (Nat.ltb_spec (length (split_dash puzzleId)) 4); [reflexivity|lia].
Qed.

Lemma malformed_id_is_ignored_witness :
  updateStatsOnCompletion t20 "2025-11-5x5" 245 true
    (statsWorld (Some (Day 20411)) 3 5 (Some 300))
  = (None, statsWorld (Some (Day 20411)) 3 5 (Some 300)).
Proof.
  apply malformed_id_is_ignored. vm_compute. lia.
Defined.

End StatsFacts.

(** ** Facts about the merge of statistics *)

Module MergeFacts.
Import Js Stats StatsSpec Merge MoreSamples.

Lemma mergeBest_lower (A B : option StatsRecord) :
  fst (mergeBest A B) = lowerOf (bestField A) (bestField B).
Proof.
  unfold mergeBest, lowerOf.
  destruct (bestField A) as [a|], (bestField B) as [b|]; try reflexivity.
  destruct (Z.ltb_spec a b); simpl; f_equal; lia.
Qed.

Lemma mergeMax_max (A B : option StatsRecord) :
  fst (mergeMax A B) = N.max (maxField A) (maxField B).
Proof.
  unfold mergeMax.
  destruct (N.ltb_spec (maxField B) (maxField A)); simpl; lia.
Qed.

Lemma lowerOf_comm (a b : option Z) : lowerOf a b = lowerOf b a.
Proof.
  destruct a, b; simpl; try reflexivity. f_equal. apply Z.min_comm.
Qed.

(** C7.  For any two sides, each a record or nothing, mergeStats gives
    the same best time and the same max streak in both orders.  On the
    fields of the records, in the four presence combinations: with both
    records there, the best time is the lower of the two times that are
    not null, or the one that is not null (null when both are), and the
    max streak is the larger of the two; with one record there, they are
    the best time and the max streak of that record; with none, the best
    time is null and the max streak 0. *)
Theorem merge_commutes :
  (forall A B : option StatsRecord,
     best_time_seconds (mergeStats A B) = best_time_seconds (mergeStats B A) /\
     max_streak_days (mergeStats A B) = max_streak_days (mergeStats B A)) /\
  (forall a b : StatsRecord,
     best_time_seconds (mergeStats (Some a) (Some b))
       = lowerOf (best_time_seconds a) (best_time_seconds b) /\
     max_streak_days (mergeStats (Some a) (Some b))
       = N.max (max_streak_days a) (max_streak_days b)) /\
  (forall a : StatsRecord,
     best_time_seconds (mergeStats (Some a) None) = best_time_seconds a /\
     max_streak_days (mergeStats (Some a) None) = max_streak_days a /\
     best_time_seconds (mergeStats None (Some a)) = best_time_seconds a /\
     max_streak_days (mergeStats None (Some a)) = max_streak_days a) /\
  best_time_seconds (mergeStats None None) = None /\
  max_streak_days (mergeStats None None) = 0%N.
Proof.
  split; [|split; [|split; [|split]]].
  - intros A B. unfold mergeStats. cbn [best_time_seconds max_streak_days].
    rewrite !mergeBest_lower, !mergeMax_max.
    split; [apply lowerOf_comm|apply N.max_comm].
  - intros a b. unfold mergeStats. cbn [best_time_seconds max_streak_days].
    rewrite mergeBest_lower, mergeMax_max. split; reflexivity.
  - intros a. unfold mergeStats. cbn [best_time_seconds max_streak_days].
    rewrite !mergeBest_lower, !mergeMax_max. cbn [bestField maxField lowerOf].
    destruct (best_time_seconds a); repeat split; lia.
  - reflexivity.
  - reflexivity.
Qed.

(** The scenario of the specification: a local best of 200 and a remote
    best of 180, max streaks 3 and 5. *)
Lemma merge_commutes_witness :
  best_time_seconds (mergeStats (Some statsLocal) (Some statsRemote)) = Some 180 /\
  max_streak_days (mergeStats (Some statsLocal) (Some statsRemote)) = 5%N /\
  best_time_seconds (mergeStats (Some statsRemote) (Some statsLocal)) = Some 180 /\
  max_streak_days (mergeStats (Some statsRemote) (Some statsLocal)) = 5%N.
Proof.
  split; [|split; [|split]].
  - exact (proj1 (proj1 (proj2 merge_commutes) statsLocal statsRemote)).
  - exact (proj2 (proj1 (proj2 merge_commutes) statsLocal statsRemote)).
  - exact (proj1 (proj1 (proj2 merge_commutes) statsRemote statsLocal)).
  - exact (proj2 (proj1 (proj2 merge_commutes) statsRemote statsLocal)).
Defined.

(** The endpoint computes the same two values from the stored row and
    the record it is sent. *)
Lemma serverMerge_agrees (g : string) (existingStats : option StatsRecord)
    (stats : StatsRecord) :
  best_time_seconds (serverMerge g existingStats stats)
    = best_time_seconds (mergeStats (Some stats) existingStats) /\
  max_streak_days (serverMerge g existingStats stats)
    = max_streak_days (mergeStats (Some stats) existingStats).
Proof.
  unfold serverMerge, mergeStats. cbn [best_time_seconds max_streak_days].
  rewrite mergeBest_lower, mergeMax_max. split.
  - unfold serverBest, lowerOf. cbn [bestField].
    destruct (bestField existingStats) as [x|], (best_time_seconds stats) as [c|];
      try reflexivity.
    destruct (Z.ltb_spec x c); simpl; f_equal; lia.
  - cbn [maxField].
    destruct (N.ltb_spec (maxField existingStats) (max_streak_days stats));
      simpl; lia.
Qed.

(** The four presence combinations, on the scenario of the
    specification. *)
Example merge_scenario :
  let l := {| grid_size := "5x5"; best_time_seconds := Some 200;
              best_time_date := None; current_streak_days := 3;
              max_streak_days := 3; last_completed_date := Some (Day 20411);
              max_streak_date := None |} in
  let r := {| grid_size := "5x5"; best_time_seconds := Some 180;
              best_time_date := None; current_streak_days := 5;
              max_streak_days := 5; last_completed_date := Some (Day 20412);
              max_streak_date := None |} in
  let m := mergeStats (Some l) (Some r) in
  (best_time_seconds m, current_streak_days m, last_completed_date m)
    = (Some 180, 5%N, Some (Day 20412)) /\
  mergeStats (Some l) None = l /\
  best_time_seconds (mergeStats None (Some r)) = Some 180 /\
  best_time_seconds (mergeStats None None) = None.
Proof. vm_compute. repeat split; reflexivity. Qed.

End MergeFacts.

(** ** Worked examples for the synchronisation *)

Module SyncExamples.
Import Js Progress SyncApi User SyncSpec Samples.

(** Scenario: an untouched local record and no remote row: the bulk
    turn does nothing. *)
Example bulk_untouched :
  bulkSyncKey t20 ∅ pid20
    (freshWorld emptyDb {[ pid20 := localRecord pid20 "not-started" ∅ 0 t20 ]})
  = (Untouched,
     freshWorld emptyDb {[ pid20 := localRecord pid20 "not-started" ∅ 0 t20 ]}).
Proof. vm_compute. reflexivity. Qed.

(** Scenario: one letter after thirty seconds and no remote row: the
    bulk turn uploads that payload. *)
Example bulk_upload :
  fst (bulkSyncKey (t20 + 60000) ∅ pid20
         (freshWorld emptyDb {[ pid20 := localRecord pid20 "started" oneLetter 30 t20 ]}))
  = Uploaded /\
  rows (server (snd (bulkSyncKey (t20 + 60000) ∅ pid20
         (freshWorld emptyDb
            {[ pid20 := localRecord pid20 "started" oneLetter 30 t20 ]})))) !! pid20
  = Some (remoteRow 1 pid20 "started" oneLetter 30 (t20 + 60000)).
Proof. vm_compute. split; reflexivity. Qed.

(** The server keeps its row when the client copy is not newer. *)
Example server_keeps_newer_row :
  handler (t20 + 5000) (gameState pid20 "started" oneLetter 30 (t20 - 1))
    (dbWith (remoteRow 7 pid20 "paused" ∅ 10 t20))
  = (Loaded (remoteRow 7 pid20 "paused" ∅ 10 t20),
     dbWith (remoteRow 7 pid20 "paused" ∅ 10 t20)).
Proof. vm_compute. reflexivity. Qed.

(** Equal timestamps: the comparison is strict, the server row stays. *)
Example server_keeps_row_on_tie :
  fst (handler (t20 + 5000) (gameState pid20 "started" oneLetter 30 t20)
         (dbWith (remoteRow 7 pid20 "paused" ∅ 10 t20)))
  = Loaded (remoteRow 7 pid20 "paused" ∅ 10 t20).
Proof. vm_compute. reflexivity. Qed.

(** A client timestamp that is not a date never wins. *)
Example invalid_client_date :
  fst (handler (t20 + 5000)
         {| puzzle_id := pid20; grid_size := "5x5"; elapsed_seconds := Some 30;
            was_paused := false; progress_json := stringify oneLetter;
            status := "started"; client_updated_at := Some None;
            immediate := false |}
         (dbWith (remoteRow 7 pid20 "paused" ∅ 10 t20)))
  = Loaded (remoteRow 7 pid20 "paused" ∅ 10 t20).
Proof. vm_compute. reflexivity. Qed.

(** The persist step: a typed letter is stored as paused on a switch, an
    untouched grid deletes what was stored. *)
Example persist_on_switch :
  App.progressStore (App.persistActivePuzzle t20 "paused" "" (appState oneLetter 30 ∅))
    !! pid20 = Some (localRecord pid20 "paused" oneLetter 30 t20) /\
  App.progressStore
    (App.persistActivePuzzle t20 "paused" ""
       (appState ∅ 0 {[ pid20 := localRecord pid20 "started" oneLetter 30 t20 ]}))
    !! pid20 = None.
Proof. vm_compute. split; reflexivity. Qed.

End SyncExamples.

(** ** Facts about the per-record synchronisation *)

Module SyncFacts.
Import Js Progress SyncApi User SyncSpec SyncMoreSpec Samples.

(** *** Progress as the two sides test it *)

Lemma hasKeys_empty : hasKeys ∅ = false.
Proof. unfold hasKeys. rewrite bool_decide_eq_true_2; reflexivity. Qed.

Lemma eqb_complete (s : string) : s <> "complete" -> String.eqb s "complete" = false.
Proof. intros H. destruct (String.eqb_spec s "complete"); congruence. Qed.

(** A state without progress has none for the client ... *)
Lemma noProgress_client (d : SyncRequest) :
  noProgress d -> User.hasProgress d = false.
Proof.
  intros (He & Ht & Hs). unfold User.hasProgress, parseLocal.
  rewrite Ht, (eqb_complete _ Hs). simpl.
  destruct (progress_json d) as [| |[[|[e|]]|]|[e|]]; simpl in *;
    try reflexivity; subst e; rewrite hasKeys_empty; reflexivity.
Qed.

(** ... and none for the server. *)
Lemma noProgress_server (d : SyncRequest) :
  noProgress d -> clientHasProgress d = false.
Proof.
  intros (He & Ht & Hs). unfold clientHasProgress, parseBody.
  rewrite Ht, (eqb_complete _ Hs). simpl.
  destruct (progress_json d) as [| |[[|[e|]]|]|[e|]]; simpl in *;
    try reflexivity; try (subst e); rewrite hasKeys_empty; reflexivity.
Qed.

Lemma clientHasProgress_withImmediate d b :
  clientHasProgress (withImmediate d b) = clientHasProgress d.
Proof. reflexivity. Qed.

Lemma missingFields_withImmediate d b :
  missingFields (withImmediate d b) = missingFields d.
Proof. reflexivity. Qed.

(** *** The table *)

Lemma fold_newerRow_Some (l : list Row) (a : Row) :
  is_Some (fold_left newerRow l (Some a)).
Proof.
  revert a. induction l as [|r l IH]; intros a; simpl.
  - eauto.
  - destruct (r_updated_at a <? r_updated_at r); apply IH.
Qed.

(** There is a most recent row as soon as there is a row. *)
Lemma anyLatest_None (db : Db) : anyLatest db = None <-> rows db = ∅.
Proof.
  unfold anyLatest. split.
  - intros H. apply map_to_list_empty_iff.
    destruct (map_to_list (rows db)) as [|[k r] l]; [reflexivity|].
    simpl in H. destruct (fold_newerRow_Some (map snd l) r) as [x Hx].
    congruence.
  - intros ->. rewrite map_to_list_empty. reflexivity.
Qed.

(** The row that a save leaves for the puzzle of the request. *)
Lemma upsert_lookup now req db :
  exists row,
    rows (snd (upsert now req db)) !! puzzle_id req = Some row /\
    r_progress_json row = progress_json req /\
    r_status row = status req /\
    r_elapsed_seconds row = default 0 (elapsed_seconds req) /\
    r_updated_at row = now.
Proof.
  unfold upsert. simpl. eexists. rewrite lookup_insert_eq.
  split; [reflexivity|]. simpl. repeat split; reflexivity.
Qed.

(** *** Newest wins *)

(** C2.  For a request that has progress and a client timestamp, on a
    puzzle for which the server holds a row: when client_updated_at is
    strictly greater than the updated_at of the row the server answers
    SAVED with the id of the row, and the table then holds for the
    puzzle a row with that id and the payload of the client (its
    progress_json, status, elapsed seconds, grid size and pause flag),
    written at the server time, every other row being as it was;
    otherwise the server answers LOADED with the row and writes
    nothing. *)
Theorem newest_wins (now : Z) (req : SyncRequest) (db : Db) (row : Row) (c : Z) :
  missingFields req = false ->
  clientHasProgress req = true ->
  client_updated_at req = Some (Some c) ->
  rows db !! puzzle_id req = Some row ->
  (r_updated_at row < c ->
     fst (handler now req db) = Saved (Some (r_id row)) /\
     (exists saved,
        rows (snd (handler now req db)) !! puzzle_id req = Some saved /\
        carries saved req /\
        r_grid_size saved = grid_size req /\
        r_was_paused saved = was_paused req /\
        r_updated_at saved = now /\ r_id saved = r_id row) /\
     (forall k, k <> puzzle_id req ->
        rows (snd (handler now req db)) !! k = rows db !! k)) /\
  (~ r_updated_at row < c -> handler now req db = (Loaded row, db)) /\
  (fst (handler now req db) = Saved (Some (r_id row)) <-> r_updated_at row < c).
Proof.
  intros Hm Hp Hc Hrow.
  assert (Hh : handler now req db =
               if r_updated_at row <? c
               then (Saved (Some (r_id row)), snd (upsert now req db))
               else (Loaded row, db)).
  { unfold handler. rewrite Hm, Hrow, Hp.
    rewrite bool_decide_eq_true_2 by eauto.
    cbn [negb]. rewrite !andb_false_r.
    unfold clientIsNewer. rewrite Hp, Hc. cbn [negb date_ltb].
    destruct (r_updated_at row <? c); [|reflexivity].
    unfold upsert. rewrite Hrow. reflexivity. }
  rewrite Hh. destruct (Z.ltb_spec (r_updated_at row) c).
  - split; [|split; [lia|simpl; tauto]].
    intros _. cbn [fst snd]. split; [reflexivity|]. split.
    + unfold upsert. rewrite Hrow. cbn [snd rows].
      eexists. split; [apply lookup_insert_eq|]. repeat split.
    + intros k Hk. unfold upsert. cbn [snd rows].
      apply lookup_insert_ne. congruence.
  - split; [lia|]. split; [reflexivity|]. simpl. split; [discriminate|lia].
Qed.

(** The client copy is the newer one: its letter and its thirty seconds
    replace the empty row of the server, which keeps its id. *)
Lemma newest_wins_witness :
  fst (handler (t20 + 5000) (gameState pid20 "started" oneLetter 30 (t20 + 1000))
         (dbWith (remoteRow 7 pid20 "started" ∅ 10 t20)))
  = Saved (Some 7) /\
  (exists saved,
     rows (snd (handler (t20 + 5000)
                  (gameState pid20 "started" oneLetter 30 (t20 + 1000))
                  (dbWith (remoteRow 7 pid20 "started" ∅ 10 t20))))
       !! puzzle_id (gameState pid20 "started" oneLetter 30 (t20 + 1000))
     = Some saved /\
     carries saved (gameState pid20 "started" oneLetter 30 (t20 + 1000)) /\
     r_grid_size saved = grid_size (gameState pid20 "started" oneLetter 30 (t20 + 1000)) /\
     r_was_paused saved = was_paused (gameState pid20 "started" oneLetter 30 (t20 + 1000)) /\
     r_updated_at saved = t20 + 5000 /\
     r_id saved = r_id (remoteRow 7 pid20 "started" ∅ 10 t20)) /\
  (forall k, k <> puzzle_id (gameState pid20 "started" oneLetter 30 (t20 + 1000)) ->
     rows (snd (handler (t20 + 5000)
                  (gameState pid20 "started" oneLetter 30 (t20 + 1000))
                  (dbWith (remoteRow 7 pid20 "started" ∅ 10 t20)))) !! k
     = rows (dbWith (remoteRow 7 pid20 "started" ∅ 10 t20)) !! k).
Proof.
  apply (proj1 (newest_wins (t20 + 5000)
                  (gameState pid20 "started" oneLetter 30 (t20 + 1000))
                  (dbWith (remoteRow 7 pid20 "started" ∅ 10 t20))
                  (remoteRow 7 pid20 "started" ∅ 10 t20) (t20 + 1000)
                  eq_refl eq_refl eq_refl eq_refl)).
  vm_compute. reflexivity.
Defined.

(** *** Immediate calls without progress *)

Lemma handler_immediate_empty now req db :
  clientHasProgress req = false -> immediate req = true ->
  handler now req db =
    if missingFields req then (BadRequest, db) else (Saved None, db).
Proof.
  intros Hp Hi. unfold handler. rewrite Hp, Hi. simpl.
  destruct (missingFields req); reflexivity.
Qed.

Lemma immediate_empty_client now isInitialLoad d nowData w :
  User.hasProgress d = false ->
  syncProgressLogic now true isInitialLoad (Some d) nowData w = w.
Proof.
  intros Hn. unfold syncProgressLogic. rewrite Hn. simpl.
  destruct (negb (authenticated w)); [reflexivity|].
  destruct (isBulkSyncing w); [reflexivity|].
  destruct (negb (hasLoadedInitialProgress w)); [reflexivity|].
  destruct (negb (truthy (puzzle_id d)) || String.eqb (puzzle_id d) "unknown");
    reflexivity.
Qed.

(** C4.  An immediate call on a state without progress is a no-op: the
    client returns before any request, so nothing is posted, the table of
    the server is as it was and nothing is applied; and the server, were
    it asked, would acknowledge (or reject the body) without writing. *)
Theorem immediate_without_progress_is_noop :
  (forall now isInitialLoad d nowData w,
     noProgress d ->
     syncProgressLogic now true isInitialLoad (Some d) nowData w = w) /\
  (forall now req db,
     noProgress req -> immediate req = true ->
     snd (handler now req db) = db /\
     (fst (handler now req db) = Saved None \/
      fst (handler now req db) = BadRequest)).
Proof.
  split.
  - intros now il d nowData w Hn.
    apply immediate_empty_client, noProgress_client, Hn.
  - intros now req db Hn Hi.
    rewrite (handler_immediate_empty now req db (noProgress_server req Hn) Hi).
    destruct (missingFields req); simpl; auto.
Qed.

Lemma immediate_without_progress_is_noop_witness :
  syncProgressLogic t20 true false (Some (untouched pid20)) (Some (untouched pid20))
    (readyWorld emptyDb ∅) = readyWorld emptyDb ∅ /\
  snd (handler t20 (withImmediate (untouched pid20) true) emptyDb) = emptyDb.
Proof.
  split.
  - apply (proj1 immediate_without_progress_is_noop).
    vm_compute. split; [reflexivity|]. split; [reflexivity|]. intros [=].
  - apply (proj2 immediate_without_progress_is_noop t20
             (withImmediate (untouched pid20) true) emptyDb).
    + vm_compute. split; [reflexivity|]. split; [reflexivity|]. intros [=].
    + reflexivity.
Defined.

(** *** No row for the key and no progress *)

Lemma handler_absent_empty now req db :
  missingFields req = false -> clientHasProgress req = false ->
  immediate req = false -> rows db !! puzzle_id req = None ->
  handler now req db =
    match anyLatest db with
    | Some r => (Loaded r, db)
    | None => (Saved (Some (next_id db)), snd (upsert now req db))
    end.
Proof.
  intros Hm Hp Hi Hrow. unfold handler. rewrite Hm, Hp, Hi, Hrow.
  rewrite bool_decide_eq_false_2 by (intros [x Hx]; discriminate).
  simpl. destruct (anyLatest db); [reflexivity|].
  unfold upsert. rewrite Hrow. reflexivity.
Qed.

Lemma syncProgressLogic_sent now isImmediate isInitialLoad d nowData w :
  ready w -> realKey (puzzle_id d) ->
  isImmediate && negb (User.hasProgress d) = false ->
  syncProgressLogic now isImmediate isInitialLoad (Some d) nowData w =
    receive isInitialLoad (puzzle_id d) nowData
      (fst (handler now (withImmediate d isImmediate) (server w)))
      (setServer w (snd (handler now (withImmediate d isImmediate) (server w)))
         (withImmediate d isImmediate)).
Proof.
  intros (Ha & Hb & Hl) (Hk1 & Hk2) Hs. unfold syncProgressLogic.
  rewrite Ha, Hb, Hl, Hs. simpl.
  assert (truthy (puzzle_id d) = true) as ->.
  { unfold truthy. destruct (String.eqb_spec (puzzle_id d) ""); [contradiction|reflexivity]. }
  destruct (String.eqb_spec (puzzle_id d) "unknown"); [contradiction|]. simpl.
  destruct (handler now (withImmediate d isImmediate) (server w)); reflexivity.
Qed.

Lemma receive_posted il cur nowData res w :
  posted (receive il cur nowData res w) = posted w /\
  server (receive il cur nowData res w) = server w /\
  localStore (receive il cur nowData res w) = localStore w.
Proof.
  unfold receive. destruct res as [|r|o]; try (repeat split; reflexivity).
  destruct (il || String.eqb (r_puzzle_id r) _); repeat split; reflexivity.
Qed.

(** The row that the fold keeps is one of the rows met, and none of
    them was written later. *)
Lemma fold_newerRow_latest (l : list Row) : forall (acc : option Row) (r : Row),
  fold_left newerRow l acc = Some r ->
  (acc = Some r \/ r ∈ l) /\
  (forall a, acc = Some a -> r_updated_at a <= r_updated_at r) /\
  (forall x, x ∈ l -> r_updated_at x <= r_updated_at r).
Proof.
  induction l as [|x l IH]; intros acc r H; cbn in H.
  - split; [left; exact H|]. split.
    + intros a Ha. rewrite Ha in H. injection H as ->. lia.
    + intros y Hy. inversion Hy.
  - destruct (IH _ _ H) as (Hin & Hacc & Hall).
    assert (Hx : r_updated_at x <= r_updated_at r /\
                 (forall a, acc = Some a -> r_updated_at a <= r_updated_at r) /\
                 (acc = Some r \/ r = x \/ r ∈ l)).
    { destruct acc as [a|]; cbn in Hacc, Hin.
      - destruct (Z.ltb_spec (r_updated_at a) (r_updated_at x)).
        + pose proof (Hacc x eq_refl). split; [lia|]. split.
          * intros a' [= <-]. lia.
          * destruct Hin as [[= ->]|Hin]; auto.
        + pose proof (Hacc a eq_refl). split; [lia|]. split.
          * intros a' [= <-]. lia.
          * destruct Hin as [[= ->]|Hin]; auto.
      - pose proof (Hacc x eq_refl). split; [lia|]. split.
        + intros a [=].
        + destruct Hin as [[= ->]|Hin]; auto. }
    destruct Hx as (Hx1 & Hx2 & Hx3). split; [|split].
    + destruct Hx3 as [Ha|[->|Hl]]; [left; exact Ha|right..].
      * apply list_elem_of_here.
      * apply list_elem_of_further, Hl.
    + exact Hx2.
    + intros y Hy. apply elem_of_cons in Hy as [->|Hy]; [exact Hx1|exact (Hall y Hy)].
Qed.

(** [anyLatest] is a row of the table with the greatest updated_at. *)
Lemma anyLatest_latest (db : Db) (r : Row) :
  anyLatest db = Some r ->
  (exists k, rows db !! k = Some r) /\
  (forall k' r', rows db !! k' = Some r' -> r_updated_at r' <= r_updated_at r).
Proof.
  unfold anyLatest. intros H.
  destruct (fold_newerRow_latest _ _ _ H) as ([Hn|Hin] & _ & Hall); [discriminate|].
  split.
  - apply list_elem_of_fmap in Hin as [[k r0] [-> Hin]].
    exists k. apply elem_of_map_to_list. exact Hin.
  - intros k' r' Hr'. apply Hall.
    apply list_elem_of_fmap. exists (k', r'). split; [reflexivity|].
    apply elem_of_map_to_list. exact Hr'.
Qed.

(** C3, as the code has it.  When the server holds no row for the key
    and the state has no progress: an immediate call does nothing (the
    client posts no request, and the server would acknowledge without
    writing); a call that is not immediate is posted.  Whenever the user
    has a row of any puzzle, the server answers that call LOADED with a
    row of the user that no other row of the user is more recent than,
    and writes nothing; when the user has no row at all, it answers
    SAVED and the table then holds for the key a new row with the empty
    payload of the request. *)
Theorem absent_and_empty (now : Z) (d : SyncRequest) (db : Db) :
  noProgress d -> missingFields d = false -> rows db !! puzzle_id d = None ->
  (forall isInitialLoad nowData w,
     syncProgressLogic now true isInitialLoad (Some d) nowData w = w) /\
  handler now (withImmediate d true) db = (Saved None, db) /\
  (forall isInitialLoad nowData w,
     ready w -> realKey (puzzle_id d) -> server w = db ->
     let w' := syncProgressLogic now false isInitialLoad (Some d) nowData w in
     posted w' = withImmediate d false :: posted w /\
     server w' = snd (handler now (withImmediate d false) db)) /\
  (forall k r0,
     rows db !! k = Some r0 ->
     exists r,
       handler now (withImmediate d false) db = (Loaded r, db) /\
       (exists k', rows db !! k' = Some r) /\
       (forall k' r', rows db !! k' = Some r' ->
          r_updated_at r' <= r_updated_at r)) /\
  (rows db = ∅ ->
   fst (handler now (withImmediate d false) db) = Saved (Some (next_id db)) /\
   exists row,
     rows (snd (handler now (withImmediate d false) db)) !! puzzle_id d = Some row /\
     r_progress_json row = progress_json d /\ r_status row = status d /\
     r_elapsed_seconds row = 0 /\ r_updated_at row = now).
Proof.
  intros Hn Hm Hrow.
  assert (Hh := handler_absent_empty now (withImmediate d false) db Hm
                  (noProgress_server d Hn) eq_refl Hrow).
  split; [|split; [|split; [|split]]].
  - intros il nowData w. apply immediate_empty_client, noProgress_client, Hn.
  - rewrite (handler_immediate_empty now (withImmediate d true) db
               (noProgress_server d Hn) eq_refl).
    rewrite missingFields_withImmediate, Hm. reflexivity.
  - intros il nowData w Hr Hk <-. simpl.
    rewrite (syncProgressLogic_sent now false il d nowData w Hr Hk eq_refl).
    destruct (receive_posted il (puzzle_id d) nowData
                (fst (handler now (withImmediate d false) (server w)))
                (setServer w (snd (handler now (withImmediate d false) (server w)))
                   (withImmediate d false))) as (-> & -> & _).
    split; reflexivity.
  - intros k r0 Hk. rewrite Hh.
    destruct (anyLatest db) as [r|] eqn:Ea.
    + exists r. split; [reflexivity|]. exact (anyLatest_latest db r Ea).
    + apply anyLatest_None in Ea. rewrite Ea, lookup_empty in Hk. discriminate.
  - intros Hempty. rewrite Hh.
    rewrite (proj2 (anyLatest_None db) Hempty). split; [reflexivity|].
    destruct (upsert_lookup now (withImmediate d false) db) as (row & Hl & Hj & Hs & He & Hu).
    exists row. split; [exact Hl|]. split; [exact Hj|]. split; [exact Hs|].
    split; [|exact Hu].
    rewrite He. cbn [withImmediate elapsed_seconds].
    destruct Hn as (_ & -> & _). reflexivity.
Qed.

(** An untouched puzzle, synced after the quiet period by a user whose
    only row is the one of the day before: the answer is that row. *)
Lemma absent_and_empty_witness :
  exists r,
    handler t20 (withImmediate (untouched pid20) false)
      (dbWith (remoteRow 7 pid19 "started" oneLetter 30 (t20 - 1000)))
    = (Loaded r, dbWith (remoteRow 7 pid19 "started" oneLetter 30 (t20 - 1000))) /\
    (exists k',
       rows (dbWith (remoteRow 7 pid19 "started" oneLetter 30 (t20 - 1000))) !! k'
       = Some r) /\
    (forall k' r',
       rows (dbWith (remoteRow 7 pid19 "started" oneLetter 30 (t20 - 1000))) !! k'
       = Some r' ->
       r_updated_at r' <= r_updated_at r).
Proof.
  assert (Hn : noProgress (untouched pid20)).
  { vm_compute. split; [reflexivity|]. split; [reflexivity|]. intros [=]. }
  apply (proj1 (proj2 (proj2 (proj2
           (absent_and_empty t20 (untouched pid20)
              (dbWith (remoteRow 7 pid19 "started" oneLetter 30 (t20 - 1000)))
              Hn eq_refl eq_refl))))
           pid19 (remoteRow 7 pid19 "started" oneLetter 30 (t20 - 1000))).
  reflexivity.
Defined.

(** The claim as the specification words it fails on the path that is
    not immediate: a signed-in client whose user has no row at all syncs
    an untouched puzzle after the quiet period, and the server creates a
    row for it. *)
Lemma debounced_empty_sync_creates_row :
  rows (server (readyWorld emptyDb ∅)) !! pid20 = None /\
  User.hasProgress (untouched pid20) = false /\
  posted (syncProgressLogic t20 false false (Some (untouched pid20))
            (Some (untouched pid20)) (readyWorld emptyDb ∅))
    = [untouched pid20] /\
  rows (server (syncProgressLogic t20 false false (Some (untouched pid20))
                  (Some (untouched pid20)) (readyWorld emptyDb ∅))) !! pid20
    = Some (remoteRow 1 pid20 "not-started" ∅ 0 t20).
Proof. vm_compute. repeat split; reflexivity. Qed.

(** *** A LOADED answer for another puzzle *)

(** C8, as the code has it.  When the answer is LOADED for a puzzle
    other than the one on screen: if the call is not the initial load the
    answer is ignored, nothing is written to the local store and nothing
    is handed to applyLoadedGameState; if it is the initial load the
    loaded progress is handed to applyLoadedGameState. *)
Theorem loaded_for_other_puzzle (now : Z) (isImmediate isInitialLoad : bool)
    (d : SyncRequest) (nowData : option SyncRequest) (w : World)
    (r : Row) (db : Db) :
  ready w -> realKey (puzzle_id d) ->
  isImmediate && negb (User.hasProgress d) = false ->
  handler now (withImmediate d isImmediate) (server w) = (Loaded r, db) ->
  r_puzzle_id r <> nowPuzzleId d nowData ->
  let w' := syncProgressLogic now isImmediate isInitialLoad (Some d) nowData w in
  (isInitialLoad = false ->
     localStore w' = localStore w /\ applied w' = applied w) /\
  (isInitialLoad = true -> applied w' = ApplyLoaded r :: applied w).
Proof.
  intros Hr Hk Hs Hh Hne w'. subst w'.
  rewrite (syncProgressLogic_sent now isImmediate isInitialLoad d nowData w Hr Hk Hs).
  rewrite Hh. cbn [fst snd]. unfold receive.
  fold (nowPuzzleId d nowData).
  destruct (String.eqb_spec (r_puzzle_id r) (nowPuzzleId d nowData)); [contradiction|].
  rewrite orb_false_r.
  destruct isInitialLoad; simpl; split; intros [=]; try split; reflexivity.
Qed.

Lemma loaded_for_other_puzzle_witness :
  (localStore (syncProgressLogic t20 false false (Some (untouched pid20))
                 (Some (untouched pid20))
                 (readyWorld (dbWith (remoteRow 7 pid19 "started" oneLetter 30
                                        (t20 - 1000))) ∅)) = ∅ /\
   applied (syncProgressLogic t20 false false (Some (untouched pid20))
              (Some (untouched pid20))
              (readyWorld (dbWith (remoteRow 7 pid19 "started" oneLetter 30
                                     (t20 - 1000))) ∅)) = []) /\
  applied (syncProgressLogic t20 false true (Some (untouched pid20))
             (Some (untouched pid20))
             (readyWorld (dbWith (remoteRow 7 pid19 "started" oneLetter 30
                                    (t20 - 1000))) ∅))
    = [ApplyLoaded (remoteRow 7 pid19 "started" oneLetter 30 (t20 - 1000))].
Proof.
  assert (Hr : forall db, ready (readyWorld db ∅)).
  { intros db. repeat split. }
  assert (Hk : realKey (puzzle_id (untouched pid20))).
  { split; intros [=]. }
  assert (Hne : r_puzzle_id (remoteRow 7 pid19 "started" oneLetter 30 (t20 - 1000))
                <> nowPuzzleId (untouched pid20) (Some (untouched pid20))).
  { intros [=]. }
  split.
  - apply (proj1 (loaded_for_other_puzzle t20 false false (untouched pid20)
                    (Some (untouched pid20))
                    (readyWorld (dbWith (remoteRow 7 pid19 "started" oneLetter 30
                                           (t20 - 1000))) ∅)
                    (remoteRow 7 pid19 "started" oneLetter 30 (t20 - 1000))
                    (dbWith (remoteRow 7 pid19 "started" oneLetter 30 (t20 - 1000)))
                    (Hr _) Hk eq_refl eq_refl Hne)).
    reflexivity.
  - apply (proj2 (loaded_for_other_puzzle t20 false true (untouched pid20)
                    (Some (untouched pid20))
                    (readyWorld (dbWith (remoteRow 7 pid19 "started" oneLetter 30
                                           (t20 - 1000))) ∅)
                    (remoteRow 7 pid19 "started" oneLetter 30 (t20 - 1000))
                    (dbWith (remoteRow 7 pid19 "started" oneLetter 30 (t20 - 1000)))
                    (Hr _) Hk eq_refl eq_refl Hne)).
    reflexivity.
Defined.

(** The claim as the specification words it fails: the answer is LOADED
    with the row of another puzzle, the call is not the initial load, and
    the loaded progress is not in the local store afterwards (nor was
    anything handed to the host). *)
Lemma ignored_load_is_not_stored :
  fst (handler t20 (withImmediate (untouched pid20) false)
         (dbWith (remoteRow 7 pid19 "started" oneLetter 30 (t20 - 1000))))
    = Loaded (remoteRow 7 pid19 "started" oneLetter 30 (t20 - 1000)) /\
  localStore (syncProgressLogic t20 false false (Some (untouched pid20))
                (Some (untouched pid20))
                (readyWorld (dbWith (remoteRow 7 pid19 "started" oneLetter 30
                                       (t20 - 1000))) ∅)) !! pid19 = None /\
  applied (syncProgressLogic t20 false false (Some (untouched pid20))
             (Some (untouched pid20))
             (readyWorld (dbWith (remoteRow 7 pid19 "started" oneLetter 30
                                    (t20 - 1000))) ∅)) = [].
Proof. vm_compute. repeat split; reflexivity. Qed.

End SyncFacts.

(** ** Facts about the bulk pass *)

Module BulkFacts.
Import Js Progress SyncApi User SyncSpec Samples.

Lemma truthy_ne (k : string) : k <> "" -> truthy k = true.
Proof.
  intros H. unfold truthy. destruct (String.eqb_spec k ""); [contradiction|reflexivity].
Qed.

(** *** One turn of the loop *)

(** A key with a readable remote row is downloaded, whatever the local
    store holds for it. *)
Lemma bulkSyncKey_download now remotePuzzles puzzleId w remoteData entries :
  remotePuzzles !! puzzleId = Some remoteData ->
  remoteEntries remoteData = Some entries ->
  puzzleId <> "" ->
  bulkSyncKey now remotePuzzles puzzleId w =
    (Downloaded,
     setLocal w (<[puzzleId := downloaded puzzleId remoteData entries]> (localStore w))).
Proof.
  intros Hr He Hk. unfold bulkSyncKey, updateLocalPuzzleData. rewrite Hr, He.
  unfold window_savePuzzleProgressRecord, App.savePuzzleProgressRecord.
  cbn [id]. rewrite (truthy_ne _ Hk). reflexivity.
Qed.

(** The server is only written for the key of the request. *)
Lemma handler_other now req db k :
  k <> puzzle_id req ->
  rows (snd (handler now req db)) !! k = rows db !! k.
Proof.
  intros Hk. unfold handler.
  destruct (missingFields req); [reflexivity|].
  destruct (if _ : bool then anyLatest db else None); [reflexivity|].
  destruct (immediate req && negb (clientHasProgress req)); [reflexivity|].
  assert (Hu : rows (snd (upsert now req db)) !! k = rows db !! k).
  { unfold upsert. simpl. apply lookup_insert_ne. congruence. }
  destruct (rows db !! puzzle_id req) as [l|] eqn:E.
  - destruct (clientIsNewer req (Some l)); [|reflexivity].
    destruct (upsert now req db) as [rid db'] eqn:Eu. simpl in *. exact Hu.
  - destruct (upsert now req db) as [rid db'] eqn:Eu. simpl in *. exact Hu.
Qed.

(** A turn leaves the local records of the other keys alone ... *)
Lemma bulkSyncKey_local_other now remotePuzzles k w k' :
  k <> k' ->
  localStore (snd (bulkSyncKey now remotePuzzles k w)) !! k' = localStore w !! k'.
Proof.
  intros Hne. unfold bulkSyncKey, updateLocalPuzzleData.
  destruct (remotePuzzles !! k) as [r|].
  - destruct (remoteEntries r) as [e|]; [|reflexivity]. simpl.
    unfold window_savePuzzleProgressRecord, App.savePuzzleProgressRecord. cbn [id].
    destruct (truthy k); [|reflexivity]. apply lookup_insert_ne. exact Hne.
  - destruct (localHasProgress _); [|reflexivity].
    destruct (getLocalPuzzleData k (localStore w)) as [l|]; [|reflexivity].
    destruct (handler now (uploadBody now k l) (server w)) as [[| |] db]; reflexivity.
Qed.

(** ... and the rows of the other keys, and writes no row at all for a
    key that has one in the answer of the bulk endpoint. *)
Lemma bulkSyncKey_server now remotePuzzles k w k' :
  k <> k' \/ is_Some (remotePuzzles !! k) ->
  rows (server (snd (bulkSyncKey now remotePuzzles k w))) !! k' = rows (server w) !! k'.
Proof.
  intros Hc. unfold bulkSyncKey.
  destruct (remotePuzzles !! k) as [r|] eqn:Er.
  - destruct (remoteEntries r) as [e|]; [|reflexivity].
    destruct (updateLocalPuzzleData k r (localStore w)); reflexivity.
  - destruct Hc as [Hne|[x Hx]]; [|discriminate].
    destruct (localHasProgress _); [|reflexivity].
    destruct (getLocalPuzzleData k (localStore w)) as [l|]; [|reflexivity].
    pose proof (handler_other now (uploadBody now k l) (server w) k') as Hh.
    destruct (handler now (uploadBody now k l) (server w)) as [[| |] db];
      simpl in *; apply Hh; congruence.
Qed.

(** *** The whole pass *)

Section Pass.
Variables (now : Z) (remotePuzzles : gmap string Row) (currentPuzzleId : string).
Variables (puzzleId : string) (remoteData : Row) (entries : gmap string string).
Hypothesis Hremote : remotePuzzles !! puzzleId = Some remoteData.
Hypothesis Hentries : remoteEntries remoteData = Some entries.
Hypothesis Hkey : puzzleId <> "".

Lemma bulkTurn_world p k :
  world (bulkTurn now remotePuzzles currentPuzzleId p k)
  = snd (bulkSyncKey now remotePuzzles k (world p)).
Proof.
  unfold bulkTurn. destruct (bulkSyncKey now remotePuzzles k (world p)); reflexivity.
Qed.

Lemma bulkTurn_keeps p k :
  localStore (world p) !! puzzleId = Some (downloaded puzzleId remoteData entries) ->
  localStore (world (bulkTurn now remotePuzzles currentPuzzleId p k)) !! puzzleId
  = Some (downloaded puzzleId remoteData entries).
Proof.
  intros H. rewrite bulkTurn_world.
  destruct (decide (k = puzzleId)) as [->|Hne].
  - rewrite (bulkSyncKey_download _ _ _ _ _ _ Hremote Hentries Hkey). simpl.
    apply lookup_insert_eq.
  - rewrite bulkSyncKey_local_other by exact Hne. exact H.
Qed.

Lemma pass_keeps ids p :
  localStore (world p) !! puzzleId = Some (downloaded puzzleId remoteData entries) ->
  localStore (world (fold_left (bulkTurn now remotePuzzles currentPuzzleId) ids p))
    !! puzzleId = Some (downloaded puzzleId remoteData entries).
Proof.
  revert p. induction ids as [|k ids IH]; intros p H; simpl.
  - exact H.
  - apply IH, bulkTurn_keeps, H.
Qed.

Lemma pass_downloads ids p :
  puzzleId ∈ ids ->
  localStore (world (fold_left (bulkTurn now remotePuzzles currentPuzzleId) ids p))
    !! puzzleId = Some (downloaded puzzleId remoteData entries).
Proof.
  revert p. induction ids as [|k ids IH]; intros p Hin.
  - inversion Hin.
  - simpl. apply elem_of_cons in Hin as [<-|Hin].
    + apply pass_keeps. rewrite bulkTurn_world.
      rewrite (bulkSyncKey_download _ _ _ _ _ _ Hremote Hentries Hkey). simpl.
      apply lookup_insert_eq.
    + apply IH, Hin.
Qed.

Lemma pass_server ids p :
  rows (server (world (fold_left (bulkTurn now remotePuzzles currentPuzzleId) ids p)))
    !! puzzleId = rows (server (world p)) !! puzzleId.
Proof.
  revert p. induction ids as [|k ids IH]; intros p; simpl.
  - reflexivity.
  - rewrite IH, bulkTurn_world. apply bulkSyncKey_server.
    destruct (decide (k = puzzleId)) as [->|Hne]; [right; eauto|left; exact Hne].
Qed.

(** Once the puzzle on screen was downloaded the loop remembers it. *)
Lemma bulkTurn_flag p k :
  currentPuzzleDownloaded p = true \/ (k = puzzleId /\ currentPuzzleId = puzzleId) ->
  currentPuzzleDownloaded (bulkTurn now remotePuzzles currentPuzzleId p k) = true.
Proof.
  intros [H|[-> ->]]; unfold bulkTurn.
  - destruct (bulkSyncKey now remotePuzzles k (world p)) as [[| | |] w1];
      cbn [currentPuzzleDownloaded]; rewrite ?H, ?orb_true_r; reflexivity.
  - rewrite (bulkSyncKey_download _ _ _ _ _ _ Hremote Hentries Hkey).
    cbn [currentPuzzleDownloaded]. rewrite String.eqb_refl. reflexivity.
Qed.

Lemma pass_flag ids p :
  currentPuzzleId = puzzleId ->
  currentPuzzleDownloaded p = true \/ puzzleId ∈ ids ->
  currentPuzzleDownloaded
    (fold_left (bulkTurn now remotePuzzles currentPuzzleId) ids p) = true.
Proof.
  intros Hc. revert p. induction ids as [|k ids IH]; intros p H; cbn [fold_left].
  - destruct H as [H|H]; [exact H|inversion H].
  - apply IH. destruct H as [H|H].
    + left. apply bulkTurn_flag. left. exact H.
    + apply elem_of_cons in H as [<-|H]; [|right; exact H].
      left. apply bulkTurn_flag. right. split; [reflexivity|exact Hc].
Qed.

End Pass.

(** The loop itself hands nothing to the host. *)
Lemma bulkSyncKey_applied now remotePuzzles k w :
  applied (snd (bulkSyncKey now remotePuzzles k w)) = applied w.
Proof.
  unfold bulkSyncKey.
  destruct (remotePuzzles !! k) as [r|].
  - destruct (remoteEntries r); [|reflexivity].
    destruct (updateLocalPuzzleData k r (localStore w)); reflexivity.
  - destruct (localHasProgress (getLocalPuzzleData k (localStore w))); [|reflexivity].
    destruct (getLocalPuzzleData k (localStore w)) as [l|]; [|reflexivity].
    destruct (handler now (uploadBody now k l) (server w)) as [[| |] db]; reflexivity.
Qed.

Lemma pass_applied now remotePuzzles currentPuzzleId ids p :
  applied (world (fold_left (bulkTurn now remotePuzzles currentPuzzleId) ids p))
  = applied (world p).
Proof.
  revert p. induction ids as [|k ids IH]; intros p; cbn [fold_left]; [reflexivity|].
  rewrite IH, bulkTurn_world. apply bulkSyncKey_applied.
Qed.

(** What the code reads from a readable payload is what the payload
    carries. *)
Lemma remoteEntries_readable (remoteData : Row) :
  readable (r_progress_json remoteData) ->
  remoteEntries remoteData = Some (payloadEntries (r_progress_json remoteData)).
Proof.
  unfold remoteEntries, readable, payloadEntries.
  destruct (r_progress_json remoteData) as [| |[[|[e|]]|]|[e|]];
    intros H; try contradiction; reflexivity.
Qed.

Lemma bulkHandler_lookup ids db k r :
  k ∈ ids -> rows db !! k = Some r ->
  exists remotePuzzles,
    bulkHandler ids db = Some remotePuzzles /\ remotePuzzles !! k = Some r.
Proof.
  intros Hin Hr. unfold bulkHandler. destruct ids as [|i ids]; [inversion Hin|].
  eexists. split; [reflexivity|].
  apply map_lookup_filter_Some. split; [exact Hr|exact Hin].
Qed.

(** C1.  In a bulk pass, a key of the week for which the server holds a
    row whose progress_json reads as an object is downloaded.  Whatever
    the local store held for it, and so whichever of the two timestamps
    is the newer, the turn of the loop for that key is a download that
    writes a record with the entries that the progress_json of the row
    carries, the elapsed seconds, the status (not-started for an empty
    one) and the updated_at of the row.  When the pass hands nothing to
    the host, that record is in the local store at the end of the pass;
    when the key is the puzzle on screen, the pass hands that record to
    applyLoadedGameState; and the row of the server is as it was. *)
Theorem bulk_remote_wins (now : Z) (puzzleIds : list string)
    (currentPuzzleId : string) (w : World) (puzzleId : string)
    (remoteData : Row) :
  authenticated w = true -> isBulkSyncing w = false ->
  puzzleId ∈ puzzleIds -> puzzleId <> "" ->
  rows (server w) !! puzzleId = Some remoteData ->
  readable (r_progress_json remoteData) ->
  let loaded :=
    {| id := puzzleId;
       Progress.status := or_else (r_status remoteData) "not-started";
       Progress.entries := payloadEntries (r_progress_json remoteData);
       elapsedSeconds := r_elapsed_seconds remoteData;
       updatedAt := r_updated_at remoteData |} in
  let w' := bulkSyncAllPuzzles now puzzleIds currentPuzzleId w in
  (exists remotePuzzles,
     bulkHandler puzzleIds (server w) = Some remotePuzzles /\
     forall w0 : World,
       bulkSyncKey now remotePuzzles puzzleId w0 =
         (Downloaded, setLocal w0 (<[puzzleId := loaded]> (localStore w0)))) /\
  (applied w' = applied w -> localStore w' !! puzzleId = Some loaded) /\
  (currentPuzzleId = puzzleId ->
     applied w' = ApplyReloaded puzzleId loaded :: applied w) /\
  rows (server w') !! puzzleId = Some remoteData.
Proof.
  intros Ha Hb Hin Hk Hrow Hread loaded w'.
  pose proof (remoteEntries_readable remoteData Hread) as He.
  destruct (bulkHandler_lookup puzzleIds (server w) puzzleId remoteData Hin Hrow)
    as (remotePuzzles & Hbulk & Hr).
  split.
  - exists remotePuzzles. split; [exact Hbulk|]. intros w0.
    apply (bulkSyncKey_download now remotePuzzles puzzleId w0 remoteData _ Hr He Hk).
  - subst w'. unfold bulkSyncAllPuzzles. rewrite Ha, Hb, Hbulk. cbn [negb].
    set (p0 := {| world := _; downloadedCount := _; uploadedCount := _;
                  currentPuzzleDownloaded := _ |}).
    set (p := fold_left _ _ _).
    assert (Hl : localStore (world p) !! puzzleId = Some loaded).
    { apply (pass_downloads now remotePuzzles currentPuzzleId puzzleId remoteData
               _ Hr He Hk puzzleIds p0 Hin). }
    assert (Hs : rows (server (world p)) !! puzzleId = Some remoteData).
    { unfold p. rewrite (pass_server now remotePuzzles currentPuzzleId puzzleId
                           remoteData Hr). exact Hrow. }
    assert (Hap : applied (world p) = applied w)
      by apply (pass_applied now remotePuzzles currentPuzzleId puzzleIds p0).
    split; [|split].
    + destruct (currentPuzzleDownloaded p && truthy currentPuzzleId);
        [destruct (getLocalPuzzleData currentPuzzleId (localStore (world p)))|];
        cbn [setGuards apply applied localStore]; intros _; exact Hl.
    + intros Hc.
      assert (Hf : currentPuzzleDownloaded p = true).
      { unfold p. apply (pass_flag now remotePuzzles currentPuzzleId puzzleId
                           remoteData _ Hr He Hk puzzleIds p0 Hc (or_intror Hin)). }
      rewrite Hf, Hc, (truthy_ne _ Hk). cbn [andb].
      unfold getLocalPuzzleData, window_getPuzzleProgressRecord,
        App.getPuzzleProgressRecord.
      rewrite (truthy_ne _ Hk), Hl. cbn [setGuards apply applied].
      rewrite Hap. reflexivity.
    + destruct (currentPuzzleDownloaded p && truthy currentPuzzleId);
        [destruct (getLocalPuzzleData currentPuzzleId (localStore (world p)))|];
        cbn [setGuards apply server]; exact Hs.
Qed.

(** The local copy is the newer one and holds no letter; the row of the
    server holds one letter: the local copy is overwritten with it. *)
Lemma bulk_remote_wins_witness :
  localStore
    (bulkSyncAllPuzzles (t20 + 60000) [pid19; pid20] pid19
       (freshWorld (dbWith (remoteRow 7 pid20 "started" oneLetter 10 t20))
          {[ pid20 := localRecord pid20 "started" ∅ 30 (t20 + 9000) ]}))
    !! pid20
  = Some (localRecord pid20 "started" oneLetter 10 t20).
Proof.
  apply (proj1 (proj2
           (bulk_remote_wins (t20 + 60000) [pid19; pid20] pid19
              (freshWorld (dbWith (remoteRow 7 pid20 "started" oneLetter 10 t20))
                 {[ pid20 := localRecord pid20 "started" ∅ 30 (t20 + 9000) ]})
              pid20 (remoteRow 7 pid20 "started" oneLetter 10 t20)
              eq_refl eq_refl
              (list_elem_of_further _ _ _ (list_elem_of_here _ _))
              ltac:(discriminate) eq_refl I))).
  reflexivity.
Defined.

(** Where the server has no row the pass uploads what has progress and
    leaves the rest alone. *)
Lemma bulkSyncKey_absent now remotePuzzles puzzleId w :
  remotePuzzles !! puzzleId = None ->
  localHasProgress (getLocalPuzzleData puzzleId (localStore w)) = false ->
  bulkSyncKey now remotePuzzles puzzleId w = (Untouched, w).
Proof.
  intros Hr Hp. unfold bulkSyncKey. rewrite Hr, Hp. reflexivity.
Qed.

(** A row that cannot be read is skipped: the turn fails and nothing is
    written. *)
Lemma bulkSyncKey_unreadable now remotePuzzles puzzleId w remoteData :
  remotePuzzles !! puzzleId = Some remoteData ->
  remoteEntries remoteData = None ->
  bulkSyncKey now remotePuzzles puzzleId w = (Failed, w).
Proof.
  intros Hr He. unfold bulkSyncKey. rewrite Hr, He. reflexivity.
Qed.

End BulkFacts.

(** ** Facts about the local progress store *)

Module AppFacts.
Import Js Progress App SyncSpec Samples.

Lemma eqb_not_started (s : string) :
  String.eqb s "not-started" = false -> s <> "not-started".
Proof. intros H. destruct (String.eqb_spec s "not-started"); congruence. Qed.

Lemma notStartedFree_delete k store :
  notStartedFree store -> notStartedFree (deletePuzzleProgressRecord k store).
Proof.
  intros H k' r. unfold deletePuzzleProgressRecord.
  destruct (truthy k); [|apply H].
  intros Hl. apply lookup_delete_Some in Hl as [_ Hl]. exact (H k' r Hl).
Qed.

Lemma notStartedFree_save record store :
  Progress.status record <> "not-started" ->
  notStartedFree store -> notStartedFree (savePuzzleProgressRecord record store).
Proof.
  intros Hs H k r. unfold savePuzzleProgressRecord.
  destruct (truthy (id record)); [|apply H].
  intros Hl. apply lookup_insert_Some in Hl as [[_ <-]|[_ Hl]].
  - intros (_ & _ & Hst). contradiction.
  - exact (H k r Hl).
Qed.

(** persistActivePuzzle writes no record whose status is not-started: a
    record with that status that is in the store afterwards was there
    before, unchanged. *)
Lemma persist_writes_no_not_started now statusOverride targetKey st k r :
  progressStore (persistActivePuzzle now statusOverride targetKey st) !! k = Some r ->
  Progress.status r = "not-started" ->
  progressStore st !! k = Some r.
Proof.
  unfold persistActivePuzzle.
  destruct (activeEntries st) as [e|]; [|auto].
  destruct (negb (truthy (or_else targetKey (activeStorageKey st)))) eqn:Ek; [auto|].
  destruct (String.eqb (resolveStatus _ _ _) "not-started") eqn:Es; simpl.
  - unfold deletePuzzleProgressRecord. destruct (truthy _); [|auto].
    intros Hl _. apply lookup_delete_Some in Hl as [_ Hl]. exact Hl.
  - unfold savePuzzleProgressRecord. cbn [id]. destruct (truthy _); [|auto].
    intros Hl Hst. apply lookup_insert_Some in Hl as [[_ <-]|[_ Hl]]; [|exact Hl].
    simpl in Hst. apply eqb_not_started in Es. contradiction.
Qed.

Lemma persist_keeps_clean now statusOverride targetKey st :
  notStartedFree (progressStore st) ->
  notStartedFree (progressStore (persistActivePuzzle now statusOverride targetKey st)).
Proof.
  intros H k r Hl (He & Ht & Hs).
  apply (H k r); [|repeat split; assumption].
  exact (persist_writes_no_not_started _ _ _ _ _ _ Hl Hs).
Qed.

Lemma pauseActiveTimer_store now st :
  progressStore (pauseActiveTimer now st) = progressStore st.
Proof.
  unfold pauseActiveTimer.
  destruct (timerRunning st || negb (timerStartTimestamp st =? 0)); reflexivity.
Qed.

Lemma switch_keeps_clean now key force reset previousStorageKey storageKey
    hasDefinition st :
  notStartedFree (progressStore st) ->
  notStartedFree
    (progressStore (performSetActivePuzzle now key force reset previousStorageKey
                      storageKey hasDefinition st)).
Proof.
  intros H. unfold performSetActivePuzzle.
  destruct (negb force && String.eqb key (activeKey st)); [exact H|].
  set (st1 := pauseActiveTimer now st).
  assert (H1 : notStartedFree (progressStore st1)).
  { unfold st1. rewrite pauseActiveTimer_store. exact H. }
  set (st2 := if _ : bool then persistActivePuzzle _ _ _ st1 else st1).
  assert (H2 : notStartedFree (progressStore st2)).
  { unfold st2. destruct (_ && _); [apply persist_keeps_clean|]; exact H1. }
  destruct (negb hasDefinition); [exact H2|].
  destruct reset.
  - simpl. apply notStartedFree_delete. exact H2.
  - unfold restoreActivePuzzleProgress.
    destruct (getPuzzleProgressRecord storageKey _); exact H2.
Qed.

(** C9, as the code has it.  The persist step never writes a record
    whose resolved status is not-started: it deletes the record of the
    key instead; so persistActivePuzzle and the puzzle switch, reset
    included, keep a store free of records of untouched puzzles (no
    entries, zero elapsed seconds, status not-started). *)
Theorem persist_keeps_store_clean :
  (forall now statusOverride targetKey st entries,
     activeEntries st = Some entries ->
     or_else targetKey (activeStorageKey st) <> "" ->
     resolveStatus statusOverride
       (hasKeys entries || (0 <? getCurrentElapsedSeconds now st)) st
       = "not-started" ->
     progressStore (persistActivePuzzle now statusOverride targetKey st)
     = delete (or_else targetKey (activeStorageKey st)) (progressStore st)) /\
  (forall now statusOverride targetKey st k r,
     progressStore (persistActivePuzzle now statusOverride targetKey st) !! k = Some r ->
     Progress.status r = "not-started" ->
     progressStore st !! k = Some r) /\
  (forall now statusOverride targetKey st,
     notStartedFree (progressStore st) ->
     notStartedFree
       (progressStore (persistActivePuzzle now statusOverride targetKey st))) /\
  (forall now key force reset previousStorageKey storageKey hasDefinition st,
     notStartedFree (progressStore st) ->
     notStartedFree
       (progressStore (performSetActivePuzzle now key force reset
                         previousStorageKey storageKey hasDefinition st))).
Proof.
  split; [|split; [|split]].
  - intros now statusOverride targetKey st entries He Hk Hs.
    unfold persistActivePuzzle. rewrite He.
    assert (truthy (or_else targetKey (activeStorageKey st)) = true) as Ht.
    { unfold truthy. destruct (String.eqb_spec (or_else targetKey (activeStorageKey st)) "");
        [contradiction|reflexivity]. }
    rewrite Ht. cbn [negb]. rewrite Hs. simpl.
    unfold deletePuzzleProgressRecord. rewrite Ht. reflexivity.
  - apply persist_writes_no_not_started.
  - apply persist_keeps_clean.
  - apply switch_keeps_clean.
Qed.

Lemma persist_keeps_store_clean_witness :
  progressStore
    (persistActivePuzzle t20 "paused" ""
       (appState ∅ 0 {[ pid20 := localRecord pid20 "paused" oneLetter 30 (t20 - 1000) ]}))
  = delete pid20 {[ pid20 := localRecord pid20 "paused" oneLetter 30 (t20 - 1000) ]} /\
  notStartedFree
    (progressStore
       (persistActivePuzzle t20 "" ""
          (appState oneLetter 30
             {[ pid19 := localRecord pid19 "complete" oneLetter 200 (t20 - 1000) ]}))) /\
  notStartedFree
    (progressStore
       (performSetActivePuzzle t20 "6x7" false true pid20 "2025-11-20-6x7" true
          (appState oneLetter 30
             {[ pid19 := localRecord pid19 "complete" oneLetter 200 (t20 - 1000) ]}))).
Proof.
  assert (Hc : notStartedFree
                 {[ pid19 := localRecord pid19 "complete" oneLetter 200 (t20 - 1000) ]}).
  { intros k r Hl (_ & _ & Hs).
    apply lookup_singleton_Some in Hl as [_ <-]. discriminate Hs. }
  split; [|split].
  - assert (Hk : or_else "" (activeStorageKey
                   (appState ∅ 0
                      {[ pid20 := localRecord pid20 "paused" oneLetter 30 (t20 - 1000) ]}))
                 <> "") by (vm_compute; intros [=]).
    exact (proj1 persist_keeps_store_clean t20 "paused" ""
             (appState ∅ 0
                {[ pid20 := localRecord pid20 "paused" oneLetter 30 (t20 - 1000) ]})
             ∅ eq_refl Hk eq_refl).
  - apply (proj1 (proj2 (proj2 persist_keeps_store_clean))). exact Hc.
  - apply (proj2 (proj2 (proj2 persist_keeps_store_clean))). exact Hc.
Defined.

(** The claim as the specification words it fails for the store as a
    whole: the server holds the row of an untouched puzzle, a bulk pass
    downloads it, and the local store then holds a record with no
    entries, zero elapsed seconds and status not-started. *)
Lemma bulk_download_stores_untouched :
  User.localStore
    (User.bulkSyncAllPuzzles (t20 + 60000) [pid20] pid19
       (freshWorld (dbWith (remoteRow 1 pid20 "not-started" ∅ 0 t20)) ∅)) !! pid20
  = Some (localRecord pid20 "not-started" ∅ 0 t20) /\
  emptyNotStarted (localRecord pid20 "not-started" ∅ 0 t20) /\
  ~ notStartedFree
      (User.localStore
         (User.bulkSyncAllPuzzles (t20 + 60000) [pid20] pid19
            (freshWorld (dbWith (remoteRow 1 pid20 "not-started" ∅ 0 t20)) ∅))).
Proof.
  assert (Hl : User.localStore
    (User.bulkSyncAllPuzzles (t20 + 60000) [pid20] pid19
       (freshWorld (dbWith (remoteRow 1 pid20 "not-started" ∅ 0 t20)) ∅)) !! pid20
    = Some (localRecord pid20 "not-started" ∅ 0 t20)) by (vm_compute; reflexivity).
  assert (He : emptyNotStarted (localRecord pid20 "not-started" ∅ 0 t20))
    by (repeat split).
  split; [exact Hl|]. split; [exact He|].
  intros H. exact (H _ _ Hl He).
Qed.

(** Such a row is what a sync of an untouched puzzle leaves on a server
    that had none: the round trip through the server brings the record
    of an untouched puzzle into the local store. *)
Example untouched_round_trip :
  User.localStore
    (User.bulkSyncAllPuzzles (t20 + 60000) [pid20] pid19
       (User.syncProgressLogic t20 false false (Some (untouched pid20))
          (Some (untouched pid20)) (readyWorld emptyDb ∅))) !! pid20
  = Some (localRecord pid20 "not-started" ∅ 0 t20).
Proof. vm_compute. reflexivity. Qed.

End AppFacts.

(** ** More about stats.js: invariants of the counters *)

Module StatsMore.
Import Js Stats StatsSpec StatsMoreSpec StatsFacts Samples MoreSamples.

Lemma getEmptyStats_sound g : streakSound (getEmptyStats g).
Proof. split; simpl; [lia|intros [x Hx]; discriminate]. Qed.

Lemma recordOf_sound g w : allSound w -> streakSound (recordOf g w).
Proof.
  intros H. unfold recordOf, getStatsForGrid.
  destruct (storage w !! g) as [s|] eqn:E; simpl.
  - exact (H g s E).
  - apply getEmptyStats_sound.
Qed.

Lemma updatePersonalBest_sound now e p s :
  streakSound s -> streakSound (fst (updatePersonalBest now e p s)).
Proof.
  intros [H1 H2]. unfold streakSound.
  destruct (updatePersonalBest_rest now e p s) as (_ & -> & -> & -> & _).
  split; assumption.
Qed.

Lemma raiseMax_spec today s :
  let s' := fst (raiseMax today s) in
  current_streak_days s' = current_streak_days s /\
  last_completed_date s' = last_completed_date s /\
  max_streak_days s' = N.max (max_streak_days s) (current_streak_days s) /\
  snd (raiseMax today s) = (max_streak_days s <? current_streak_days s)%N.
Proof.
  unfold raiseMax.
  destruct (N.ltb_spec (max_streak_days s) (current_streak_days s)); simpl;
    repeat split; lia.
Qed.

Lemma updateStreak_sound today s :
  streakSound s -> streakSound (fst (fst (updateStreak today s))).
Proof.
  intros [H1 H2]. unfold updateStreak.
  destruct (last_completed_date s) as [l|] eqn:El.
  - assert (1 <= max_streak_days s)%N as H3 by (apply H2; eauto).
    destruct (is_day l today); [split; simpl; [exact H1|intros _; exact H3]|].
    destruct (daysDiff today l) as [d|]; [|split; simpl; [exact H1|intros _; exact H3]].
    destruct (d =? 1).
    + destruct (raiseMax today _) as [s' nm] eqn:E. simpl.
      change s' with (fst (s', nm)). rewrite <- E.
      destruct (raiseMax_spec today (setStreak today (current_streak_days s + 1) s))
        as (Hc & Hl & Hm & _).
      split; [rewrite Hc, Hm; simpl; lia|]. intros _. rewrite Hm. simpl. lia.
    + destruct (1 <? d); simpl.
      * split; simpl; [exact H3|intros _; exact H3].
      * split; simpl; [exact H1|intros _; exact H3].
  - destruct (raiseMax today _) as [s' nm] eqn:E. simpl.
    change s' with (fst (s', nm)). rewrite <- E.
    destruct (raiseMax_spec today (setStreak today 1 s)) as (Hc & Hl & Hm & _).
    split; [rewrite Hc, Hm; simpl; lia|]. intros _. rewrite Hm. simpl. lia.
Qed.

Lemma complete_sound w c : allSound w -> allSound (complete w c).
Proof.
  intros H g s. unfold complete.
  destruct (gridOf (c_puzzleId c)) as [g'|] eqn:Hg.
  - destruct (decide (g' = g)) as [->|Hne].
    + rewrite (complete_stored _ _ _ _ _ _ Hg). intros [= <-].
      apply updateStreak_sound, updatePersonalBest_sound, recordOf_sound, H.
    + rewrite complete_other by congruence. apply H.
  - rewrite complete_other by congruence. apply H.
Qed.

(** X1.  The streak counters stay consistent: if in every stored record
    the current streak is at most the maximum streak (and a grid with a
    completion date has a maximum of at least 1), then the same holds
    after any sequence of completions; in particular it holds for every
    record reached from empty storage. *)
Theorem streak_never_exceeds_max (w : World) (cs : list Completion) :
  allSound w ->
  forall g s, storage (completeAll w cs) !! g = Some s ->
    (current_streak_days s <= max_streak_days s)%N.
Proof.
  intros H.
  assert (Hall : allSound (completeAll w cs)).
  { revert w H. induction cs as [|c cs IH]; intros w H; [exact H|].
    unfold completeAll in *. simpl. apply IH, complete_sound, H. }
  intros g s Hs. exact (proj1 (Hall g s Hs)).
Qed.

Lemma streak_never_exceeds_max_witness :
  (current_streak_days
     (recordOf "5x5"
        (completeAll emptyWorld
           [completion "2025-11-20-5x5" 245 true;
            completion "2025-11-20-6x7" 400 false]))
   <= max_streak_days
        (recordOf "5x5"
           (completeAll emptyWorld
              [completion "2025-11-20-5x5" 245 true;
               completion "2025-11-20-6x7" 400 false])))%N.
Proof.
  apply (streak_never_exceeds_max emptyWorld
           [completion "2025-11-20-5x5" 245 true;
            completion "2025-11-20-6x7" 400 false]) with (g := "5x5").
  - intros g s Hs. cbn [emptyWorld storage] in Hs.
    rewrite lookup_empty in Hs. discriminate.
  - vm_compute. reflexivity.
Defined.

(** *** Streak continuity *)

Lemma maxStreakOf_recordOf g w : maxStreakOf g w = max_streak_days (recordOf g w).
Proof.
  unfold maxStreakOf, recordOf, getStatsForGrid.
  destruct (storage w !! g); reflexivity.
Qed.

Lemma updateStreak_first today s :
  last_completed_date s = None ->
  let s' := fst (fst (updateStreak today s)) in
  current_streak_days s' = 1%N /\
  last_completed_date s' = Some (Day today) /\
  max_streak_days s' = N.max (max_streak_days s) 1.
Proof.
  intros Hl. unfold updateStreak. rewrite Hl.
  destruct (raiseMax today _) as [s' nm] eqn:E. simpl.
  change s' with (fst (s', nm)). rewrite <- E.
  destruct (raiseMax_spec today (setStreak today 1 s)) as (Hc & Hd & Hm & _).
  rewrite Hc, Hd, Hm. repeat split.
Qed.

Lemma updateStreak_next today s :
  last_completed_date s = Some (Day (today - 1)) ->
  let s' := fst (fst (updateStreak today s)) in
  current_streak_days s' = (current_streak_days s + 1)%N /\
  last_completed_date s' = Some (Day today) /\
  max_streak_days s' = N.max (max_streak_days s) (current_streak_days s + 1).
Proof.
  intros Hl. unfold updateStreak. rewrite Hl. unfold is_day.
  destruct (Z.eqb_spec (today - 1) today); [lia|].
  rewrite daysDiff_Day.
  replace (today - (today - 1)) with 1 by lia. simpl.
  destruct (raiseMax today _) as [s' nm] eqn:E. simpl.
  change s' with (fst (s', nm)). rewrite <- E.
  destruct (raiseMax_spec today (setStreak today (current_streak_days s + 1) s))
    as (Hc & Hd & Hm & _).
  rewrite Hc, Hd, Hm. repeat split.
Qed.

(** The three counters of the booked grid after one completion. *)
Lemma complete_counters now puzzleId e p w g :
  gridOf puzzleId = Some g ->
  let w' := snd (updateStatsOnCompletion now puzzleId e p w) in
  let s1 := fst (updatePersonalBest now e p (recordOf g w)) in
  let s2 := fst (fst (updateStreak (now / MS_PER_DAY) s1)) in
  streakOf g w' = current_streak_days s2 /\
  lastCompletedOf g w' = last_completed_date s2 /\
  maxStreakOf g w' = max_streak_days s2.
Proof.
  intros Hg. simpl. unfold streakOf, lastCompletedOf, maxStreakOf.
  rewrite (complete_stored _ _ _ _ _ _ Hg). repeat split.
Qed.

Lemma run_continues g cs :
  forall d w k,
    dayByDay g d cs ->
    lastCompletedOf g w = Some (Day (d - 1)) ->
    streakOf g w = k -> maxStreakOf g w = k ->
    streakOf g (completeAll w cs) = (k + N.of_nat (length cs))%N /\
    maxStreakOf g (completeAll w cs) = (k + N.of_nat (length cs))%N /\
    lastCompletedOf g (completeAll w cs) = Some (Day (d - 1 + Z.of_nat (length cs))).
Proof.
  induction cs as [|c cs IH]; intros d w k Hrun Hl Hs Hm.
  - simpl. rewrite N.add_0_r, Z.add_0_r. auto.
  - destruct Hrun as (Hd & Hg & Hrest).
    unfold completeAll in *. cbn [fold_left length].
    destruct (complete_counters (c_now c) (c_puzzleId c) (c_elapsed c)
                (c_pristine c) w g Hg) as (Hs' & Hl' & Hm').
    destruct (updatePersonalBest_rest (c_now c) (c_elapsed c) (c_pristine c)
                (recordOf g w)) as (_ & Hc1 & Hm1 & Hl1 & _).
    destruct (updateStreak_next (c_now c / MS_PER_DAY)
                (fst (updatePersonalBest (c_now c) (c_elapsed c) (c_pristine c)
                        (recordOf g w)))) as (Hc2 & Hl2 & Hm2).
    { rewrite Hl1, <- lastCompletedOf_recordOf, Hl, Hd. reflexivity. }
    rewrite Hc1, <- streakOf_recordOf, Hs in Hc2.
    rewrite Hm1, Hc1, <- maxStreakOf_recordOf, <- streakOf_recordOf, Hm, Hs in Hm2.
    destruct (IH (d + 1) (complete w c) (k + 1)%N Hrest) as (R1 & R2 & R3).
    + unfold complete. rewrite Hl', Hl2, Hd. f_equal. f_equal. lia.
    + unfold complete. rewrite Hs', Hc2. reflexivity.
    + unfold complete. rewrite Hm', Hm2. lia.
    + rewrite R1, R2, R3. repeat split; try lia. f_equal. f_equal. lia.
Qed.

(** X2.  Streak continuity: completions of one grid on consecutive
    days, the first of them being the first completion of that grid,
    leave a current streak and a maximum streak equal to the number of
    days. *)
Theorem consecutive_days_streak (g : string) (d : Z) (cs : list Completion)
    (w : World) :
  cs <> [] ->
  dayByDay g d cs ->
  lastCompletedOf g w = None -> maxStreakOf g w = 0%N ->
  streakOf g (completeAll w cs) = N.of_nat (length cs) /\
  maxStreakOf g (completeAll w cs) = N.of_nat (length cs).
Proof.
  intros Hne Hrun Hl Hm. destruct cs as [|c cs]; [contradiction|].
  destruct Hrun as (Hd & Hg & Hrest).
  destruct (complete_counters (c_now c) (c_puzzleId c) (c_elapsed c)
              (c_pristine c) w g Hg) as (Hs' & Hl' & Hm').
  destruct (updatePersonalBest_rest (c_now c) (c_elapsed c) (c_pristine c)
              (recordOf g w)) as (_ & Hc1 & Hm1 & Hl1 & _).
  destruct (updateStreak_first (c_now c / MS_PER_DAY)
              (fst (updatePersonalBest (c_now c) (c_elapsed c) (c_pristine c)
                      (recordOf g w)))) as (Hc2 & Hl2 & Hm2).
  { rewrite Hl1, <- lastCompletedOf_recordOf. exact Hl. }
  rewrite Hm1, <- maxStreakOf_recordOf, Hm in Hm2.
  destruct (run_continues g cs (d + 1) (complete w c) 1%N Hrest) as (R1 & R2 & _).
  - unfold complete. rewrite Hl', Hl2, Hd. f_equal. f_equal. lia.
  - unfold complete. rewrite Hs', Hc2. reflexivity.
  - unfold complete. rewrite Hm', Hm2. reflexivity.
  - unfold completeAll in *. cbn [fold_left length]. rewrite R1, R2. split; lia.
Qed.

Lemma consecutive_days_streak_witness :
  streakOf "5x5" (completeAll emptyWorld threeDays) = N.of_nat (length threeDays) /\
  maxStreakOf "5x5" (completeAll emptyWorld threeDays) = N.of_nat (length threeDays).
Proof.
  apply (consecutive_days_streak "5x5" 20412 threeDays emptyWorld).
  - intros [=].
  - repeat split.
  - reflexivity.
  - reflexivity.
Defined.

(** *** What the returned flags say *)

Lemma updatePersonalBest_flag now e p s :
  snd (updatePersonalBest now e p s) = true <->
  best_time_seconds (fst (updatePersonalBest now e p s)) <> best_time_seconds s.
Proof.
  unfold updatePersonalBest. destruct p; [|simpl; split; congruence].
  destruct (best_time_seconds s) as [b|] eqn:E.
  - destruct (Z.ltb_spec e b); simpl.
    + split; [intros _ [=]; lia|reflexivity].
    + rewrite E. split; congruence.
  - simpl. split; [intros _ [=]|reflexivity].
Qed.

Lemma updateStreak_flags today s :
  (snd (updateStreak today s) = true <->
   max_streak_days (fst (fst (updateStreak today s))) <> max_streak_days s) /\
  (snd (updateStreak today s) = true -> snd (fst (updateStreak today s)) = true).
Proof.
  assert (Hr : forall s0, max_streak_days s0 = max_streak_days s ->
            (snd (raiseMax today s0) = true <->
             max_streak_days (fst (raiseMax today s0)) <> max_streak_days s)).
  { intros s0 H0. destruct (raiseMax_spec today s0) as (_ & _ & Hm & Hf).
    rewrite Hm, Hf, H0.
    destruct (N.ltb_spec (max_streak_days s) (current_streak_days s0)); split;
      try congruence; try lia. }
  unfold updateStreak.
  destruct (last_completed_date s) as [l|].
  - destruct (is_day l today); [simpl; split; [split|]; congruence|].
    destruct (daysDiff today l) as [d|]; [|simpl; split; [split|]; congruence].
    destruct (d =? 1).
    + specialize (Hr (setStreak today (current_streak_days s + 1) s) eq_refl).
      destruct (raiseMax today _) as [s' nm]. simpl in *. split; [exact Hr|reflexivity].
    + destruct (1 <? d); simpl; split; try split; congruence.
  - specialize (Hr (setStreak today 1 s) eq_refl).
    destruct (raiseMax today _) as [s' nm]. simpl in *. split; [exact Hr|reflexivity].
Qed.

Lemma complete_result now puzzleId e p w g :
  gridOf puzzleId = Some g ->
  fst (updateStatsOnCompletion now puzzleId e p w) =
    let r1 := updatePersonalBest now e p (recordOf g w) in
    let r2 := updateStreak (now / MS_PER_DAY) (fst r1) in
    Some (fst (fst r2),
          {| newPersonalBest := snd r1; streakIncreased := snd (fst r2);
             newMaxStreak := snd r2 |}).
Proof.
  unfold gridOf, updateStatsOnCompletion, recordOf.
  destruct (length (split_dash puzzleId) <? 4)%nat; [discriminate|].
  intros [= <-].
  destruct (getStatsForGrid _ _) as [s0 st0]. simpl.
  destruct (updatePersonalBest _ _ _ _) as [s1 pb]. simpl.
  destruct (updateStreak _ _) as [[s2 si] nm]. reflexivity.
Qed.

(** X3.  The change flags that updateStatsOnCompletion returns are
    truthful: the returned record is the one now stored for the grid,
    newPersonalBest is set exactly when the stored best time changed,
    newMaxStreak exactly when the stored maximum streak changed, and
    newMaxStreak is never set without streakIncreased. *)
Theorem change_flags_are_truthful (now : Z) (puzzleId : string) (e : Z)
    (p : bool) (w : World) (g : string) (s : StatsRecord) (ch : Changes) :
  gridOf puzzleId = Some g ->
  fst (updateStatsOnCompletion now puzzleId e p w) = Some (s, ch) ->
  let w' := snd (updateStatsOnCompletion now puzzleId e p w) in
  storage w' !! g = Some s /\
  (newPersonalBest ch = true <-> bestOf g w' <> bestOf g w) /\
  (newMaxStreak ch = true <-> maxStreakOf g w' <> maxStreakOf g w) /\
  (newMaxStreak ch = true -> streakIncreased ch = true).
Proof.
  intros Hg Hres w'. subst w'.
  rewrite (complete_result _ _ _ _ _ _ Hg) in Hres. cbv zeta in Hres.
  injection Hres as <- <-. cbn [newPersonalBest newMaxStreak streakIncreased].
  unfold bestOf at 1. unfold maxStreakOf at 1.
  rewrite (complete_stored _ _ _ _ _ _ Hg).
  rewrite bestOf_recordOf, maxStreakOf_recordOf, updateStreak_best.
  split; [reflexivity|]. split; [apply updatePersonalBest_flag|].
  destruct (updatePersonalBest_rest now e p (recordOf g w)) as (_ & _ & <- & _).
  apply updateStreak_flags.
Qed.

Lemma change_flags_are_truthful_witness :
  newPersonalBest
    {| newPersonalBest := true; streakIncreased := true; newMaxStreak := true |}
  = true <->
  bestOf "5x5" (snd (updateStatsOnCompletion t20 "2025-11-20-5x5" 245 true emptyWorld))
  <> bestOf "5x5" emptyWorld.
Proof.
  apply (change_flags_are_truthful t20 "2025-11-20-5x5" 245 true emptyWorld "5x5"
           (fst (fst (updateStreak (t20 / MS_PER_DAY)
                        (fst (updatePersonalBest t20 245 true
                                (recordOf "5x5" emptyWorld))))))
           {| newPersonalBest := true; streakIncreased := true; newMaxStreak := true |}).
  - reflexivity.
  - reflexivity.
Defined.

(** *** One grid at a time, and never a worse best *)

(** X4.  A completion is booked on one grid only: after any sequence of
    completions none of which names grid [g] (completions for other
    grids, or with an identifier that names no grid), the entry of [g],
    present or absent, is what it was. *)
Theorem completion_touches_one_grid (w : World) (cs : list Completion)
    (g : string) :
  (forall c, c ∈ cs -> gridOf (c_puzzleId c) <> Some g) ->
  storage (completeAll w cs) !! g = storage w !! g.
Proof.
  revert w. induction cs as [|c cs IH]; intros w H; [reflexivity|].
  unfold completeAll in *. cbn [fold_left].
  rewrite IH by (intros c' Hc'; apply H, list_elem_of_further, Hc').
  unfold complete. apply complete_other, H, list_elem_of_here.
Qed.

Lemma completion_touches_one_grid_witness :
  storage
    (completeAll (statsWorld (Some (Day 20411)) 3 5 (Some 300))
       [completion "2025-11-20-6x7" 100 true; completion "5x5" 90 true]) !! "5x5"
  = storage (statsWorld (Some (Day 20411)) 3 5 (Some 300)) !! "5x5".
Proof.
  apply (completion_touches_one_grid (statsWorld (Some (Day 20411)) 3 5 (Some 300))
           [completion "2025-11-20-6x7" 100 true; completion "5x5" 90 true] "5x5").
  intros c Hc. apply list_elem_of_In in Hc.
  destruct Hc as [<-|[<-|[]]]; vm_compute; discriminate.
Defined.

(** X5.  A stored best time never gets worse: once a grid has a best
    time, after any sequence of completions it still has one, and it is
    not above the earlier one. *)
Theorem best_time_never_worsens (w : World) (cs : list Completion)
    (g : string) (b : Z) :
  bestOf g w = Some b ->
  exists b', bestOf g (completeAll w cs) = Some b' /\ b' <= b.
Proof.
  intros Hb. rewrite completeAll_best, Hb, bestAfter_Some.
  eexists. split; [reflexivity|]. destruct (minimum _); lia.
Qed.

Lemma best_time_never_worsens_witness :
  exists b',
    bestOf "5x5"
      (completeAll (statsWorld None 0 0 (Some 245))
         [completion "2025-11-20-5x5" 300 true;
          completion "2025-11-20-5x5" 200 true]) = Some b' /\ b' <= 245.
Proof.
  apply best_time_never_worsens. reflexivity.
Defined.

End StatsMore.

(** ** More about the merge of statistics and the stats endpoint *)

Module MergeMore.
Import Js Stats StatsSpec StatsMoreSpec Merge StatsApi StatsSync Samples MoreSamples.

(** *** Which side the streak comes from *)

(** X6.  The streak of a merge follows the more recent completion: when
    both records have a valid completion date, the merged current streak
    and date are the current_streak_days and the last_completed_date of
    the record with the later date, of the local record on a tie; so the
    two orders of a merge agree on them whenever the two dates differ. *)
Theorem streak_follows_latest (A B : StatsRecord) (a b : datestr)
    (ta tb : Z) :
  last_completed_date A = Some a -> last_completed_date B = Some b ->
  getTime a = Some ta -> getTime b = Some tb ->
  (tb <= ta ->
     current_streak_days (mergeStats (Some A) (Some B)) = current_streak_days A /\
     last_completed_date (mergeStats (Some A) (Some B)) = last_completed_date A) /\
  (ta < tb ->
     current_streak_days (mergeStats (Some A) (Some B)) = current_streak_days B /\
     last_completed_date (mergeStats (Some A) (Some B)) = last_completed_date B) /\
  (ta <> tb ->
     current_streak_days (mergeStats (Some A) (Some B))
       = current_streak_days (mergeStats (Some B) (Some A)) /\
     last_completed_date (mergeStats (Some A) (Some B))
       = last_completed_date (mergeStats (Some B) (Some A))).
Proof.
  intros HA HB Ha Hb.
  unfold mergeStats. cbn [current_streak_days last_completed_date].
  unfold mergeStreak. cbn [lastField streakField].
  rewrite HA, HB, Ha, Hb. unfold date_geb.
  destruct (Z.leb_spec tb ta), (Z.leb_spec ta tb); simpl;
    repeat split; intros; try lia; reflexivity.
Qed.

Lemma streak_follows_latest_witness :
  current_streak_days (mergeStats (Some statsLocal) (Some statsRemote)) = 5%N /\
  last_completed_date (mergeStats (Some statsLocal) (Some statsRemote))
    = Some (Day 20412).
Proof.
  apply (proj1 (proj2 (streak_follows_latest statsLocal statsRemote
                         (Day 20411) (Day 20412)
                         (20411 * MS_PER_DAY) (20412 * MS_PER_DAY)
                         eq_refl eq_refl eq_refl eq_refl))).
  reflexivity.
Defined.

(** *** The merge keeps the counters consistent *)

Lemma side_bounds (A : option StatsRecord) :
  sideSound A ->
  (streakField A <= maxField A)%N /\
  (is_Some (lastField A) -> (1 <= maxField A)%N).
Proof.
  intros H. destruct A as [s|]; simpl.
  - exact (H s eq_refl).
  - split; [lia|intros [x Hx]; discriminate].
Qed.

Lemma mergeStreak_sound (A B : option StatsRecord) :
  sideSound A -> sideSound B ->
  (fst (mergeStreak A B) <= N.max (maxField A) (maxField B))%N /\
  (is_Some (snd (mergeStreak A B)) -> (1 <= N.max (maxField A) (maxField B))%N).
Proof.
  intros HA HB.
  destruct (side_bounds A HA) as [A1 A2], (side_bounds B HB) as [B1 B2].
  unfold mergeStreak.
  destruct (lastField A) as [a|], (lastField B) as [b|]; simpl.
  - assert (1 <= maxField A)%N by (apply A2; eauto).
    destruct (date_geb _ _); simpl; split; intros; lia.
  - assert (1 <= maxField A)%N by (apply A2; eauto). split; intros; lia.
  - assert (1 <= maxField B)%N by (apply B2; eauto). split; intros; lia.
  - split; [lia|intros [x Hx]; discriminate].
Qed.

(** X7.  Merging keeps the counters consistent: when on each side the
    current streak is at most the maximum streak (and a side with a
    completion date has a maximum of at least 1), the same holds for
    the result of mergeStats and for the result of the merge of the
    endpoint. *)
Theorem merge_keeps_counters_sound (A B : option StatsRecord)
    (g : string) (stats : StatsRecord) :
  sideSound A -> sideSound B -> streakSound stats ->
  streakSound (mergeStats A B) /\ streakSound (serverMerge g B stats).
Proof.
  intros HA HB Hs. split.
  - unfold streakSound, mergeStats.
    cbn [current_streak_days max_streak_days last_completed_date].
    rewrite MergeFacts.mergeMax_max. apply mergeStreak_sound; assumption.
  - assert (HS : sideSound (Some stats)) by (intros s [= <-]; exact Hs).
    destruct (mergeStreak_sound (Some stats) B HS HB) as [M1 M2].
    unfold streakSound, serverMerge.
    cbn [current_streak_days max_streak_days last_completed_date].
    cbn [maxField] in M1, M2.
    destruct (N.ltb_spec (maxField B) (max_streak_days stats)); simpl;
      split; intros; try (specialize (M2 ltac:(assumption))); lia.
Qed.

(** The two sides of the merge scenario, streaks 3 of 3 and 5 of 5, and
    a posted record on a stored row. *)
Lemma merge_keeps_counters_sound_witness :
  streakSound (mergeStats (Some statsLocal) (Some statsRemote)) /\
  streakSound (serverMerge "5x5" (Some statsRemote) statsLocal).
Proof.
  apply (merge_keeps_counters_sound (Some statsLocal) (Some statsRemote) "5x5"
           statsLocal).
  - intros s [= <-]. split; cbn; [lia|intros _; lia].
  - intros s [= <-]. split; cbn; [lia|intros _; lia].
  - split; cbn; [lia|intros _; lia].
Defined.

End MergeMore.

(** ** Facts about the stats endpoint and its client *)

Module StatsApiFacts.
Import Js Stats StatsSpec StatsMoreSpec Merge StatsApi StatsSync Samples MoreSamples
  StatsSyncSamples.

(** *** Posting twice *)

Lemma date_geb_refl_of (l r : datestr) :
  date_geb (getTime l) (getTime r) = true -> date_geb (getTime l) (getTime l) = true.
Proof.
  unfold date_geb. destruct (getTime l), (getTime r); try discriminate.
  intros _. apply Z.leb_refl.
Qed.

(** Merging the answer of the endpoint with the record that produced it
    gives the answer again. *)
Lemma serverMerge_idem g existingStats stats :
  serverMerge g (Some (serverMerge g existingStats stats)) stats
  = serverMerge g existingStats stats.
Proof.
  unfold serverMerge at 1.
  assert (Hb : serverBest (Some (serverMerge g existingStats stats)) stats
               = serverBest existingStats stats).
  { unfold serverBest, serverMerge. cbn [bestField bestDateField best_time_seconds best_time_date].
    unfold serverBest.
    destruct (bestField existingStats) as [x|], (best_time_seconds stats) as [c|];
      cbn [fst snd]; try reflexivity.
    - destruct (Z.ltb_spec x c); cbn [fst snd].
      + destruct (Z.ltb_spec x c); [reflexivity|lia].
      + rewrite Z.ltb_irrefl. reflexivity.
    - rewrite Z.ltb_irrefl. reflexivity. }
  assert (Hs : mergeStreak (Some stats) (Some (serverMerge g existingStats stats))
               = mergeStreak (Some stats) existingStats).
  { unfold mergeStreak at 1, serverMerge.
    cbn [lastField streakField last_completed_date current_streak_days].
    unfold mergeStreak.
    destruct (last_completed_date stats) as [l|] eqn:El;
      destruct (lastField existingStats) as [r|] eqn:Er; cbn [fst snd lastField streakField].
    - rewrite El. destruct (date_geb (getTime l) (getTime r)) eqn:Eg; cbn [fst snd].
      + rewrite (date_geb_refl_of l r Eg). reflexivity.
      + rewrite Eg. reflexivity.
    - rewrite El. cbn [fst snd].
      destruct (date_geb (getTime l) (getTime l)); reflexivity.
    - rewrite El. cbn [fst snd]. reflexivity.
    - rewrite El. cbn [fst snd]. reflexivity. }
  rewrite Hb, Hs. unfold serverMerge.
  cbn [maxField maxDateField max_streak_days max_streak_date].
  destruct (N.ltb_spec (maxField existingStats) (max_streak_days stats)); cbn [fst snd].
  - rewrite N.ltb_irrefl. reflexivity.
  - destruct (N.ltb_spec (maxField existingStats) (max_streak_days stats)); [lia|].
    reflexivity.
Qed.

(** X8.  Posting the same statistics twice is the same as posting them
    once: the second POST gives the answer of the first and leaves the
    table as the first left it, so a retry is harmless. *)
Theorem post_twice_is_post_once (grid_size : string)
    (stats : option StatsRecord) (table : gmap string StatsRecord) :
  postHandler grid_size stats (snd (postHandler grid_size stats table))
  = postHandler grid_size stats table.
Proof.
  unfold postHandler. destruct stats as [st|]; [|reflexivity].
  destruct (negb (truthy grid_size)); [reflexivity|]. cbn [snd].
  rewrite lookup_insert_eq, serverMerge_idem, insert_insert_eq. reflexivity.
Qed.

(** *** What a POST stores *)

Lemma mergeStats_values (A B : option StatsRecord) :
  best_time_seconds (mergeStats A B) = lowerOf (bestField A) (bestField B) /\
  max_streak_days (mergeStats A B) = N.max (maxField A) (maxField B).
Proof.
  unfold mergeStats. cbn [best_time_seconds max_streak_days].
  rewrite MergeFacts.mergeBest_lower, MergeFacts.mergeMax_max. split; reflexivity.
Qed.

Lemma post_never_loses_shape grid_size stats table :
  grid_size <> "" ->
  exists m,
    postHandler grid_size (Some stats) table = (Synced m, <[grid_size := m]> table).
Proof.
  intros Hg. unfold postHandler.
  assert (truthy grid_size = true) as ->.
  { unfold truthy. destruct (String.eqb_spec grid_size ""); [contradiction|reflexivity]. }
  cbn [negb]. eexists. reflexivity.
Qed.

Lemma post_best_le grid_size stats table m x :
  postHandler grid_size (Some stats) table = (Synced m, <[grid_size := m]> table) ->
  best_time_seconds stats = Some x ->
  exists b, best_time_seconds m = Some b /\ b <= x.
Proof.
  unfold postHandler. destruct (negb (truthy grid_size)); [discriminate|].
  intros [= <- _] Hx.
  rewrite (proj1 (MergeFacts.serverMerge_agrees grid_size (table !! grid_size) stats)).
  rewrite (proj1 (mergeStats_values (Some stats) (table !! grid_size))).
  cbn [bestField]. rewrite Hx. unfold lowerOf.
  destruct (bestField (table !! grid_size)) as [y|]; eexists; (split; [reflexivity|lia]).
Qed.

(** On the body of a record of stats.js the general handler is the one
    above. *)
Lemma postHandlerSent_bodyOf grid_size (stats : StatsRecord) table :
  postHandlerSent grid_size (Some (bodyOf stats)) table
  = postHandler grid_size (Some stats) table.
Proof.
  unfold postHandlerSent, postHandler.
  destruct (negb (truthy grid_size)); [reflexivity|].
  assert (serverMergeSent grid_size (table !! grid_size) (bodyOf stats)
          = serverMerge grid_size (table !! grid_size) stats) as ->; [|reflexivity].
  unfold serverMergeSent, serverMerge, serverBestSent, serverBest, mergeStreak, bodyOf.
  cbn [sent_best sent_best_date sent_streak sent_max sent_last sent_max_date
       lastField streakField].
  destruct (bestField (table !! grid_size)) as [e|],
           (best_time_seconds stats) as [c|]; reflexivity.
Qed.

(** X9.  The row that a POST stores is never worse than the row it
    replaces or than the body it was sent, as long as the body carries
    a best_time_seconds field (a number or null): a best time of the
    stored row then survives as a best time that is not above it, and
    so does a best time of the body; a body without the field leaves
    the row without a best time, whatever was stored.  In every case
    the maximum streak of the new row is not below that of the old row
    or of the body, and rows of other grid sizes are not touched. *)
Theorem post_never_loses (grid_size : string) (body : StatsBody)
    (table : gmap string StatsRecord) :
  grid_size <> "" ->
  exists m,
    postHandlerSent grid_size (Some body) table
      = (Synced m, <[grid_size := m]> table) /\
    (sent_best body <> BestMissing ->
     forall old b,
       table !! grid_size = Some old -> best_time_seconds old = Some b ->
       exists b', best_time_seconds m = Some b' /\ b' <= b) /\
    (forall b, sent_best body = BestNumber b ->
       exists b', best_time_seconds m = Some b' /\ b' <= b) /\
    (sent_best body = BestMissing -> best_time_seconds m = None) /\
    (forall old, table !! grid_size = Some old ->
       (max_streak_days old <= max_streak_days m)%N) /\
    (sent_max body <= max_streak_days m)%N /\
    (forall g, g <> grid_size ->
       snd (postHandlerSent grid_size (Some body) table) !! g = table !! g).
Proof.
  intros Hg. unfold postHandlerSent.
  assert (truthy grid_size = true) as ->.
  { unfold truthy. destruct (String.eqb_spec grid_size ""); [contradiction|reflexivity]. }
  cbn [negb]. eexists. split; [reflexivity|].
  unfold serverMergeSent. cbn [best_time_seconds max_streak_days snd].
  unfold serverBestSent. split; [|split; [|split; [|split; [|split]]]].
  - intros Hb old b Hold Hbest. rewrite Hold. cbn [bestField]. rewrite Hbest.
    destruct (sent_best body) as [| |c]; [contradiction| |].
    + eexists. split; [reflexivity|]. lia.
    + destruct (Z.ltb_spec b c); eexists; (split; [reflexivity|]); cbn; lia.
  - intros b Hb. rewrite Hb.
    destruct (bestField (table !! grid_size)) as [e|].
    + destruct (Z.ltb_spec e b); eexists; (split; [reflexivity|]); cbn; lia.
    + eexists. split; [reflexivity|]. cbn. lia.
  - intros Hb. rewrite Hb.
    destruct (bestField (table !! grid_size)); reflexivity.
  - intros old Hold. rewrite Hold. cbn [maxField].
    destruct (N.ltb_spec (max_streak_days old) (sent_max body)); cbn; lia.
  - destruct (N.ltb_spec (maxField (table !! grid_size)) (sent_max body)); cbn; lia.
  - intros g Hne. apply lookup_insert_ne. congruence.
Qed.

(** A local best of 200 posted on a stored best of 180, max streaks 3
    and 5. *)
Lemma post_never_loses_witness :
  exists m,
    postHandlerSent "5x5" (Some (bodyOf statsLocal)) tableRemote
      = (Synced m, <["5x5" := m]> tableRemote) /\
    (sent_best (bodyOf statsLocal) <> BestMissing ->
     forall old b,
       tableRemote !! "5x5" = Some old -> best_time_seconds old = Some b ->
       exists b', best_time_seconds m = Some b' /\ b' <= b) /\
    (forall b, sent_best (bodyOf statsLocal) = BestNumber b ->
       exists b', best_time_seconds m = Some b' /\ b' <= b) /\
    (sent_best (bodyOf statsLocal) = BestMissing -> best_time_seconds m = None) /\
    (forall old, tableRemote !! "5x5" = Some old ->
       (max_streak_days old <= max_streak_days m)%N) /\
    (sent_max (bodyOf statsLocal) <= max_streak_days m)%N /\
    (forall g, g <> "5x5" ->
       snd (postHandlerSent "5x5" (Some (bodyOf statsLocal)) tableRemote) !! g
       = tableRemote !! g).
Proof.
  apply (post_never_loses "5x5" (bodyOf statsLocal) tableRemote). intros [=].
Defined.

(** A body without best_time_seconds on a stored best of 180: the new
    row has no best time. *)
Example post_without_best_drops_it :
  best_time_seconds
    <$> snd (postHandlerSent "5x5"
               (Some {| sent_best := BestMissing; sent_best_date := None;
                        sent_streak := 3; sent_max := 3;
                        sent_last := Some (Day 20411); sent_max_date := None |})
               tableRemote) !! "5x5"
  = Some None.
Proof. vm_compute. reflexivity. Qed.

(** *** Fetching *)

(** X10.  A GET returns exactly the stored rows of the grid sizes it
    names, those of the four standard sizes when it names none; after a
    POST for one of the named sizes the row fetched for it is the
    merged record that the POST answered. *)
Theorem fetch_after_post (grid_size : string) (stats : StatsRecord)
    (table : gmap string StatsRecord) (grid_sizes : option (list string)) :
  grid_size <> "" ->
  grid_size ∈ default DEFAULT_GRID_SIZES grid_sizes ->
  exists m fetched,
    fst (postHandler grid_size (Some stats) table) = Synced m /\
    getHandler grid_sizes (snd (postHandler grid_size (Some stats) table))
      = Fetched fetched /\
    fetched !! grid_size = Some m /\
    (forall g r, fetched !! g = Some r <->
       g ∈ default DEFAULT_GRID_SIZES grid_sizes /\
       snd (postHandler grid_size (Some stats) table) !! g = Some r).
Proof.
  intros Hg Hin. destruct (post_never_loses_shape grid_size stats table Hg) as (m & Hp).
  exists m. eexists. rewrite Hp. cbn [fst snd]. split; [reflexivity|].
  unfold getHandler. split; [reflexivity|]. split.
  - apply map_lookup_filter_Some. split; [apply lookup_insert_eq|exact Hin].
  - intros g r. rewrite map_lookup_filter_Some. cbn [fst]. tauto.
Qed.

Lemma fetch_after_post_witness :
  exists m fetched,
    fst (postHandler "5x5" (Some statsLocal) ∅) = Synced m /\
    getHandler None (snd (postHandler "5x5" (Some statsLocal) ∅)) = Fetched fetched /\
    fetched !! "5x5" = Some m /\
    (forall g r, fetched !! g = Some r <->
       g ∈ default DEFAULT_GRID_SIZES None /\
       snd (postHandler "5x5" (Some statsLocal) ∅) !! g = Some r).
Proof.
  apply fetch_after_post.
  - intros [=].
  - apply list_elem_of_here.
Defined.

(** *** A completion and the server *)

Lemma complete_syncRequest now puzzleId e p w g :
  gridOf puzzleId = Some g ->
  syncRequests (snd (updateStatsOnCompletion now puzzleId e p w))
  = (g, fst (fst (updateStreak (now / MS_PER_DAY)
                    (fst (updatePersonalBest now e p (recordOf g w))))))
    :: syncRequests w.
Proof.
  unfold gridOf, updateStatsOnCompletion, recordOf.
  destruct (length (split_dash puzzleId) <? 4)%nat; [discriminate|].
  intros [= <-].
  destruct (getStatsForGrid _ _) as [s0 st0]. simpl.
  destruct (updatePersonalBest _ _ _ _) as [s1 pb]. simpl.
  destruct (updateStreak _ _) as [[s2 si] nm]. reflexivity.
Qed.

Lemma stepBest_le best e : exists x, stepBest best e = Some x /\ x <= e.
Proof.
  unfold stepBest. destruct best as [b|]; [|eexists; split; [reflexivity|lia]].
  destruct (Z.ltb_spec e b); eexists; (split; [reflexivity|lia]).
Qed.

(** X11.  A pristine completion reaches the server: for a signed-in
    user, outside a bulk pass and after initialisation, once a
    completion of a well-formed puzzle is processed the local storage
    and the table of the server hold the same record for the grid, and
    its best time is at most the time of the completion. *)
Theorem completion_is_pushed (now : Z) (puzzleId : string) (e : Z)
    (w : World) (g : string) :
  gridOf puzzleId = Some g -> g <> "" ->
  User.authenticated (user w) = true ->
  User.isBulkSyncing (user w) = false ->
  User.isInitializing (user w) = false ->
  let w' := onCompletion now puzzleId e true w in
  exists m b,
    localStats w' !! g = Some m /\ statsTable w' !! g = Some m /\
    best_time_seconds m = Some b /\ b <= e.
Proof.
  intros Hg Hne Ha Hb Hi w'. subst w'. unfold onCompletion.
  rewrite (complete_syncRequest _ _ _ _ _ _ Hg). cbn [syncRequests].
  set (s2 := fst (fst (updateStreak _ _))).
  unfold syncStatsToServer. cbn [user]. rewrite Ha, Hb, Hi. cbn [negb orb].
  unfold uploadStatsToServer. cbn [statsTable localStats user].
  destruct (post_never_loses_shape g s2 (statsTable w) Hne) as (m & Hp).
  rewrite Hp. cbn [localStats statsTable]. unfold saveStatsForGrid.
  assert (Hs2 : exists x, best_time_seconds s2 = Some x /\ x <= e).
  { unfold s2. rewrite StatsFacts.updateStreak_best, StatsFacts.updatePersonalBest_best.
    apply stepBest_le. }
  destruct Hs2 as (x & Hx & Hle).
  destruct (post_best_le g s2 (statsTable w) m x Hp Hx) as (b & Hmb & Hbx).
  exists m, b. rewrite !lookup_insert_eq. repeat split; try assumption. lia.
Qed.

Lemma completion_is_pushed_witness :
  exists m b,
    localStats (onCompletion t20 pid20 245 true (syncedWorld ∅ tableRemote)) !! "5x5"
      = Some m /\
    statsTable (onCompletion t20 pid20 245 true (syncedWorld ∅ tableRemote)) !! "5x5"
      = Some m /\
    best_time_seconds m = Some b /\ b <= 245.
Proof.
  apply (completion_is_pushed t20 pid20 245 (syncedWorld ∅ tableRemote) "5x5").
  - reflexivity.
  - intros [=].
  - reflexivity.
  - reflexivity.
  - reflexivity.
Defined.

(** X12.  While a bulk pass runs, or before the first one has finished,
    a completion is booked locally and nothing is sent: the table of
    the server is as it was and the local storage is what
    updateStatsOnCompletion left. *)
Theorem completion_is_held_back (now : Z) (puzzleId : string) (e : Z)
    (p : bool) (w : World) :
  User.isBulkSyncing (user w) = true \/ User.isInitializing (user w) = true ->
  let w' := onCompletion now puzzleId e p w in
  statsTable w' = statsTable w /\
  localStats w' =
    storage (snd (updateStatsOnCompletion now puzzleId e p
                    {| storage := localStats w; displayed := [];
                       syncRequests := [] |})).
Proof.
  intros Hguard w'. subst w'. unfold onCompletion.
  destruct (syncRequests _) as [|[g s] rest]; [split; reflexivity|].
  unfold syncStatsToServer. cbn [user].
  destruct (negb (User.authenticated (user w))); [split; reflexivity|].
  assert (User.isBulkSyncing (user w) || User.isInitializing (user w) = true) as ->.
  { destruct Hguard as [-> | ->]; [reflexivity|apply orb_true_r]. }
  split; reflexivity.
Qed.

Lemma completion_is_held_back_witness :
  statsTable (onCompletion t20 pid20 245 true (startingWorld ∅ tableRemote))
    = statsTable (startingWorld ∅ tableRemote) /\
  localStats (onCompletion t20 pid20 245 true (startingWorld ∅ tableRemote)) =
    storage (snd (updateStatsOnCompletion t20 pid20 245 true
                    {| storage := localStats (startingWorld ∅ tableRemote);
                       displayed := []; syncRequests := [] |})).
Proof.
  apply completion_is_held_back. right. reflexivity.
Defined.

(** The scenario: the remote record is faster, the completion of 245 s
    is pushed and the local storage takes the 180 s of the server. *)
Example pushed_completion_takes_server_best :
  best_time_seconds
    <$> localStats (onCompletion t20 pid20 245 true (syncedWorld ∅ tableRemote))
          !! "5x5" = Some (Some 180).
Proof. vm_compute. reflexivity. Qed.

End StatsApiFacts.

(** ** More about the sync endpoint *)

Module SyncMore.
Import Js Progress SyncApi User SyncSpec SyncMoreSpec Samples.

(** *** What a request can change *)

Lemma upsert_rows now req db :
  rows (snd (upsert now req db)) =
    <[puzzle_id req :=
        {| r_id := fst (upsert now req db);
           r_puzzle_id := puzzle_id req;
           r_grid_size := grid_size req;
           r_elapsed_seconds := default 0 (elapsed_seconds req);
           r_was_paused := was_paused req;
           r_progress_json := progress_json req;
           r_status := status req;
           r_completed_at :=
             if String.eqb (status req) "complete"
             then Some (now / MS_PER_DAY) else None;
           r_updated_at := now |}]> (rows db).
Proof. reflexivity. Qed.

(** The handler either leaves the table alone or performs the upsert. *)
Lemma handler_cases now req db :
  (snd (handler now req db) = db /\
   forall rid, fst (handler now req db) <> Saved (Some rid)) \/
  (handler now req db = (Saved (Some (fst (upsert now req db))), snd (upsert now req db)) /\
   missingFields req = false /\
   immediate req && negb (clientHasProgress req) = false).
Proof.
  unfold handler.
  destruct (missingFields req); [left; split; [reflexivity|discriminate]|].
  destruct (if _ : bool then anyLatest db else None);
    [left; split; [reflexivity|discriminate]|].
  destruct (immediate req && negb (clientHasProgress req)) eqn:Ei;
    [left; split; [reflexivity|discriminate]|].
  destruct (rows db !! puzzle_id req) as [l|].
  - destruct (clientIsNewer req (Some l)).
    + right. destruct (upsert now req db). auto.
    + left; split; [reflexivity|discriminate].
  - right. destruct (upsert now req db). auto.
Qed.

(** X13.  A sync request can only write the row of its own puzzle, and
    only when the answer is SAVED with a log id: the rows of all other
    puzzles are as they were, no row is ever removed, and any other
    answer (400, LOADED, the no-op SAVED) leaves the whole table as it
    was. *)
Theorem request_writes_only_its_row (now : Z) (req : SyncRequest) (db : Db) :
  (forall k, k <> puzzle_id req ->
     rows (snd (handler now req db)) !! k = rows db !! k) /\
  (forall k, is_Some (rows db !! k) ->
     is_Some (rows (snd (handler now req db)) !! k)) /\
  ((forall rid, fst (handler now req db) <> Saved (Some rid)) ->
     snd (handler now req db) = db).
Proof.
  destruct (handler_cases now req db) as [[Hs Hn]|(Hh & _ & _)].
  - rewrite Hs. repeat split; auto.
  - rewrite Hh. cbn [fst snd]. rewrite upsert_rows. split; [|split].
    + intros k Hk. apply lookup_insert_ne. congruence.
    + intros k [r Hr]. destruct (decide (puzzle_id req = k)) as [<-|Hne].
      * rewrite lookup_insert_eq. eauto.
      * rewrite lookup_insert_ne by exact Hne. eauto.
    + intros Hn. exfalso. exact (Hn _ eq_refl).
Qed.

Lemma request_writes_only_its_row_witness :
  rows (snd (handler t20 (gameState pid20 "started" oneLetter 30 t20)
               (dbWith (remoteRow 7 pid19 "started" oneLetter 30 (t20 - 1000)))))
    !! pid19
  = rows (dbWith (remoteRow 7 pid19 "started" oneLetter 30 (t20 - 1000))) !! pid19.
Proof.
  apply (proj1 (request_writes_only_its_row t20 (gameState pid20 "started" oneLetter 30 t20)
                  (dbWith (remoteRow 7 pid19 "started" oneLetter 30 (t20 - 1000))))).
  intros [=].
Defined.

(** *** Sending a request again *)

(** X14.  A retry is harmless: when a request was SAVED at server time
    [now] and the client timestamp is not ahead of that time, sending
    the same request again, at any time, is answered LOADED with the row
    that was saved (it carries the payload of the request and the time
    of the save) and leaves the table as it was. *)
Theorem retry_is_answered_loaded (now now2 : Z) (req : SyncRequest) (db : Db)
    (rid : Z) :
  fst (handler now req db) = Saved (Some rid) ->
  (forall c, client_updated_at req = Some (Some c) -> c <= now) ->
  exists row,
    handler now2 req (snd (handler now req db))
      = (Loaded row, snd (handler now req db)) /\
    carries row req /\ r_updated_at row = now.
Proof.
  intros Hsaved Hclock.
  destruct (handler_cases now req db) as [[_ Hn]|(Hh & Hm & Hi)].
  { exfalso. exact (Hn rid Hsaved). }
  rewrite Hh in *. cbn [fst snd] in *. injection Hsaved as <-.
  eexists. split.
  - unfold handler at 1. rewrite Hm, upsert_rows, lookup_insert_eq.
    rewrite bool_decide_eq_true_2 by eauto.
    cbn [negb]. rewrite andb_false_r, Hi. cbn [andb].
    unfold clientIsNewer.
    destruct (negb (clientHasProgress req)); [reflexivity|].
    destruct (client_updated_at req) as [[c|]|] eqn:Ec; cbn [date_ltb r_updated_at];
      try reflexivity.
    specialize (Hclock c eq_refl).
    destruct (Z.ltb_spec now c); [lia|reflexivity].
  - repeat split.
Qed.

Lemma retry_is_answered_loaded_witness :
  exists row,
    handler (t20 + 9000) (gameState pid20 "started" oneLetter 30 t20)
      (snd (handler (t20 + 5000) (gameState pid20 "started" oneLetter 30 t20) emptyDb))
    = (Loaded row,
       snd (handler (t20 + 5000) (gameState pid20 "started" oneLetter 30 t20) emptyDb)) /\
    carries row (gameState pid20 "started" oneLetter 30 t20) /\
    r_updated_at row = t20 + 5000.
Proof.
  apply (retry_is_answered_loaded (t20 + 5000) (t20 + 9000)
           (gameState pid20 "started" oneLetter 30 t20) emptyDb 1).
  - reflexivity.
  - intros c [= <-]. lia.
Defined.

(** *** Rows and their keys *)

Lemma newerRow_fold_in (l : list Row) (acc : option Row) (r : Row) :
  fold_left newerRow l acc = Some r -> acc = Some r \/ r ∈ l.
Proof.
  revert acc. induction l as [|x l IH]; intros acc H; cbn in H.
  - left. exact H.
  - destruct (IH _ H) as [Ha|Hin].
    + destruct acc as [a|]; cbn in Ha.
      * destruct (r_updated_at a <? r_updated_at x); injection Ha as ->.
        -- right. apply list_elem_of_here.
        -- left. reflexivity.
      * injection Ha as ->. right. apply list_elem_of_here.
    + right. apply list_elem_of_further, Hin.
Qed.

Lemma anyLatest_stored (db : Db) (r : Row) :
  anyLatest db = Some r -> exists k, rows db !! k = Some r.
Proof.
  unfold anyLatest. intros H.
  destruct (newerRow_fold_in _ _ _ H) as [Hn|Hin]; [discriminate|].
  apply list_elem_of_fmap in Hin as [[k r'] [-> Hin]].
  exists k. apply elem_of_map_to_list. exact Hin.
Qed.

Lemma handler_keyed now req db : keyed db -> keyed (snd (handler now req db)).
Proof.
  intros Hk.
  destruct (handler_cases now req db) as [[-> _]|(-> & _ & _)]; [exact Hk|].
  cbn [snd]. intros k r. rewrite upsert_rows.
  intros [[<- <-]|[_ Hr]]%lookup_insert_Some; [reflexivity|].
  exact (Hk _ _ Hr).
Qed.

(** X15.  On a table whose rows are stored under their own puzzle_id, a
    LOADED answer always carries a row of the table, as it is stored;
    the row belongs to another puzzle than the one asked for exactly
    when the table has no row for the puzzle asked for; and the table
    after the request again stores every row under its own puzzle_id. *)
Theorem loaded_row_is_a_stored_row (now : Z) (req : SyncRequest) (db : Db)
    (r : Row) :
  keyed db ->
  fst (handler now req db) = Loaded r ->
  rows db !! r_puzzle_id r = Some r /\
  (r_puzzle_id r <> puzzle_id req <-> rows db !! puzzle_id req = None) /\
  keyed (snd (handler now req db)).
Proof.
  intros Hk Hl. split; [|split]; [| |apply handler_keyed, Hk].
  - revert Hl. unfold handler.
    destruct (missingFields req); [discriminate|].
    destruct (if _ : bool then anyLatest db else None) as [a|] eqn:Ea.
    + intros [= <-].
      destruct (_ && _ && _) in Ea; [|discriminate].
      destruct (anyLatest_stored _ _ Ea) as [k Hr].
      rewrite (Hk _ _ Hr). exact Hr.
    + destruct (immediate req && negb (clientHasProgress req)); [discriminate|].
      destruct (rows db !! puzzle_id req) as [l|] eqn:El.
      * destruct (clientIsNewer req (Some l)).
        -- destruct (upsert now req db). discriminate.
        -- intros [= <-]. rewrite (Hk _ _ El). exact El.
      * destruct (upsert now req db). discriminate.
  - revert Hl. unfold handler.
    destruct (missingFields req); [discriminate|].
    destruct (rows db !! puzzle_id req) as [l|] eqn:El.
    + rewrite bool_decide_eq_true_2 by eauto.
      cbn [negb]. rewrite andb_false_r. cbn [andb].
      destruct (immediate req && negb (clientHasProgress req)); [discriminate|].
      destruct (clientIsNewer req (Some l)).
      * destruct (upsert now req db). discriminate.
      * intros [= <-]. split; [|discriminate].
        intros Hne. exfalso. apply Hne. exact (Hk _ _ El).
    + destruct (if _ : bool then anyLatest db else None) as [a|] eqn:Ea.
      * intros [= <-].
        destruct (_ && _ && _) in Ea; [|discriminate].
        destruct (anyLatest_stored _ _ Ea) as [k Hr].
        split; [reflexivity|]. intros _ Heq.
        rewrite (Hk _ _ Hr) in Heq. subst k. congruence.
      * destruct (immediate req && negb (clientHasProgress req)); [discriminate|].
        destruct (upsert now req db). discriminate.
Qed.

Lemma keyed_dbWith (r : Row) : keyed (dbWith r).
Proof.
  intros k r'. unfold dbWith. cbn [rows].
  intros [<- <-]%lookup_singleton_Some. reflexivity.
Qed.

Lemma loaded_row_is_a_stored_row_witness :
  rows (dbWith (remoteRow 7 pid19 "started" oneLetter 30 (t20 - 1000)))
    !! r_puzzle_id (remoteRow 7 pid19 "started" oneLetter 30 (t20 - 1000))
  = Some (remoteRow 7 pid19 "started" oneLetter 30 (t20 - 1000)) /\
  (r_puzzle_id (remoteRow 7 pid19 "started" oneLetter 30 (t20 - 1000))
     <> puzzle_id (untouched pid20) <->
   rows (dbWith (remoteRow 7 pid19 "started" oneLetter 30 (t20 - 1000)))
     !! puzzle_id (untouched pid20) = None) /\
  keyed (snd (handler t20 (untouched pid20)
                (dbWith (remoteRow 7 pid19 "started" oneLetter 30 (t20 - 1000))))).
Proof.
  apply (loaded_row_is_a_stored_row t20 (untouched pid20)
           (dbWith (remoteRow 7 pid19 "started" oneLetter 30 (t20 - 1000)))).
  - apply keyed_dbWith.
  - reflexivity.
Defined.

(** *** Saving and fetching *)

(** X16.  What was saved is what a bulk fetch returns: after a request
    was SAVED with a log id, the table holds under the puzzle of the
    request a row with that id, and a bulk fetch that names the puzzle
    answers with that row: it carries the payload of the request and
    the server time of the save as updated_at.  The stored row is
    marked completed on the day of the save exactly when the status
    sent was complete. *)
Theorem saved_row_is_fetched (now : Z) (req : SyncRequest) (db : Db)
    (rid : Z) (ids : list string) :
  fst (handler now req db) = Saved (Some rid) ->
  puzzle_id req ∈ ids ->
  exists rp row,
    bulkHandler ids (snd (handler now req db)) = Some rp /\
    rp !! puzzle_id req = Some row /\
    rows (snd (handler now req db)) !! puzzle_id req = Some row /\
    carries row req /\ r_updated_at row = now /\
    r_id row = rid /\
    r_completed_at row =
      (if String.eqb (status req) "complete" then Some (now / MS_PER_DAY) else None).
Proof.
  intros Hsaved Hin.
  destruct (handler_cases now req db) as [[_ Hn]|(Hh & _ & _)].
  { exfalso. exact (Hn rid Hsaved). }
  rewrite Hh in *. cbn [fst snd] in *. injection Hsaved as <-.
  destruct ids as [|i ids]; [inversion Hin|].
  eexists _, _. split; [reflexivity|]. split; [|split].
  - apply map_lookup_filter_Some. split; [|exact Hin].
    rewrite upsert_rows. apply lookup_insert_eq.
  - rewrite upsert_rows. apply lookup_insert_eq.
  - repeat split.
Qed.

Lemma saved_row_is_fetched_witness :
  exists rp row,
    bulkHandler [pid19; pid20]
      (snd (handler t20 (gameState pid20 "complete" oneLetter 30 t20) emptyDb)) = Some rp /\
    rp !! puzzle_id (gameState pid20 "complete" oneLetter 30 t20) = Some row /\
    rows (snd (handler t20 (gameState pid20 "complete" oneLetter 30 t20) emptyDb))
      !! puzzle_id (gameState pid20 "complete" oneLetter 30 t20) = Some row /\
    carries row (gameState pid20 "complete" oneLetter 30 t20) /\
    r_updated_at row = t20 /\ r_id row = 1 /\
    r_completed_at row =
      (if String.eqb (status (gameState pid20 "complete" oneLetter 30 t20)) "complete"
       then Some (t20 / MS_PER_DAY) else None).
Proof.
  apply (saved_row_is_fetched t20 (gameState pid20 "complete" oneLetter 30 t20) emptyDb 1).
  - reflexivity.
  - apply list_elem_of_further, list_elem_of_here.
Defined.

End SyncMore.

(** ** More about the bulk pass and the guards *)

Module BulkMore.
Import Js Progress SyncApi User SyncSpec SyncMoreSpec FirstSync Samples FirstSyncSamples.

(** *** The body of an upload *)

Lemma truthy_or_else (a b : string) : truthy b = true -> truthy (or_else a b) = true.
Proof. intros H. unfold or_else. destruct (truthy a) eqn:E; assumption. Qed.

Lemma eqb_or_else_complete (s : string) :
  String.eqb (or_else s "not-started") "complete" = String.eqb s "complete".
Proof.
  unfold or_else, truthy.
  destruct (String.eqb_spec s ""); [subst; reflexivity|reflexivity].
Qed.

Lemma uploadBody_complete now k l :
  k <> "" -> missingFields (uploadBody now k l) = false.
Proof.
  intros Hk. unfold missingFields, uploadBody.
  cbn [puzzle_id grid_size elapsed_seconds progress_json status stringify jsonFalsy].
  rewrite (BulkFacts.truthy_ne k Hk).
  rewrite !truthy_or_else by reflexivity.
  rewrite bool_decide_eq_true_2 by eauto. reflexivity.
Qed.

Lemma uploadBody_progress now k l :
  clientHasProgress (uploadBody now k l) = localHasProgress (Some l).
Proof.
  unfold clientHasProgress, uploadBody, localHasProgress.
  cbn [progress_json stringify parseBody mbind option_bind entriesOrEmpty
       elapsed_seconds elapsedPositive status].
  cbn. rewrite eqb_or_else_complete.
  destruct (hasKeys (entries l)), (0 <? elapsedSeconds l); reflexivity.
Qed.

(** A complete body with progress, not marked immediate, is saved when
    the puzzle has no row, and saved or answered with the stored row
    when it has one. *)
Lemma handler_progress now req db :
  missingFields req = false -> clientHasProgress req = true ->
  immediate req = false ->
  handler now req db = (Saved (Some (fst (upsert now req db))), snd (upsert now req db)) \/
  (exists l0, rows db !! puzzle_id req = Some l0 /\ handler now req db = (Loaded l0, db)).
Proof.
  intros Hm Hp Hi. unfold handler. rewrite Hm, Hp, Hi. cbn [negb andb].
  rewrite andb_false_r. cbn [andb].
  destruct (rows db !! puzzle_id req) as [l0|] eqn:El.
  - destruct (clientIsNewer req (Some l0)).
    + left. destruct (upsert now req db). reflexivity.
    + right. eauto.
  - left. destruct (upsert now req db). reflexivity.
Qed.

(** *** A key with local progress and no remote row *)

Section Upload.
Variables (now : Z) (remotePuzzles : gmap string Row) (currentPuzzleId : string).
Variables (puzzleId : string) (localData : ProgressRecord).
Hypothesis Hremote : remotePuzzles !! puzzleId = None.
Hypothesis Hprogress : localHasProgress (Some localData) = true.
Hypothesis Hkey : puzzleId <> "".

Lemma bulkSyncKey_posted k (w : World) (x : SyncRequest) :
  x ∈ posted w -> x ∈ posted (snd (bulkSyncKey now remotePuzzles k w)).
Proof.
  intros Hx. unfold bulkSyncKey.
  destruct (remotePuzzles !! k) as [r|].
  - destruct (remoteEntries r); [|exact Hx].
    destruct (updateLocalPuzzleData k r (localStore w)); exact Hx.
  - destruct (localHasProgress (getLocalPuzzleData k (localStore w))); [|exact Hx].
    destruct (getLocalPuzzleData k (localStore w)) as [l|]; [|exact Hx].
    destruct (handler now (uploadBody now k l) (server w)) as [res db].
    destruct res; cbn; apply list_elem_of_further, Hx.
Qed.

Lemma upload_turn w :
  pending now puzzleId localData w ->
  localStore (snd (bulkSyncKey now remotePuzzles puzzleId w)) = localStore w /\
  uploaded now puzzleId localData (snd (bulkSyncKey now remotePuzzles puzzleId w)).
Proof.
  intros [Hl Hs]. unfold bulkSyncKey. rewrite Hremote.
  unfold getLocalPuzzleData, window_getPuzzleProgressRecord, App.getPuzzleProgressRecord.
  rewrite (BulkFacts.truthy_ne _ Hkey), Hl, Hprogress.
  pose proof (uploadBody_complete now puzzleId localData Hkey) as Hm.
  pose proof (uploadBody_progress now puzzleId localData) as Hp.
  rewrite Hprogress in Hp.
  destruct (handler_progress now (uploadBody now puzzleId localData) (server w) Hm Hp eq_refl)
    as [Hh|(l0 & Hl0 & Hh)]; rewrite Hh.
  - cbn. split; [reflexivity|]. split; [|apply list_elem_of_here].
    eexists. split; [apply lookup_insert_eq|]. repeat split.
  - cbn. split; [reflexivity|]. split; [|apply list_elem_of_here].
    cbn [puzzle_id uploadBody] in Hl0.
    destruct Hs as [Hnone|[(row & Hrow & Hgood) _]]; [congruence|].
    exists row. split; [exact Hrow|exact Hgood].
Qed.

Lemma other_turn k w :
  k <> puzzleId -> pending now puzzleId localData w ->
  pending now puzzleId localData (snd (bulkSyncKey now remotePuzzles k w)) /\
  (uploaded now puzzleId localData w -> uploaded now puzzleId localData (snd (bulkSyncKey now remotePuzzles k w))).
Proof.
  intros Hne [Hl Hs].
  assert (Hu : uploaded now puzzleId localData w -> uploaded now puzzleId localData (snd (bulkSyncKey now remotePuzzles k w))).
  { intros [(row & Hrow & Hgood) Hx]. split.
    - exists row. rewrite BulkFacts.bulkSyncKey_server by (left; exact Hne).
      split; [exact Hrow|exact Hgood].
    - apply bulkSyncKey_posted, Hx. }
  split; [|exact Hu]. split.
  - rewrite BulkFacts.bulkSyncKey_local_other by exact Hne. exact Hl.
  - destruct Hs as [Hnone|Hup]; [left|right; exact (Hu Hup)].
    rewrite BulkFacts.bulkSyncKey_server by (left; exact Hne). exact Hnone.
Qed.

Lemma any_turn k w :
  pending now puzzleId localData w ->
  pending now puzzleId localData (snd (bulkSyncKey now remotePuzzles k w)) /\
  (k = puzzleId \/ uploaded now puzzleId localData w -> uploaded now puzzleId localData (snd (bulkSyncKey now remotePuzzles k w))).
Proof.
  intros Hp. destruct (decide (k = puzzleId)) as [->|Hne].
  - destruct (upload_turn w Hp) as [Hl Hu]. split; [|intros _; exact Hu].
    split; [rewrite Hl; exact (proj1 Hp)|right; exact Hu].
  - destruct (other_turn k w Hne Hp) as [Hp' Hu]. split; [exact Hp'|].
    intros [->|H]; [contradiction|exact (Hu H)].
Qed.

Lemma upload_pass ids p :
  pending now puzzleId localData (world p) ->
  (puzzleId ∈ ids \/ uploaded now puzzleId localData (world p)) ->
  let p' := fold_left (bulkTurn now remotePuzzles currentPuzzleId) ids p in
  localStore (world p') !! puzzleId = Some localData /\ uploaded now puzzleId localData (world p').
Proof.
  revert p. induction ids as [|k ids IH]; intros p Hp Hc; cbn.
  - destruct Hc as [Hin|Hu]; [inversion Hin|]. split; [exact (proj1 Hp)|exact Hu].
  - destruct (any_turn k (world p) Hp) as [Hp' Hu].
    apply IH; rewrite BulkFacts.bulkTurn_world; [exact Hp'|].
    destruct Hc as [Hin|H].
    + apply elem_of_cons in Hin as [->|Hin]; [right; apply Hu; left; reflexivity|left; exact Hin].
    + right. apply Hu. right. exact H.
Qed.

End Upload.

Lemma bulkHandler_absent ids db k rp :
  bulkHandler ids db = Some rp -> rows db !! k = None -> rp !! k = None.
Proof.
  unfold bulkHandler. destruct ids as [|i ids]; [discriminate|].
  intros [= <-] Hr. apply map_lookup_filter_None. left. exact Hr.
Qed.

(** The part of the world that the end of the pass does not touch. *)
Lemma bulkSyncAllPuzzles_shape now ids cur w rp :
  authenticated w = true -> isBulkSyncing w = false ->
  bulkHandler ids (server w) = Some rp ->
  let p := fold_left (bulkTurn now rp cur) ids
             {| world := setGuards w true (isInitializing w) (hasLoadedInitialProgress w);
                downloadedCount := 0; uploadedCount := 0;
                currentPuzzleDownloaded := false |} in
  let w' := bulkSyncAllPuzzles now ids cur w in
  localStore w' = localStore (world p) /\ server w' = server (world p) /\
  posted w' = posted (world p) /\
  authenticated w' = authenticated (world p) /\
  isInitializing w' = isInitializing (world p) /\
  isBulkSyncing w' = true /\ hasLoadedInitialProgress w' = true.
Proof.
  intros Ha Hb Hrp. unfold bulkSyncAllPuzzles. rewrite Ha, Hb, Hrp. cbn [negb].
  destruct (_ && truthy cur); [|cbn; repeat split].
  destruct (getLocalPuzzleData cur _); cbn; repeat split.
Qed.

(** X17.  A signed-in client that starts a bulk pass with local progress
    for a puzzle of the list that has no row on the server, ends the
    pass with a row for it on the server that holds the local entries,
    elapsed seconds and status (not-started for an empty status), was
    written at the time of the pass, and was posted in the body built
    from the local record; the local record is as it was. *)
Theorem bulk_uploads_local_progress (now : Z) (puzzleIds : list string)
    (currentPuzzleId : string) (w : World) (puzzleId : string)
    (localData : ProgressRecord) :
  authenticated w = true -> isBulkSyncing w = false ->
  puzzleId ∈ puzzleIds -> puzzleId <> "" ->
  rows (server w) !! puzzleId = None ->
  localStore w !! puzzleId = Some localData ->
  localHasProgress (Some localData) = true ->
  let w' := bulkSyncAllPuzzles now puzzleIds currentPuzzleId w in
  localStore w' !! puzzleId = Some localData /\
  (exists row, rows (server w') !! puzzleId = Some row /\
     mirrors row localData /\ r_puzzle_id row = puzzleId /\ r_updated_at row = now) /\
  uploadBody now puzzleId localData ∈ posted w'.
Proof.
  intros Ha Hb Hin Hk Hrow Hl Hp.
  destruct (bulkHandler puzzleIds (server w)) as [rp|] eqn:Hrp.
  2:{ destruct puzzleIds; [inversion Hin|discriminate]. }
  destruct (bulkSyncAllPuzzles_shape now puzzleIds currentPuzzleId w rp Ha Hb Hrp)
    as (Hls & Hsv & Hpo & _).
  cbn zeta. rewrite Hls, Hsv, Hpo.
  apply (upload_pass now rp currentPuzzleId puzzleId localData
           (bulkHandler_absent _ _ _ _ Hrp Hrow) Hp Hk).
  - split; [exact Hl|left; exact Hrow].
  - left. exact Hin.
Qed.

Lemma bulk_uploads_local_progress_witness :
  let w' := bulkSyncAllPuzzles (t20 + 60000) [pid19; pid20] pid20
              (freshWorld emptyDb
                 {[ pid20 := localRecord pid20 "started" oneLetter 30 (t20 + 9000) ]}) in
  localStore w' !! pid20 = Some (localRecord pid20 "started" oneLetter 30 (t20 + 9000)) /\
  (exists row, rows (server w') !! pid20 = Some row /\
     mirrors row (localRecord pid20 "started" oneLetter 30 (t20 + 9000)) /\
     r_puzzle_id row = pid20 /\ r_updated_at row = t20 + 60000) /\
  uploadBody (t20 + 60000) pid20 (localRecord pid20 "started" oneLetter 30 (t20 + 9000))
    ∈ posted w'.
Proof.
  apply (bulk_uploads_local_progress (t20 + 60000) [pid19; pid20] pid20
           (freshWorld emptyDb
              {[ pid20 := localRecord pid20 "started" oneLetter 30 (t20 + 9000) ]})
           pid20 (localRecord pid20 "started" oneLetter 30 (t20 + 9000))).
  - reflexivity.
  - reflexivity.
  - apply list_elem_of_further, list_elem_of_here.
  - discriminate.
  - reflexivity.
  - reflexivity.
  - reflexivity.
Defined.

(** *** Keys outside the list *)

Lemma pass_frame now rp cur (k : string) ids p :
  k ∉ ids ->
  let p' := fold_left (bulkTurn now rp cur) ids p in
  localStore (world p') !! k = localStore (world p) !! k /\
  rows (server (world p')) !! k = rows (server (world p)) !! k.
Proof.
  revert p. induction ids as [|i ids IH]; intros p Hk; cbn.
  - split; reflexivity.
  - apply not_elem_of_cons in Hk as [Hne Hk].
    destruct (IH (bulkTurn now rp cur p i) Hk) as [-> ->].
    rewrite BulkFacts.bulkTurn_world.
    rewrite BulkFacts.bulkSyncKey_local_other by congruence.
    rewrite BulkFacts.bulkSyncKey_server by (left; congruence).
    split; reflexivity.
Qed.

(** X18.  A bulk pass only touches the puzzles of its list: for a key
    that is not in the list, the local record and the row on the server
    are after the pass what they were before it. *)
Theorem bulk_pass_leaves_other_keys (now : Z) (puzzleIds : list string)
    (currentPuzzleId : string) (w : World) (k : string) :
  k ∉ puzzleIds ->
  let w' := bulkSyncAllPuzzles now puzzleIds currentPuzzleId w in
  localStore w' !! k = localStore w !! k /\
  rows (server w') !! k = rows (server w) !! k.
Proof.
  intros Hk. cbn zeta.
  destruct (authenticated w) eqn:Ha;
    [|unfold bulkSyncAllPuzzles; rewrite Ha; split; reflexivity].
  destruct (isBulkSyncing w) eqn:Hb;
    [unfold bulkSyncAllPuzzles; rewrite Ha, Hb; split; reflexivity|].
  destruct (bulkHandler puzzleIds (server w)) as [rp|] eqn:Hrp;
    [|unfold bulkSyncAllPuzzles; rewrite Ha, Hb, Hrp; split; reflexivity].
  destruct (bulkSyncAllPuzzles_shape now puzzleIds currentPuzzleId w rp Ha Hb Hrp)
    as (-> & -> & _).
  exact (pass_frame now rp currentPuzzleId k puzzleIds
           {| world := setGuards w true (isInitializing w) (hasLoadedInitialProgress w);
              downloadedCount := 0; uploadedCount := 0;
              currentPuzzleDownloaded := false |} Hk).
Qed.

Lemma bulk_pass_leaves_other_keys_witness :
  let w' := bulkSyncAllPuzzles (t20 + 60000) [pid20] pid20
              (freshWorld (dbWith (remoteRow 7 pid19 "started" ∅ 10 t20))
                 {[ pid19 := localRecord pid19 "started" oneLetter 30 (t20 + 9000) ]}) in
  localStore w' !! pid19
    = localStore
        (freshWorld (dbWith (remoteRow 7 pid19 "started" ∅ 10 t20))
           {[ pid19 := localRecord pid19 "started" oneLetter 30 (t20 + 9000) ]}) !! pid19 /\
  rows (server w') !! pid19
    = rows (server
        (freshWorld (dbWith (remoteRow 7 pid19 "started" ∅ 10 t20))
           {[ pid19 := localRecord pid19 "started" oneLetter 30 (t20 + 9000) ]})) !! pid19.
Proof.
  apply (bulk_pass_leaves_other_keys (t20 + 60000) [pid20] pid20
           (freshWorld (dbWith (remoteRow 7 pid19 "started" ∅ 10 t20))
              {[ pid19 := localRecord pid19 "started" oneLetter 30 (t20 + 9000) ]}) pid19).
  intros Hin. apply list_elem_of_singleton in Hin. discriminate Hin.
Defined.

(** *** The guards *)

Lemma bulkSyncKey_flags now rp k w :
  let w' := snd (bulkSyncKey now rp k w) in
  authenticated w' = authenticated w /\ isBulkSyncing w' = isBulkSyncing w /\
  isInitializing w' = isInitializing w /\
  hasLoadedInitialProgress w' = hasLoadedInitialProgress w.
Proof.
  unfold bulkSyncKey.
  destruct (rp !! k) as [r|].
  - destruct (remoteEntries r); [|repeat split].
    destruct (updateLocalPuzzleData k r (localStore w)); repeat split.
  - destruct (localHasProgress (getLocalPuzzleData k (localStore w))); [|repeat split].
    destruct (getLocalPuzzleData k (localStore w)) as [l|]; [|repeat split].
    destruct (handler now (uploadBody now k l) (server w)) as [res db].
    destruct res; repeat split.
Qed.

Lemma pass_flags now rp cur ids p :
  let p' := fold_left (bulkTurn now rp cur) ids p in
  authenticated (world p') = authenticated (world p) /\
  isInitializing (world p') = isInitializing (world p).
Proof.
  revert p. induction ids as [|i ids IH]; intros p; cbn.
  - split; reflexivity.
  - destruct (IH (bulkTurn now rp cur p i)) as [-> ->].
    rewrite BulkFacts.bulkTurn_world.
    destruct (bulkSyncKey_flags now rp i (world p)) as (-> & _ & -> & _).
    split; reflexivity.
Qed.

(** X19.  A bulk pass that runs (signed-in client, no pass under way, a
    non-empty list) ends with the latch set and the initial load marked
    as done.  While the latch is set, a second bulk pass and every
    incremental sync return without doing anything; once the timer of
    the finally block has released the guards, the guards of the
    incremental sync let requests through and the client no longer
    counts as initialising. *)
Theorem bulk_pass_holds_the_latch (now : Z) (puzzleIds : list string)
    (currentPuzzleId : string) (w : World) :
  authenticated w = true -> isBulkSyncing w = false -> puzzleIds <> [] ->
  let w1 := bulkSyncAllPuzzles now puzzleIds currentPuzzleId w in
  isBulkSyncing w1 = true /\ hasLoadedInitialProgress w1 = true /\
  (forall now' ids' cur', bulkSyncAllPuzzles now' ids' cur' w1 = w1) /\
  (forall now' isImmediate isInitialLoad data nowData,
     syncProgressLogic now' isImmediate isInitialLoad data nowData w1 = w1) /\
  ready (releaseGuards w1) /\ isInitializing (releaseGuards w1) = false.
Proof.
  intros Ha Hb Hne. cbn zeta.
  destruct (bulkHandler puzzleIds (server w)) as [rp|] eqn:Hrp.
  2:{ destruct puzzleIds; [contradiction|discriminate]. }
  destruct (bulkSyncAllPuzzles_shape now puzzleIds currentPuzzleId w rp Ha Hb Hrp)
    as (_ & _ & _ & Hauth & _ & Hbulk & Hloaded).
  rewrite (proj1 (pass_flags now rp currentPuzzleId puzzleIds _)) in Hauth.
  cbn [world setGuards authenticated] in Hauth. rewrite Ha in Hauth.
  split; [exact Hbulk|]. split; [exact Hloaded|]. split; [|split; [|split]].
  - intros now' ids' cur'. unfold bulkSyncAllPuzzles at 1.
    rewrite Hauth, Hbulk. reflexivity.
  - intros now' isImmediate isInitialLoad data nowData.
    unfold syncProgressLogic. rewrite Hauth, Hbulk. reflexivity.
  - unfold ready, releaseGuards. cbn. rewrite Hauth, Hloaded. repeat split.
  - reflexivity.
Qed.

Lemma bulk_pass_holds_the_latch_witness :
  let w1 := bulkSyncAllPuzzles (t20 + 60000) [pid19; pid20] pid20
              (freshWorld emptyDb ∅) in
  isBulkSyncing w1 = true /\ hasLoadedInitialProgress w1 = true /\
  (forall now' ids' cur', bulkSyncAllPuzzles now' ids' cur' w1 = w1) /\
  (forall now' isImmediate isInitialLoad data nowData,
     syncProgressLogic now' isImmediate isInitialLoad data nowData w1 = w1) /\
  ready (releaseGuards w1) /\ isInitializing (releaseGuards w1) = false.
Proof.
  apply (bulk_pass_holds_the_latch (t20 + 60000) [pid19; pid20] pid20
           (freshWorld emptyDb ∅)).
  - reflexivity.
  - reflexivity.
  - discriminate.
Defined.

(** *** What an incremental sync can do *)

(** X20.  An incremental sync posts at most one body and makes at most
    one call of applyLoadedGameState.  It either leaves the server and
    the list of posted bodies as they were, or it posts exactly one
    body, the state of the host with the immediate flag of the call,
    and the server is what the sync endpoint makes of that body.  It
    either makes no call of applyLoadedGameState, and then the local
    progress store is as it was (user.js itself writes nothing into
    it), or it makes exactly one, with the row of a LOADED answer to the
    body it posted. *)
Theorem incremental_sync_posts_at_most_once (now : Z)
    (isImmediate isInitialLoad : bool) (data nowData : option SyncRequest)
    (w : World) :
  let w' := syncProgressLogic now isImmediate isInitialLoad data nowData w in
  ((posted w' = posted w /\ server w' = server w) \/
   (exists d, data = Some d /\
      posted w' = withImmediate d isImmediate :: posted w /\
      server w' = snd (handler now (withImmediate d isImmediate) (server w)))) /\
  ((applied w' = applied w /\ localStore w' = localStore w) \/
   (exists d r, data = Some d /\
      fst (handler now (withImmediate d isImmediate) (server w)) = Loaded r /\
      (isInitialLoad = true \/ r_puzzle_id r = nowPuzzleId d nowData) /\
      applied w' = ApplyLoaded r :: applied w)).
Proof.
  cbn zeta. unfold syncProgressLogic.
  destruct (negb (authenticated w)); [split; left; split; reflexivity|].
  destruct (isBulkSyncing w); [split; left; split; reflexivity|].
  destruct (negb (hasLoadedInitialProgress w)); [split; left; split; reflexivity|].
  destruct data as [d|]; [|split; left; split; reflexivity].
  destruct (negb (truthy (puzzle_id d)) || String.eqb (puzzle_id d) "unknown");
    [split; left; split; reflexivity|].
  destruct (isImmediate && negb (hasProgress d)); [split; left; split; reflexivity|].
  destruct (handler now (withImmediate d isImmediate) (server w)) as [res db] eqn:Hh.
  assert (Hdb : db = snd (handler now (withImmediate d isImmediate) (server w)))
    by (rewrite Hh; reflexivity).
  unfold receive. fold (nowPuzzleId d nowData). destruct res as [|row|rid].
  - cbn. split; [right; exists d; auto|left; split; reflexivity].
  - destruct (String.eqb_spec (r_puzzle_id row) (nowPuzzleId d nowData)) as [E|E].
    + rewrite orb_true_r. cbn. split; [right; exists d; auto|].
      right. exists d, row.
      split; [reflexivity|]. split; [rewrite Hh; reflexivity|].
      split; [right; exact E|reflexivity].
    + rewrite orb_false_r. destruct isInitialLoad; cbn.
      * split; [right; exists d; auto|]. right. exists d, row.
        split; [reflexivity|]. split; [rewrite Hh; reflexivity|].
        split; [left|]; reflexivity.
      * split; [right; exists d; auto|left; split; reflexivity].
  - cbn. split; [right; exists d; auto|left; split; reflexivity].
Qed.

(** *** The first synchronisation *)

Lemma poll_waits now host w (n : nat) :
  forall remaining retry,
    (forall m, (retry <= m < retry + n)%nat -> appReady (host m) = false) ->
    (n <= remaining)%nat ->
    poll remaining retry now host w = poll (remaining - n) (retry + n) now host w.
Proof.
  induction n as [|n IH]; intros remaining retry Hwait Hle.
  - rewrite Nat.sub_0_r, Nat.add_0_r. reflexivity.
  - destruct remaining as [|remaining]; [lia|].
    cbn [poll]. rewrite (Hwait retry) by lia.
    rewrite (IH remaining (S retry)); [|intros m Hm; apply Hwait; lia|lia].
    f_equal; lia.
Qed.

(** X21.  scheduleFirstSync polls the host up to 21 times (attempts 0 to
    20).  When the host is not ready at the attempts before [n]: if
    attempt [n] is one of the 21 and finds the host ready (a game state
    with a puzzle_id and a non-empty list of weekly puzzles), the result
    is that of the bulk pass started at that attempt, on that list; if
    [n] is beyond the last attempt, nothing was started and the world is
    as it was. *)
Theorem first_sync_starts_when_ready (now : nat -> Z) (host : nat -> Host)
    (w : World) (n : nat) :
  (forall m, (m < n)%nat -> appReady (host m) = false) ->
  ((n <= 20)%nat -> appReady (host n) = true ->
     scheduleFirstSync now host w
     = bulkSyncAllPuzzles (now n) (weeklyIds (host n)) (screenAtPass (host n)) w) /\
  ((20 < n)%nat -> scheduleFirstSync now host w = w).
Proof.
  intros Hwait. unfold scheduleFirstSync. split.
  - intros Hn Hready.
    rewrite (poll_waits now host w n 21 0); [|intros m Hm; apply Hwait; lia|lia].
    destruct (21 - n)%nat as [|r] eqn:Er; [lia|].
    cbn [poll Nat.add]. rewrite Hready. reflexivity.
  - intros Hn.
    rewrite (poll_waits now host w 21 21 0); [|intros m Hm; apply Hwait; lia|lia].
    reflexivity.
Qed.

Lemma first_sync_starts_when_ready_witness :
  ((2 <= 20)%nat -> appReady (hostAfter 2 2) = true ->
     scheduleFirstSync (fun n => t20 + 250 * Z.of_nat n) (hostAfter 2)
       (freshWorld emptyDb ∅)
     = bulkSyncAllPuzzles ((fun n => t20 + 250 * Z.of_nat n) 2%nat)
         (weeklyIds (hostAfter 2 2)) (screenAtPass (hostAfter 2 2))
         (freshWorld emptyDb ∅)) /\
  ((20 < 2)%nat ->
     scheduleFirstSync (fun n => t20 + 250 * Z.of_nat n) (hostAfter 2)
       (freshWorld emptyDb ∅) = freshWorld emptyDb ∅).
Proof.
  apply (first_sync_starts_when_ready (fun n => t20 + 250 * Z.of_nat n) (hostAfter 2)
           (freshWorld emptyDb ∅) 2).
  intros m Hm. destruct m as [|[|m]]; [reflexivity|reflexivity|lia].
Defined.

End BulkMore.

(** ** More about app.js: the timer, the store and the keys *)

Module AppMore.
Import Js Progress App AppKeys StatsSpec Samples.

(** *** The timer *)

Lemma stopTimer_elapsed now later st :
  getCurrentElapsedSeconds later (stopTimer now st) = getCurrentElapsedSeconds now st.
Proof.
  unfold getCurrentElapsedSeconds, stopTimer. cbn.
  destruct (timerStartTimestamp st =? 0); lia.
Qed.

Lemma pauseActiveTimer_elapsed now later st :
  getCurrentElapsedSeconds later (pauseActiveTimer now st)
  = getCurrentElapsedSeconds now st.
Proof.
  unfold pauseActiveTimer.
  destruct (timerRunning st) eqn:Er; cbn [orb].
  - exact (stopTimer_elapsed now later st).
  - destruct (timerStartTimestamp st =? 0) eqn:E0; cbn [negb].
    + unfold getCurrentElapsedSeconds. cbn. rewrite E0. reflexivity.
    + exact (stopTimer_elapsed now later st).
Qed.

(** X22.  Stopping or pausing the timer loses no time and freezes it:
    the elapsed seconds read at any later time are those at the time of
    the stop.  Pausing a second time changes nothing, and the elapsed
    seconds are never below the accumulated ones, whatever the clock
    says. *)
Theorem stopped_timer_keeps_elapsed (now later : Z) (st : State) :
  getCurrentElapsedSeconds later (stopTimer now st)
    = getCurrentElapsedSeconds now st /\
  getCurrentElapsedSeconds later (pauseActiveTimer now st)
    = getCurrentElapsedSeconds now st /\
  pauseActiveTimer later (pauseActiveTimer now st) = pauseActiveTimer now st /\
  timerAccumulatedSeconds st <= getCurrentElapsedSeconds now st.
Proof.
  split; [apply stopTimer_elapsed|]. split; [apply pauseActiveTimer_elapsed|]. split.
  - unfold pauseActiveTimer.
    destruct (timerRunning st) eqn:Er; cbn [orb].
    + cbn. destruct (puzzleCompleted st); reflexivity.
    + destruct (timerStartTimestamp st =? 0) eqn:E0; cbn [negb].
      * cbn. rewrite Er, E0. cbn. destruct (puzzleCompleted st); reflexivity.
      * cbn. destruct (puzzleCompleted st); reflexivity.
  - unfold getCurrentElapsedSeconds.
    destruct (timerStartTimestamp st =? 0); lia.
Qed.

(** *** The store *)

(** X23.  The three store functions agree with each other: a record
    saved under a non-empty id is the one read back under that id, a
    record with an empty id is not stored and a read with an empty key
    finds nothing; a deleted key reads as absent; and saving or deleting
    under one key does not change what is read under another. *)
Theorem store_round_trip (record : ProgressRecord) (k : string)
    (store : gmap string ProgressRecord) :
  getPuzzleProgressRecord (id record) (savePuzzleProgressRecord record store)
    = (if truthy (id record) then Some record else None) /\
  getPuzzleProgressRecord k (deletePuzzleProgressRecord k store) = None /\
  (k <> id record ->
     getPuzzleProgressRecord k (savePuzzleProgressRecord record store)
       = getPuzzleProgressRecord k store) /\
  (forall k', k' <> k ->
     getPuzzleProgressRecord k' (deletePuzzleProgressRecord k store)
       = getPuzzleProgressRecord k' store).
Proof.
  unfold getPuzzleProgressRecord, savePuzzleProgressRecord, deletePuzzleProgressRecord.
  split; [|split; [|split]].
  - destruct (truthy (id record)); [apply lookup_insert_eq|reflexivity].
  - destruct (truthy k); [apply lookup_delete_eq|reflexivity].
  - intros Hne. destruct (truthy k); [|reflexivity].
    destruct (truthy (id record)); [|reflexivity].
    apply lookup_insert_ne. congruence.
  - intros k' Hne. destruct (truthy k'); [|reflexivity].
    destruct (truthy k); [|reflexivity].
    apply lookup_delete_ne. congruence.
Qed.

Lemma store_round_trip_witness :
  getPuzzleProgressRecord pid19
    (savePuzzleProgressRecord (localRecord pid20 "started" oneLetter 30 t20) ∅)
  = getPuzzleProgressRecord pid19 ∅.
Proof.
  apply (proj1 (proj2 (proj2 (store_round_trip
           (localRecord pid20 "started" oneLetter 30 t20) pid19 ∅)))).
  discriminate.
Defined.

(** *** Persist and restore *)

Lemma resolveStatus_progress st :
  resolveStatus "" true st <> "not-started" /\
  String.eqb (resolveStatus "" true st) "complete" = puzzleCompleted st.
Proof.
  unfold resolveStatus. cbn.
  destruct (puzzleCompleted st); [split; [discriminate|reflexivity]|].
  destruct (negb (timerRunning st) && (timerPaused st || true));
    split; (discriminate || reflexivity).
Qed.

Lemma pauseActiveTimer_fields now st :
  activeKey (pauseActiveTimer now st) = activeKey st /\
  activeEntries (pauseActiveTimer now st) = activeEntries st /\
  puzzleCompleted (pauseActiveTimer now st) = puzzleCompleted st.
Proof.
  unfold pauseActiveTimer.
  destruct (timerRunning st || negb (timerStartTimestamp st =? 0));
    repeat split.
Qed.

Lemma persist_store_other now statusOverride targetKey st k :
  k <> or_else targetKey (activeStorageKey st) ->
  progressStore (persistActivePuzzle now statusOverride targetKey st) !! k
  = progressStore st !! k.
Proof.
  intros Hk. unfold persistActivePuzzle.
  destruct (activeEntries st) as [e|]; [|reflexivity].
  destruct (negb (truthy (or_else targetKey (activeStorageKey st)))); [reflexivity|].
  destruct (String.eqb (resolveStatus _ _ _) "not-started");
    cbn [withStore progressStore];
    unfold deletePuzzleProgressRecord, savePuzzleProgressRecord; cbn [id];
    destruct (truthy (or_else targetKey (activeStorageKey st))); try reflexivity.
  - apply lookup_delete_ne. congruence.
  - apply lookup_insert_ne. congruence.
Qed.

Lemma restore_store key storageKey st :
  progressStore (restoreActivePuzzleProgress key storageKey st) = progressStore st.
Proof.
  unfold restoreActivePuzzleProgress.
  destruct (getPuzzleProgressRecord storageKey (progressStore st)); reflexivity.
Qed.

(** Leaving a puzzle with progress stores it, paused or complete. *)
Lemma switch_persists now key previousStorageKey storageKey st grid :
  String.eqb key (activeKey st) = false -> activeKey st <> "" ->
  previousStorageKey <> "" ->
  activeEntries st = Some grid ->
  hasKeys grid || (0 <? getCurrentElapsedSeconds now st) = true ->
  let st' :=
    performSetActivePuzzle now key false false previousStorageKey storageKey
      true st in
  activeKey st' = key /\
  progressStore st' !! previousStorageKey
  = Some {| id := previousStorageKey;
            Progress.status := if puzzleCompleted st then "complete" else "paused";
            entries := grid;
            elapsedSeconds := getCurrentElapsedSeconds now st;
            updatedAt := now |}.
Proof.
  intros Hkey Hact Hprev He Hp. cbn zeta. unfold performSetActivePuzzle.
  rewrite Hkey. cbn [negb andb].
  destruct (pauseActiveTimer_fields now st) as (Hk1 & He1 & Hc1).
  rewrite Hk1, (BulkFacts.truthy_ne _ Hact), Hc1. cbn [andb negb].
  split.
  - unfold restoreActivePuzzleProgress.
    destruct (getPuzzleProgressRecord storageKey _); reflexivity.
  - rewrite restore_store. unfold resetTimerState. cbn [showPuzzle progressStore].
    unfold persistActivePuzzle. rewrite He1, He.
    unfold or_else. rewrite (BulkFacts.truthy_ne _ Hprev). cbn [negb].
    cbv zeta. rewrite !(pauseActiveTimer_elapsed now now st), Hp.
    assert (Hs : resolveStatus (if puzzleCompleted st then "complete" else "paused")
                   true (pauseActiveTimer now st)
                 = if puzzleCompleted st then "complete" else "paused").
    { unfold resolveStatus. destruct (puzzleCompleted st); reflexivity. }
    rewrite Hs.
    assert (String.eqb (if puzzleCompleted st then "complete" else "paused")
              "not-started" = false) as -> by (destruct (puzzleCompleted st); reflexivity).
    cbn [withStore progressStore]. unfold savePuzzleProgressRecord. cbn [id].
    rewrite (BulkFacts.truthy_ne _ Hprev). apply lookup_insert_eq.
Qed.

(** Coming back to a stored puzzle shows its record. *)
Lemma switch_restores now later key previousStorageKey storageKey st record :
  String.eqb key (activeKey st) = false ->
  storageKey <> "" -> previousStorageKey <> "" ->
  storageKey <> previousStorageKey ->
  progressStore st !! storageKey = Some record ->
  let st' :=
    performSetActivePuzzle now key false false previousStorageKey storageKey
      true st in
  activeKey st' = key /\
  activeEntries st' = Some (entries record) /\
  getCurrentElapsedSeconds later st' = Z.max 0 (elapsedSeconds record) /\
  timerRunning st' = false /\
  progressStore st' !! storageKey = Some record.
Proof.
  intros Hkey Hsk Hprev Hne Hrec. cbn zeta. unfold performSetActivePuzzle.
  rewrite Hkey. cbn [negb andb].
  set (st2 := if _ : bool then _ else _).
  assert (Hst2 : progressStore st2 !! storageKey = Some record).
  { unfold st2. destruct (_ && _).
    - rewrite persist_store_other.
      + rewrite AppFacts.pauseActiveTimer_store. exact Hrec.
      + unfold or_else. rewrite (BulkFacts.truthy_ne _ Hprev). exact Hne.
    - rewrite AppFacts.pauseActiveTimer_store. exact Hrec. }
  unfold restoreActivePuzzleProgress, getPuzzleProgressRecord.
  rewrite (BulkFacts.truthy_ne _ Hsk).
  unfold resetTimerState. cbn [showPuzzle progressStore]. rewrite Hst2.
  cbn [showPuzzle activeKey activeEntries timerRunning progressStore].
  split; [reflexivity|]. split; [reflexivity|]. split; [|split; [reflexivity|exact Hst2]].
  unfold getCurrentElapsedSeconds. cbn. lia.
Qed.

(** X24.  A puzzle with progress survives a switch to another puzzle and
    back: after performSetActivePuzzle to another key and then back to
    the first one (distinct, non-empty storage keys), the grid shows the
    entries it had, the timer is stopped and reads at any later time the
    elapsed seconds at the moment of the first switch (not below zero),
    and the store holds for the puzzle those entries and seconds with
    the status complete or paused, according to the completed flag at
    the first switch. *)
Theorem switched_puzzle_is_restored (now later after : Z)
    (keyB storageKeyA storageKeyB : string) (st : State)
    (grid : gmap string string) :
  activeKey st <> "" -> keyB <> activeKey st ->
  storageKeyA <> "" -> storageKeyB <> "" -> storageKeyA <> storageKeyB ->
  activeEntries st = Some grid ->
  hasKeys grid || (0 <? getCurrentElapsedSeconds now st) = true ->
  let away :=
    performSetActivePuzzle now keyB false false storageKeyA storageKeyB true st in
  let back :=
    performSetActivePuzzle later (activeKey st) false false storageKeyB
      storageKeyA true away in
  activeKey back = activeKey st /\
  activeEntries back = Some grid /\
  getCurrentElapsedSeconds after back = Z.max 0 (getCurrentElapsedSeconds now st) /\
  timerRunning back = false /\
  exists record,
    progressStore back !! storageKeyA = Some record /\
    entries record = grid /\
    elapsedSeconds record = getCurrentElapsedSeconds now st /\
    Progress.status record = (if puzzleCompleted st then "complete" else "paused").
Proof.
  intros Hact HB HkA HkB Hne He Hp away back.
  assert (Hkey : String.eqb keyB (activeKey st) = false)
    by (destruct (String.eqb_spec keyB (activeKey st)); [contradiction|reflexivity]).
  destruct (switch_persists now keyB storageKeyA storageKeyB st grid
              Hkey Hact HkA He Hp) as [Hk1 Hs1].
  fold away in Hk1, Hs1.
  assert (Hkey2 : String.eqb (activeKey st) (activeKey away) = false).
  { rewrite Hk1. destruct (String.eqb_spec (activeKey st) keyB); [congruence|reflexivity]. }
  destruct (switch_restores later after (activeKey st) storageKeyB storageKeyA away _
              Hkey2 HkA HkB Hne Hs1) as (R1 & R2 & R3 & R4 & R5).
  fold back in R1, R2, R3, R4, R5.
  split; [exact R1|]. split; [exact R2|]. split; [exact R3|]. split; [exact R4|].
  eexists. split; [exact R5|]. repeat split.
Qed.

(** One letter after thirty seconds on the puzzle of the 20th, a look
    at the puzzle of the 19th, and back. *)
Lemma switched_puzzle_is_restored_witness :
  let away :=
    performSetActivePuzzle t20 "6x7" false false pid20 "2025-11-20-6x7" true
      (appState oneLetter 30 ∅) in
  let back :=
    performSetActivePuzzle (t20 + 60000) (activeKey (appState oneLetter 30 ∅))
      false false "2025-11-20-6x7" pid20 true away in
  activeKey back = activeKey (appState oneLetter 30 ∅) /\
  activeEntries back = Some oneLetter /\
  getCurrentElapsedSeconds (t20 + 90000) back
    = Z.max 0 (getCurrentElapsedSeconds t20 (appState oneLetter 30 ∅)) /\
  timerRunning back = false /\
  exists record,
    progressStore back !! pid20 = Some record /\
    entries record = oneLetter /\
    elapsedSeconds record = getCurrentElapsedSeconds t20 (appState oneLetter 30 ∅) /\
    Progress.status record
      = (if puzzleCompleted (appState oneLetter 30 ∅) then "complete" else "paused").
Proof.
  apply (switched_puzzle_is_restored t20 (t20 + 60000) (t20 + 90000) "6x7" pid20
           "2025-11-20-6x7" (appState oneLetter 30 ∅) oneLetter).
  - discriminate.
  - discriminate.
  - discriminate.
  - discriminate.
  - discriminate.
  - reflexivity.
  - reflexivity.
Defined.

(** X25.  After the persist step, the status cache and the store agree
    on the persisted key: the cache has an entry exactly when the store
    has a record, and the entry is the status of the record with its
    elapsed seconds, not below zero. *)
Theorem cache_follows_store (now : Z) (statusOverride targetKey : string)
    (st : State) (grid : gmap string string) :
  activeEntries st = Some grid ->
  or_else targetKey (activeStorageKey st) <> "" ->
  let st' := persistActivePuzzle now statusOverride targetKey st in
  puzzleStatusCache st' !! or_else targetKey (activeStorageKey st)
  = cacheEntryOf <$> progressStore st' !! or_else targetKey (activeStorageKey st).
Proof.
  intros He Hk. cbn zeta.
  pose proof (BulkFacts.truthy_ne _ Hk) as Ht.
  unfold persistActivePuzzle. rewrite He, Ht. cbn [negb].
  destruct (String.eqb (resolveStatus _ _ _) "not-started") eqn:Es.
  - cbn [withStore progressStore puzzleStatusCache].
    unfold deletePuzzleProgressRecord, setPuzzleStatusCacheEntry. rewrite Ht.
    rewrite !lookup_delete_eq. reflexivity.
  - cbn [withStore progressStore puzzleStatusCache].
    unfold savePuzzleProgressRecord, setPuzzleStatusCacheEntry. cbn [id].
    rewrite Ht, Es, !lookup_insert_eq. reflexivity.
Qed.

Lemma cache_follows_store_witness :
  let st' := persistActivePuzzle t20 "paused" "" (appState oneLetter 30 ∅) in
  puzzleStatusCache st' !! or_else "" (activeStorageKey (appState oneLetter 30 ∅))
  = cacheEntryOf <$>
      progressStore st' !! or_else "" (activeStorageKey (appState oneLetter 30 ∅)).
Proof.
  apply (cache_follows_store t20 "paused" "" (appState oneLetter 30 ∅) oneLetter).
  - reflexivity.
  - discriminate.
Defined.

(** *** Reset *)

(** X26.  Resetting a puzzle leaves no trace of it: after
    performSetActivePuzzle with the reset option (on a key that has a
    definition, and either forced or not the active key), the store has
    no record and the status cache no entry under its storage key, the
    grid is empty, the timer reads zero at any later time, and the
    puzzle is active and not completed. *)
Theorem reset_leaves_no_trace (now later : Z) (key : string) (force : bool)
    (previousStorageKey storageKey : string) (st : State) :
  negb force && String.eqb key (activeKey st) = false ->
  storageKey <> "" ->
  let st' :=
    performSetActivePuzzle now key force true previousStorageKey storageKey
      true st in
  progressStore st' !! storageKey = None /\
  puzzleStatusCache st' !! storageKey = None /\
  activeEntries st' = Some ∅ /\
  getCurrentElapsedSeconds later st' = 0 /\
  puzzleCompleted st' = false /\
  activeKey st' = key.
Proof.
  intros Hf Hk. cbn zeta.
  pose proof (BulkFacts.truthy_ne _ Hk) as Ht.
  unfold performSetActivePuzzle. rewrite Hf. cbn [negb].
  cbn [withStore progressStore puzzleStatusCache activeEntries
       puzzleCompleted activeKey showPuzzle].
  unfold deletePuzzleProgressRecord, setPuzzleStatusCacheEntry at 1.
  rewrite Ht, !lookup_delete_eq. repeat split.
Qed.

Lemma reset_leaves_no_trace_witness :
  let st' :=
    performSetActivePuzzle t20 "5x5" true true pid20 pid20 true
      (appState oneLetter 30
         {[ pid20 := localRecord pid20 "paused" oneLetter 30 (t20 - 1000) ]}) in
  progressStore st' !! pid20 = None /\
  puzzleStatusCache st' !! pid20 = None /\
  activeEntries st' = Some ∅ /\
  getCurrentElapsedSeconds (t20 + 5000) st' = 0 /\
  puzzleCompleted st' = false /\
  activeKey st' = "5x5".
Proof.
  apply (reset_leaves_no_trace t20 (t20 + 5000) "5x5" true pid20 pid20
           (appState oneLetter 30
              {[ pid20 := localRecord pid20 "paused" oneLetter 30 (t20 - 1000) ]})).
  - reflexivity.
  - discriminate.
Defined.

(** *** Storage keys *)

Lemma dashes_app (a b : string) : dashes (a ++ b) = (dashes a + dashes b)%nat.
Proof.
  induction a as [|c a IH]; [reflexivity|].
  change (String c a ++ b) with (String c (a ++ b)). cbn [dashes].
  rewrite IH. destruct (Ascii.eqb c "-"); reflexivity.
Qed.

Lemma split_from_cons (cur s : string) :
  exists x l, split_from cur s = x :: l.
Proof.
  revert cur. induction s as [|c s IH]; intros cur; cbn; [eauto|].
  destruct (Ascii.eqb c "-"); eauto.
Qed.

Lemma last_part_split_app (cur a b : string) :
  last_part (split_from cur (a ++ String "-" b)) = last_part (split_from "" b).
Proof.
  revert cur. induction a as [|c a IH]; intros cur.
  - change ("" ++ String "-" b) with (String "-" b). cbn [split_from Ascii.eqb].
    change (Ascii.eqb "-" "-") with true. cbn iota.
    destruct (split_from_cons "" b) as (x & l & ->). reflexivity.
  - change (String c a ++ String "-" b) with (String c (a ++ String "-" b)).
    cbn [split_from]. destruct (Ascii.eqb c "-").
    + destruct (split_from_cons "" (a ++ String "-" b)) as (x & l & E).
      rewrite <- (IH ""), E. reflexivity.
    + apply IH.
Qed.

Lemma append_nil_r (s : string) : s ++ "" = s.
Proof.
  induction s as [|c s IH]; [reflexivity|].
  change (String c s ++ "") with (String c (s ++ "")). rewrite IH. reflexivity.
Qed.

Lemma append_snoc (cur s : string) (c : ascii) :
  (cur ++ String c "") ++ s = cur ++ String c s.
Proof.
  induction cur as [|x cur IH]; [reflexivity|].
  change ((String x cur ++ String c "") ++ s)
    with (String x ((cur ++ String c "") ++ s)).
  rewrite IH. reflexivity.
Qed.

Lemma split_from_plain (cur s : string) :
  dashes s = 0%nat -> split_from cur s = [cur ++ s].
Proof.
  revert cur. induction s as [|c s IH]; intros cur; cbn [split_from dashes].
  - intros _. rewrite append_nil_r. reflexivity.
  - destruct (Ascii.eqb c "-"); [discriminate|].
    intros H. rewrite (IH _ H), append_snoc. reflexivity.
Qed.

Lemma composed_key_last (normalizedDate puzzleKey : string) :
  dashes puzzleKey = 0%nat -> puzzleKey <> "" ->
  last_part (split_dash (composePuzzleStorageKey normalizedDate puzzleKey)) = puzzleKey.
Proof.
  intros Hd Hk. unfold composePuzzleStorageKey, split_dash.
  change ("-" ++ or_else puzzleKey "unknown") with (String "-" (or_else puzzleKey "unknown")).
  rewrite last_part_split_app.
  unfold or_else. rewrite (BulkFacts.truthy_ne _ Hk).
  rewrite (split_from_plain "" puzzleKey Hd). reflexivity.
Qed.

(** X27.  The storage key that app.js composes from a date and a puzzle
    key (a grid name without dashes) names its grid for the other
    modules: the upload of user.js sends the puzzle key as grid_size;
    when the date has the form YYYY-MM-DD, updateStatsOnCompletion on
    that key returns a record and stores it under the puzzle key; when
    the date is unknown the key has too few segments, and
    updateStatsOnCompletion returns null and changes nothing. *)
Theorem storage_key_names_its_grid (normalizedDate puzzleKey : string)
    (now : Z) (localData : ProgressRecord) (e : Z) (p : bool) (w : Stats.World) :
  dashes puzzleKey = 0%nat -> puzzleKey <> "" ->
  SyncApi.grid_size
    (User.uploadBody now (composePuzzleStorageKey normalizedDate puzzleKey) localData)
    = puzzleKey /\
  (dashes normalizedDate = 2%nat -> normalizedDate <> "" ->
     exists s ch,
       fst (Stats.updateStatsOnCompletion now
              (composePuzzleStorageKey normalizedDate puzzleKey) e p w) = Some (s, ch) /\
       Stats.storage
         (snd (Stats.updateStatsOnCompletion now
                 (composePuzzleStorageKey normalizedDate puzzleKey) e p w))
         !! puzzleKey = Some s) /\
  (normalizedDate = "" ->
     Stats.updateStatsOnCompletion now
       (composePuzzleStorageKey normalizedDate puzzleKey) e p w = (None, w)).
Proof.
  intros Hd Hk.
  pose proof (composed_key_last normalizedDate puzzleKey Hd Hk) as Hlast.
  assert (Hlen : forall d, length (split_dash (composePuzzleStorageKey d puzzleKey))
                 = S (S (dashes (or_else d "unknown")))).
  { intros d. rewrite StatsFacts.split_dash_length. unfold composePuzzleStorageKey.
    rewrite dashes_app.
    change ("-" ++ or_else puzzleKey "unknown") with (String "-" (or_else puzzleKey "unknown")).
    cbn [dashes]. cbn. unfold or_else at 2. rewrite (BulkFacts.truthy_ne _ Hk), Hd. lia. }
  split; [|split].
  - unfold User.uploadBody. cbn [SyncApi.grid_size]. rewrite Hlast.
    unfold or_else. rewrite (BulkFacts.truthy_ne _ Hk). reflexivity.
  - intros H2 Hne.
    assert (Hg : Stats.gridOf (composePuzzleStorageKey normalizedDate puzzleKey)
                 = Some puzzleKey).
    { unfold Stats.gridOf. rewrite Hlen, Hlast.
      unfold or_else. rewrite (BulkFacts.truthy_ne _ Hne), H2. reflexivity. }
    rewrite (StatsMore.complete_result _ _ _ _ _ _ Hg).
    rewrite (StatsFacts.complete_stored _ _ _ _ _ _ Hg).
    cbv zeta. eexists _, _. split; reflexivity.
  - intros ->. unfold Stats.updateStatsOnCompletion. rewrite Hlen. reflexivity.
Qed.

Lemma storage_key_names_its_grid_witness :
  SyncApi.grid_size
    (User.uploadBody t20 (composePuzzleStorageKey "2025-11-20" "5x5")
       (localRecord pid20 "started" oneLetter 30 t20)) = "5x5" /\
  (dashes "2025-11-20" = 2%nat -> "2025-11-20" <> "" ->
     exists s ch,
       fst (Stats.updateStatsOnCompletion t20
              (composePuzzleStorageKey "2025-11-20" "5x5") 245 true Stats.emptyWorld)
         = Some (s, ch) /\
       Stats.storage
         (snd (Stats.updateStatsOnCompletion t20
                 (composePuzzleStorageKey "2025-11-20" "5x5") 245 true Stats.emptyWorld))
         !! "5x5" = Some s) /\
  ("2025-11-20" = "" ->
     Stats.updateStatsOnCompletion t20
       (composePuzzleStorageKey "2025-11-20" "5x5") 245 true Stats.emptyWorld
     = (None, Stats.emptyWorld)).
Proof.
  apply (storage_key_names_its_grid "2025-11-20" "5x5" t20
           (localRecord pid20 "started" oneLetter 30 t20) 245 true Stats.emptyWorld).
  - reflexivity.
  - discriminate.
Defined.

End AppMore.

(** ** The grid: totals, inputs and completion *)

Module GridFacts.
Import Js Grid GridSpec.

(** *** Sums *)

Lemma sumZ_app (a b : list Z) : sumZ (a ++ b) = sumZ a + sumZ b.
Proof. induction a as [|x a IH]; cbn; [reflexivity|]. fold (sumZ (a ++ b)). fold (sumZ a). lia. Qed.

Lemma sumZ_replicate_0 (n : nat) : sumZ (replicate n 0) = 0.
Proof. induction n as [|n IH]; cbn; [reflexivity|]. fold (sumZ (replicate n 0)). lia. Qed.

Lemma sumZ_zip_add (a b : list Z) :
  length a = length b -> sumZ (zip_with Z.add a b) = sumZ a + sumZ b.
Proof.
  revert b. induction a as [|x a IH]; intros [|y b] H; cbn in *; try discriminate.
  - reflexivity.
  - fold (sumZ (zip_with Z.add a b)). fold (sumZ a). fold (sumZ b).
    rewrite IH by lia. lia.
Qed.

(** *** prepareState *)

Lemma rowValues_length n row values :
  rowValues n row = Some values -> length values = n.
Proof.
  unfold rowValues. destruct (Nat.ltb_spec (length row) n); [discriminate|].
  intros [= <-]. rewrite length_map, length_take. lia.
Qed.

Lemma prepareRow_None n m : fold_left (prepareRow n) m None = None.
Proof. induction m as [|row m IH]; [reflexivity|exact IH]. Qed.

Lemma prepare_fold n m : forall rb cb rb' cb',
  length cb = n ->
  fold_left (prepareRow n) m (Some (rb, cb)) = Some (rb', cb') ->
  sumZ rb' - sumZ rb = sumZ cb' - sumZ cb /\
  length rb' = (length rb + length m)%nat /\ length cb' = n.
Proof.
  induction m as [|row m IH]; intros rb cb rb' cb' Hn H; cbn in H.
  - injection H as <- <-. split; [lia|]. split; [cbn; lia|exact Hn].
  - destruct (rowValues n row) as [values|] eqn:Ev;
      [|rewrite prepareRow_None in H; discriminate].
    pose proof (rowValues_length _ _ _ Ev) as Hv.
    apply IH in H as (Hs & Hl & Hc).
    + rewrite sumZ_app, sumZ_zip_add in Hs by lia.
      change (sumZ [sumZ values]) with (sumZ values + 0) in Hs.
      rewrite length_app in Hl. cbn [length] in Hl |- *.
      split; [lia|]. split; [lia|exact Hc].
    + rewrite length_zip_with. lia.
Qed.

Lemma prepareState_shape (raw : list string) (st : PuzzleState) :
  prepareState raw = Some st ->
  length (rowBases st) = length raw /\
  length (colBases st) = colCount st /\
  rowRemaining st = rowBases st /\ colRemaining st = colBases st.
Proof.
  unfold prepareState.
  destruct (fold_left _ _ _) as [[rb cb]|] eqn:Hf; [|discriminate].
  intros [= <-]. cbn [rowBases colBases rowRemaining colRemaining colCount].
  apply prepare_fold in Hf as (_ & Hl & Hc); [|apply length_replicate].
  cbn [length Nat.add] in Hl. rewrite length_map in Hl.
  repeat split; [exact Hl|exact Hc].
Qed.

(** X28.  The state that prepareState returns has one base total per row
    of the matrix and one per column of its first row; the row totals
    and the column totals add up to the same sum, and the remaining
    totals start as copies of the base totals. *)
Theorem prepared_totals_agree (raw : list string) (st : PuzzleState) :
  prepareState raw = Some st ->
  sumZ (rowBases st) = sumZ (colBases st) /\
  length (rowBases st) = length raw /\
  length (colBases st) = colCount st /\
  rowRemaining st = rowBases st /\ colRemaining st = colBases st.
Proof.
  intros Hp. split; [|exact (prepareState_shape raw st Hp)].
  revert Hp. unfold prepareState.
  destruct (fold_left _ _ _) as [[rb cb]|] eqn:Hf; [|discriminate].
  intros [= <-]. cbn [rowBases colBases].
  apply prepare_fold in Hf as (Hs & _); [|apply length_replicate].
  rewrite sumZ_replicate_0 in Hs. change (sumZ []) with 0 in Hs. lia.
Qed.

Lemma prepared_totals_agree_witness :
  sumZ [3; 7; 18] = sumZ [9; 8; 11] /\
  length [3; 7; 18] = length smallPuzzle /\
  length [9; 8; 11] = 3%nat /\
  [3; 7; 18] = [3; 7; 18] /\ [9; 8; 11] = [9; 8; 11].
Proof.
  apply (prepared_totals_agree smallPuzzle smallPrepared).
  reflexivity.
Defined.

(** *** sanitizeInput *)

Lemma upperChar_capital (c : ascii) : isCapital c = true -> upperChar c = c.
Proof.
  unfold isCapital, upperChar. intros H.
  apply andb_prop in H as [H1 H2]. apply Z.leb_le in H1, H2.
  destruct (Z.leb_spec 97 (code c)); [|reflexivity].
  exfalso. lia.
Qed.

Lemma sanitizeInput_cases (raw : string) :
  sanitizeInput raw = "" \/
  exists c, sanitizeInput raw = String c "" /\ isCapital c = true.
Proof.
  unfold sanitizeInput.
  destruct (List.filter isCapital _) as [|c l] eqn:E; [left; reflexivity|].
  right. exists c. split; [reflexivity|].
  assert (Hin : In c (List.filter isCapital
                        (List.map upperChar (list_ascii_of_string raw))))
    by (rewrite E; left; reflexivity).
  apply filter_In in Hin. exact (proj2 Hin).
Qed.

Lemma sanitizeInput_fixed (s : string) :
  s = "" \/ (exists c, s = String c "" /\ isCapital c = true) ->
  sanitizeInput s = s /\ toUpperCase s = s.
Proof.
  intros [->|(c & -> & Hc)]; [split; reflexivity|].
  unfold sanitizeInput, toUpperCase. cbn.
  rewrite (upperChar_capital c Hc), Hc. split; reflexivity.
Qed.

Lemma sanitizeInput_idem (raw : string) :
  sanitizeInput (sanitizeInput raw) = sanitizeInput raw.
Proof. exact (proj1 (sanitizeInput_fixed _ (sanitizeInput_cases raw))). Qed.

(** *** Values entered in a row or a column *)

Lemma sumZ_cons (x : Z) (l : list Z) : sumZ (x :: l) = x + sumZ l.
Proof. reflexivity. Qed.

Lemma sum_insert (key : Cell -> nat) (val : Cell -> Z) (r : nat) :
  forall (l : list Cell) (i : nat) (c c' : Cell),
    l !! i = Some c -> key c' = key c ->
    sumZ (List.map val (List.filter (fun cell => Nat.eqb (key cell) r) (<[i := c']> l)))
    = sumZ (List.map val (List.filter (fun cell => Nat.eqb (key cell) r) l))
      + (if Nat.eqb (key c) r then val c' - val c else 0).
Proof.
  induction l as [|x l IH]; intros i c c' Hl Hk; [discriminate|].
  destruct i as [|i]; cbn in Hl.
  - injection Hl as ->.
    change (<[0%nat := c']> (c :: l)) with (c' :: l).
    cbn [List.filter]. rewrite Hk.
    destruct (Nat.eqb (key c) r); cbn [List.map]; rewrite ?sumZ_cons; lia.
  - change (<[S i := c']> (x :: l)) with (x :: <[i := c']> l).
    cbn [List.filter]. specialize (IH i c c' Hl Hk).
    destruct (Nat.eqb (key x) r); cbn [List.map]; rewrite ?sumZ_cons; [|exact IH].
    rewrite IH. lia.
Qed.

Lemma enteredInRow_insert r l i c c' :
  l !! i = Some c -> c_row c' = c_row c ->
  enteredInRow r (<[i := c']> l)
  = enteredInRow r l + (if Nat.eqb (c_row c) r then c_prev c' - c_prev c else 0).
Proof. apply (sum_insert c_row c_prev). Qed.

Lemma enteredInCol_insert k l i c c' :
  l !! i = Some c -> c_col c' = c_col c ->
  enteredInCol k (<[i := c']> l)
  = enteredInCol k l + (if Nat.eqb (c_col c) k then c_prev c' - c_prev c else 0).
Proof. apply (sum_insert c_col c_prev). Qed.

(** *** One input *)

Lemma handleInput_balanced (i : nat) (raw : string) (st : PuzzleState)
    (cell : Cell) :
  balanced st -> cells st !! i = Some cell ->
  exists st' cell',
    handleInput i raw st = Some st' /\ balanced st' /\
    rowBases st' = rowBases st /\ colBases st' = colBases st /\
    cells st' = <[i := cell']> (cells st) /\
    c_row cell' = c_row cell /\ c_col cell' = c_col cell /\
    c_letter cell' = c_letter cell /\ c_value cell' = sanitizeInput raw.
Proof.
  intros (Hlr & Hlc & Hrow & Hcol & Hcells) Hi.
  destruct (Hcells i cell Hi) as (Hprev & Hsan & Hr & Hc).
  destruct (lookup_lt_is_Some_2 (rowBases st) (c_row cell) Hr) as [br Hbr].
  destruct (lookup_lt_is_Some_2 (colBases st) (c_col cell) Hc) as [bc Hbc].
  pose proof (Hrow _ _ Hbr) as Hrr. pose proof (Hcol _ _ Hbc) as Hcc.
  unfold handleInput. rewrite Hi, Hrr, Hcc.
  set (delta := valueOf (sanitizeInput raw) - c_prev cell).
  set (cell' := {| c_row := c_row cell; c_col := c_col cell;
                   c_letter := c_letter cell; c_value := sanitizeInput raw;
                   c_prev := if delta =? 0 then c_prev cell
                             else valueOf (sanitizeInput raw);
                   c_prevChar := sanitizeInput raw |}).
  assert (Hp' : c_prev cell' = valueOf (sanitizeInput raw)).
  { cbn. destruct (Z.eqb_spec delta 0); [subst delta; lia|reflexivity]. }
  assert (Hd : c_prev cell' - c_prev cell = delta) by (rewrite Hp'; reflexivity).
  eexists _, cell'. split; [reflexivity|].
  split; [|repeat split].
  unfold balanced. cbn [rowRemaining colRemaining rowBases colBases cells].
  split; [|split; [|split; [|split]]].
  - destruct (delta =? 0); [exact Hlr|]. rewrite length_insert. exact Hlr.
  - destruct (delta =? 0); [exact Hlc|]. rewrite length_insert. exact Hlc.
  - intros r b Hb.
    rewrite (enteredInRow_insert r (cells st) i cell cell' Hi eq_refl), Hd.
    destruct (Z.eqb_spec delta 0) as [E|E].
    + rewrite (Hrow _ _ Hb), E. f_equal. destruct (Nat.eqb (c_row cell) r); lia.
    + destruct (Nat.eqb_spec (c_row cell) r) as [<-|Hne].
      * rewrite list_lookup_insert_eq by (rewrite Hlr; exact Hr).
        rewrite Hbr in Hb. injection Hb as <-. f_equal. lia.
      * rewrite list_lookup_insert_ne by exact Hne.
        rewrite (Hrow _ _ Hb). f_equal. lia.
  - intros c b Hb.
    rewrite (enteredInCol_insert c (cells st) i cell cell' Hi eq_refl), Hd.
    destruct (Z.eqb_spec delta 0) as [E|E].
    + rewrite (Hcol _ _ Hb), E. f_equal. destruct (Nat.eqb (c_col cell) c); lia.
    + destruct (Nat.eqb_spec (c_col cell) c) as [<-|Hne].
      * rewrite list_lookup_insert_eq by (rewrite Hlc; exact Hc).
        rewrite Hbc in Hb. injection Hb as <-. f_equal. lia.
      * rewrite list_lookup_insert_ne by exact Hne.
        rewrite (Hcol _ _ Hb). f_equal. lia.
  - intros j cj Hj.
    destruct (decide (i = j)) as [<-|Hne].
    + rewrite list_lookup_insert_eq in Hj by (eapply lookup_lt_Some; exact Hi).
      injection Hj as <-.
      split; [exact Hp'|]. split; [apply sanitizeInput_idem|]. split; [exact Hr|exact Hc].
    + rewrite list_lookup_insert_ne in Hj by exact Hne. exact (Hcells j cj Hj).
Qed.

Lemma handleInput_targets (i : nat) (raw : string) (st st' : PuzzleState) :
  balanced st -> basesAreTargets st -> handleInput i raw st = Some st' ->
  basesAreTargets st'.
Proof.
  intros Hb [Hr Hc] Hh.
  destruct (cells st !! i) as [cell|] eqn:Hi;
    [|unfold handleInput in Hh; rewrite Hi in Hh; discriminate].
  destruct (handleInput_balanced i raw st cell Hb Hi)
    as (st2 & cell' & Hh2 & _ & Hrb & Hcb & Hcs & Hrow & Hcol & Hlet & _).
  rewrite Hh in Hh2. injection Hh2 as <-.
  split.
  - intros r b Hl. rewrite Hrb in Hl. rewrite Hcs. unfold targetInRow.
    rewrite (sum_insert c_row (fun cell => valueOf (c_letter cell)) r
               (cells st) i cell cell' Hi Hrow), Hlet.
    fold (targetInRow r (cells st)). rewrite <- (Hr _ _ Hl).
    destruct (Nat.eqb (c_row cell) r); lia.
  - intros c b Hl. rewrite Hcb in Hl. rewrite Hcs. unfold targetInCol.
    rewrite (sum_insert c_col (fun cell => valueOf (c_letter cell)) c
               (cells st) i cell cell' Hi Hcol), Hlet.
    fold (targetInCol c (cells st)). rewrite <- (Hc _ _ Hl).
    destruct (Nat.eqb (c_col cell) c); lia.
Qed.

(** *** The grid as rendered *)

Lemma prepare_fold_chars n m : forall rb cb rb' cb',
  fold_left (prepareRow n) m (Some (rb, cb)) = Some (rb', cb') ->
  rb' = (rb ++ List.map (fun row => sumZ (List.map charValue (take n row))) m)%list /\
  Forall (fun row => (n <= length row)%nat) m /\
  cb' = fold_left
          (fun cb row => zip_with Z.add cb (List.map charValue (take n row))) m cb.
Proof.
  induction m as [|row m IH]; intros rb cb rb' cb' H; cbn in H.
  - injection H as <- <-. cbn. rewrite app_nil_r. repeat split. constructor.
  - unfold rowValues in H.
    destruct (Nat.ltb_spec (length row) n) as [Hlt|Hge];
      [rewrite prepareRow_None in H; discriminate|].
    apply IH in H as (-> & Hall & ->).
    split; [|split].
    + cbn [List.map]. rewrite <- app_assoc. reflexivity.
    + constructor; [exact Hge|exact Hall].
    + reflexivity.
Qed.

Lemma prepareState_inv (raw : list string) (st : PuzzleState) :
  prepareState raw = Some st ->
  cells st = [] /\
  rowBases st
    = List.map (fun row => sumZ (List.map charValue (take (colCount st) row)))
        (matrix st) /\
  Forall (fun row => (colCount st <= length row)%nat) (matrix st) /\
  colBases st
    = fold_left
        (fun cb row => zip_with Z.add cb (List.map charValue (take (colCount st) row)))
        (matrix st) (replicate (colCount st) 0).
Proof.
  unfold prepareState.
  destruct (fold_left _ _ _) as [[rb cb]|] eqn:Hf; [|discriminate].
  intros [= <-]. cbn [cells rowBases colBases colCount matrix].
  apply prepare_fold_chars in Hf as (-> & Hall & ->).
  repeat split. exact Hall.
Qed.

Lemma renderCell_spec r c ch cell :
  cell ∈ renderCell r c ch ->
  c_row cell = r /\ c_col cell = c /\ c_prev cell = 0 /\ c_value cell = "".
Proof.
  unfold renderCell. destruct (_ || _); [intros H; inversion H|].
  intros H. apply list_elem_of_singleton in H. subst cell. repeat split.
Qed.

Lemma renderRow_spec r row : forall c0 cell,
  cell ∈ renderRow r c0 row ->
  c_row cell = r /\ (c0 <= c_col cell < c0 + length row)%nat /\
  c_prev cell = 0 /\ c_value cell = "".
Proof.
  induction row as [|ch row IH]; intros c0 cell H; cbn in H; [inversion H|].
  apply elem_of_app in H as [H|H].
  - apply renderCell_spec in H as (H1 & H2 & H3 & H4). cbn [length].
    repeat split; try assumption; lia.
  - apply IH in H as (H1 & H2 & H3 & H4). cbn [length].
    repeat split; try assumption; lia.
Qed.

Lemma renderRows_spec n m : forall r0 cell,
  cell ∈ renderRows n r0 m ->
  (r0 <= c_row cell < r0 + length m)%nat /\ (c_col cell < n)%nat /\
  c_prev cell = 0 /\ c_value cell = "".
Proof.
  induction m as [|row m IH]; intros r0 cell H; cbn in H; [inversion H|].
  apply elem_of_app in H as [H|H].
  - apply renderRow_spec in H as (H1 & H2 & H3 & H4). cbn [length].
    pose proof (length_take_le row n) as Hle.
    assert (length (take n row) <= n)%nat by (rewrite length_take; lia).
    repeat split; try assumption; lia.
  - apply IH in H as (H1 & H2 & H3 & H4). cbn [length].
    repeat split; try assumption; lia.
Qed.

Lemma entered_zero (cs : list Cell) (k : nat) :
  (forall cell, cell ∈ cs -> c_prev cell = 0) ->
  enteredInRow k cs = 0 /\ enteredInCol k cs = 0.
Proof.
  unfold enteredInRow, enteredInCol.
  induction cs as [|x cs IH]; intros H; [split; reflexivity|].
  destruct IH as [IH1 IH2].
  { intros cell Hc. apply H. apply list_elem_of_further, Hc. }
  pose proof (H x (list_elem_of_here _ _)) as Hx.
  cbn [List.filter]. split.
  - destruct (Nat.eqb (c_row x) k); cbn [List.map]; rewrite ?sumZ_cons; lia.
  - destruct (Nat.eqb (c_col x) k); cbn [List.map]; rewrite ?sumZ_cons; lia.
Qed.

Lemma renderGrid_balanced (raw : list string) (st : PuzzleState) :
  prepareState raw = Some st -> balanced (renderGrid st).
Proof.
  intros Hp.
  destruct (prepareState_shape raw st Hp) as (Hlr & Hlc & Hrr & Hcr).
  destruct (prepareState_inv raw st Hp) as (_ & Hrb & _ & _).
  assert (Hrows : length (rowBases st) = length (matrix st))
    by (rewrite Hrb at 1; apply length_map).
  unfold balanced. cbn [renderGrid rowRemaining colRemaining rowBases colBases cells].
  rewrite Hrr, Hcr.
  assert (Hz : forall cell, cell ∈ renderRows (colCount st) 0 (matrix st) ->
                 c_prev cell = 0).
  { intros cell Hc. apply renderRows_spec in Hc. tauto. }
  split; [reflexivity|]. split; [reflexivity|]. split; [|split].
  - intros r b Hb. rewrite (proj1 (entered_zero _ r Hz)), Hb. f_equal. lia.
  - intros c b Hb. rewrite (proj2 (entered_zero _ c Hz)), Hb. f_equal. lia.
  - intros i cell Hi. apply list_elem_of_lookup_2 in Hi.
    apply renderRows_spec in Hi as (H1 & H2 & H3 & H4).
    rewrite H3, H4, Hrows, Hlc. repeat split; lia.
Qed.

(** *** Base totals and target letters *)

Lemma targetInRow_app r a b :
  targetInRow r (a ++ b) = targetInRow r a + targetInRow r b.
Proof. unfold targetInRow. rewrite List.filter_app, List.map_app. apply sumZ_app. Qed.

Lemma targetInCol_app k a b :
  targetInCol k (a ++ b) = targetInCol k a + targetInCol k b.
Proof. unfold targetInCol. rewrite List.filter_app, List.map_app. apply sumZ_app. Qed.

Lemma black_value (ch : ascii) :
  Ascii.eqb (upperChar ch) "." || Ascii.eqb (upperChar ch) "#" = true ->
  charValue ch = 0.
Proof.
  unfold charValue. intros H. apply orb_prop in H as [H|H];
    apply Ascii.eqb_eq in H; rewrite H; reflexivity.
Qed.

Lemma target_renderCell r c ch k :
  targetInRow k (renderCell r c ch) = (if Nat.eqb r k then charValue ch else 0) /\
  targetInCol k (renderCell r c ch) = (if Nat.eqb c k then charValue ch else 0).
Proof.
  unfold renderCell.
  destruct (_ || _) eqn:E.
  - rewrite (black_value ch E). split.
    + destruct (Nat.eqb r k); reflexivity.
    + destruct (Nat.eqb c k); reflexivity.
  - unfold targetInRow, targetInCol. cbn [List.filter c_row c_col]. split.
    + destruct (Nat.eqb r k); [|reflexivity].
      cbn [List.map c_letter]. rewrite sumZ_cons. unfold charValue, valueOf.
      change (sumZ []) with 0. lia.
    + destruct (Nat.eqb c k); [|reflexivity].
      cbn [List.map c_letter]. rewrite sumZ_cons. unfold charValue, valueOf.
      change (sumZ []) with 0. lia.
Qed.

Lemma target_renderRow_row r row k : forall c0,
  targetInRow k (renderRow r c0 row)
  = if Nat.eqb r k then sumZ (List.map charValue row) else 0.
Proof.
  induction row as [|ch row IH]; intros c0; cbn [renderRow].
  - destruct (Nat.eqb r k); reflexivity.
  - rewrite targetInRow_app, IH, (proj1 (target_renderCell r c0 ch k)).
    destruct (Nat.eqb r k); [|reflexivity].
    cbn [List.map]. rewrite sumZ_cons. reflexivity.
Qed.

Lemma target_renderRow_col r row k : forall c0,
  targetInCol k (renderRow r c0 row)
  = if (c0 <=? k)%nat then default 0 (charValue <$> row !! (k - c0)%nat) else 0.
Proof.
  induction row as [|ch row IH]; intros c0; cbn [renderRow].
  - destruct (c0 <=? k)%nat; reflexivity.
  - rewrite targetInCol_app, IH, (proj2 (target_renderCell r c0 ch k)).
    destruct (Nat.eqb_spec c0 k) as [->|Hne].
    + rewrite Nat.leb_refl, Nat.sub_diag.
      destruct (Nat.leb_spec (S k) k); [lia|]. cbn. lia.
    + destruct (Nat.leb_spec c0 k) as [Hle|Hgt].
      * destruct (Nat.leb_spec (S c0) k); [|lia].
        replace (k - c0)%nat with (S (k - S c0)) by lia.
        change ((ch :: row) !! S (k - S c0)%nat) with (row !! (k - S c0)%nat). lia.
      * destruct (Nat.leb_spec (S c0) k); [lia|]. reflexivity.
Qed.

Lemma target_renderRows_row n m k : forall r0,
  targetInRow k (renderRows n r0 m)
  = if (r0 <=? k)%nat
    then default 0
           ((fun row => sumZ (List.map charValue (take n row))) <$> m !! (k - r0)%nat)
    else 0.
Proof.
  induction m as [|row m IH]; intros r0; cbn [renderRows].
  - destruct (r0 <=? k)%nat; reflexivity.
  - rewrite targetInRow_app, IH, target_renderRow_row.
    destruct (Nat.eqb_spec r0 k) as [->|Hne].
    + rewrite Nat.leb_refl, Nat.sub_diag.
      destruct (Nat.leb_spec (S k) k); [lia|]. cbn. lia.
    + destruct (Nat.leb_spec r0 k) as [Hle|Hgt].
      * destruct (Nat.leb_spec (S r0) k); [|lia].
        replace (k - r0)%nat with (S (k - S r0)) by lia.
        change ((row :: m) !! S (k - S r0)%nat) with (m !! (k - S r0)%nat). lia.
      * destruct (Nat.leb_spec (S r0) k); [lia|]. reflexivity.
Qed.

Lemma target_renderRows_col n m k : forall r0,
  targetInCol k (renderRows n r0 m)
  = sumZ (List.map (fun row => default 0 (charValue <$> take n row !! k)) m).
Proof.
  induction m as [|row m IH]; intros r0; cbn [renderRows List.map].
  - reflexivity.
  - rewrite targetInCol_app, IH, target_renderRow_col, sumZ_cons.
    cbn [Nat.leb]. rewrite Nat.sub_0_r. reflexivity.
Qed.

Lemma lookup_map_values (row : list ascii) (k : nat) :
  List.map charValue row !! k = charValue <$> row !! k.
Proof.
  revert k. induction row as [|ch row IH]; intros [|k]; cbn; try reflexivity.
  apply IH.
Qed.

Lemma fold_cols n m : forall cb k x,
  length cb = n ->
  Forall (fun row => (n <= length row)%nat) m ->
  cb !! k = Some x ->
  fold_left (fun cb row => zip_with Z.add cb (List.map charValue (take n row))) m cb
    !! k
  = Some (x + sumZ (List.map (fun row => default 0 (charValue <$> take n row !! k)) m)).
Proof.
  induction m as [|row m IH]; intros cb k x Hn Hall Hk; cbn [fold_left List.map].
  - change (sumZ []) with 0. rewrite Hk. f_equal. lia.
  - inversion Hall as [|? ? Hrow Hrest]; subst.
    assert (Hlt : (k < length cb)%nat) by (eapply lookup_lt_Some; exact Hk).
    destruct (lookup_lt_is_Some_2 (take (length cb) row) k) as [ch Hch].
    { rewrite length_take. lia. }
    rewrite (IH _ k (x + charValue ch)).
    + rewrite sumZ_cons, Hch. cbn. f_equal. lia.
    + rewrite length_zip_with, length_map, length_take. lia.
    + exact Hrest.
    + apply lookup_zip_with_Some. exists x, (charValue ch).
      split; [reflexivity|]. split; [exact Hk|].
      rewrite lookup_map_values, Hch. reflexivity.
Qed.

Lemma lookup_map_rows (f : list ascii -> Z) (m : list (list ascii)) (r : nat) (b : Z) :
  List.map f m !! r = Some b -> exists row, m !! r = Some row /\ b = f row.
Proof.
  revert r. induction m as [|row m IH]; intros [|r] H; cbn in H; try discriminate.
  - injection H as <-. exists row. split; reflexivity.
  - apply IH in H as (row' & H1 & H2). exists row'. split; assumption.
Qed.

Lemma renderGrid_targets (raw : list string) (st : PuzzleState) :
  prepareState raw = Some st -> basesAreTargets (renderGrid st).
Proof.
  intros Hp.
  destruct (prepareState_inv raw st Hp) as (_ & Hrb & Hall & Hcb).
  unfold basesAreTargets. cbn [renderGrid rowBases colBases cells]. split.
  - intros r b Hb. rewrite Hrb in Hb.
    apply lookup_map_rows in Hb as (row & Hrow & ->).
    rewrite target_renderRows_row. cbn [Nat.leb].
    rewrite Nat.sub_0_r, Hrow. reflexivity.
  - intros c b Hb. rewrite target_renderRows_col.
    assert (Hc : (c < colCount st)%nat).
    { apply lookup_lt_Some in Hb. rewrite Hcb in Hb.
      destruct (prepareState_shape raw st Hp) as (_ & Hlc & _).
      rewrite <- Hcb in Hb. lia. }
    rewrite Hcb in Hb.
    rewrite (fold_cols (colCount st) (matrix st) _ c 0) in Hb.
    + injection Hb as <-. lia.
    + apply length_replicate.
    + exact Hall.
    + apply lookup_replicate_2. exact Hc.
Qed.

(** *** A sequence of inputs *)

Lemma play_invariant (inputs : list (nat * string)) :
  forall st st',
    balanced st -> basesAreTargets st -> play inputs st = Some st' ->
    balanced st' /\ basesAreTargets st'.
Proof.
  induction inputs as [|[i raw] inputs IH]; intros st st' Hb Ht Hp; cbn in Hp.
  - injection Hp as <-. split; assumption.
  - destruct (handleInput i raw st) as [st1|] eqn:Hh; [|discriminate].
    apply (IH st1 st'); [| |exact Hp].
    + destruct (cells st !! i) as [cell|] eqn:Hi;
        [|unfold handleInput in Hh; rewrite Hi in Hh; discriminate].
      destruct (handleInput_balanced i raw st cell Hb Hi) as (st2 & _ & Hh2 & Hb2 & _).
      rewrite Hh in Hh2. injection Hh2 as <-. exact Hb2.
    + exact (handleInput_targets i raw st st1 Hb Ht Hh).
Qed.

Lemma play_total (inputs : list (nat * string)) :
  forall st,
    balanced st ->
    (forall i raw, (i, raw) ∈ inputs -> (i < length (cells st))%nat) ->
    exists st',
      play inputs st = Some st' /\ balanced st' /\
      length (cells st') = length (cells st) /\
      rowBases st' = rowBases st /\ colBases st' = colBases st.
Proof.
  induction inputs as [|[i raw] inputs IH]; intros st Hb Hin; cbn.
  - exists st. split; [reflexivity|]. split; [exact Hb|]. repeat split.
  - destruct (lookup_lt_is_Some_2 (cells st) i) as [cell Hi].
    { apply (Hin i raw). apply list_elem_of_here. }
    destruct (handleInput_balanced i raw st cell Hb Hi)
      as (st1 & cell' & -> & Hb1 & Hrb & Hcb & Hcs & _).
    assert (Hlen : length (cells st1) = length (cells st))
      by (rewrite Hcs; apply length_insert).
    destruct (IH st1 Hb1) as (st' & Hp & Hb' & Hl & Hr' & Hc').
    { intros j raw' Hj. rewrite Hlen. apply (Hin j raw').
      apply list_elem_of_further, Hj. }
    exists st'. split; [exact Hp|]. split; [exact Hb'|].
    split; [congruence|]. split; congruence.
Qed.

(** X29.  Whatever is typed into the inputs of a rendered grid, the
    totals stay in step with the cells: after any sequence of inputs
    into existing cells, handleInput has accepted each of them, the
    remaining total of every row and of every column is its base total
    less the values of the letters now in its cells, the value recorded
    for a cell is that of the sanitised text in its input, and the base
    totals and the number of cells are as rendered. *)
Theorem totals_stay_balanced (raw : list string) (st0 : PuzzleState)
    (inputs : list (nat * string)) :
  prepareState raw = Some st0 ->
  (forall i text, (i, text) ∈ inputs -> (i < length (cells (renderGrid st0)))%nat) ->
  exists st,
    play inputs (renderGrid st0) = Some st /\ balanced st /\
    length (cells st) = length (cells (renderGrid st0)) /\
    rowBases st = rowBases st0 /\ colBases st = colBases st0.
Proof.
  intros Hp Hin.
  exact (play_total inputs (renderGrid st0) (renderGrid_balanced raw st0 Hp) Hin).
Qed.

Lemma totals_stay_balanced_witness :
  exists st,
    play someInputs (renderGrid smallPrepared) = Some st /\ balanced st /\
    length (cells st) = length (cells (renderGrid smallPrepared)) /\
    rowBases st = rowBases smallPrepared /\ colBases st = colBases smallPrepared.
Proof.
  apply (totals_stay_balanced smallPuzzle smallPrepared someInputs).
  - reflexivity.
  - intros i text H. apply list_elem_of_In in H.
    destruct H as [[= <- _]|[[= <- _]|[[= <- _]|[]]]]; vm_compute; lia.
Defined.

(** *** Completion *)

Lemma solved_entered (cs : list Cell) (k : nat) :
  (forall cell, cell ∈ cs ->
     c_prev cell = valueOf (c_value cell) /\ sanitizeInput (c_value cell) = c_value cell) ->
  forallb (fun cell =>
             truthy (c_letter cell) &&
             String.eqb (getCellValue cell) (c_letter cell)) cs = true ->
  enteredInRow k cs = targetInRow k cs /\ enteredInCol k cs = targetInCol k cs.
Proof.
  unfold enteredInRow, targetInRow, enteredInCol, targetInCol.
  induction cs as [|x cs IH]; intros Hc Hs; [split; reflexivity|].
  cbn [forallb] in Hs. apply andb_prop in Hs as [Hx Hs].
  destruct IH as [IH1 IH2]; [|exact Hs|].
  { intros cell H. apply Hc. apply list_elem_of_further, H. }
  destruct (Hc x (list_elem_of_here _ _)) as [Hprev Hsan].
  apply andb_prop in Hx as [_ Hx]. apply String.eqb_eq in Hx.
  assert (Hv : c_prev x = valueOf (c_letter x)).
  { rewrite Hprev. f_equal. rewrite <- Hx. unfold getCellValue.
    symmetry. apply sanitizeInput_fixed.
    rewrite <- Hsan. apply sanitizeInput_cases. }
  cbn [List.filter]. split.
  - destruct (Nat.eqb (c_row x) k); cbn [List.map]; rewrite ?sumZ_cons; lia.
  - destruct (Nat.eqb (c_col x) k); cbn [List.map]; rewrite ?sumZ_cons; lia.
Qed.

(** X30.  A solved grid has nothing left over: when a puzzle was
    prepared, rendered and played through handleInput, and
    isPuzzleSolved holds (every cell holds its target letter), the
    remaining total of every row and of every column is zero. *)
Theorem solved_grid_has_zero_totals (raw : list string) (st0 st : PuzzleState)
    (inputs : list (nat * string)) :
  prepareState raw = Some st0 ->
  play inputs (renderGrid st0) = Some st ->
  isPuzzleSolved st = true ->
  (forall r x, rowRemaining st !! r = Some x -> x = 0) /\
  (forall c x, colRemaining st !! c = Some x -> x = 0).
Proof.
  intros Hp Hplay Hsolved.
  destruct (play_invariant inputs (renderGrid st0) st
              (renderGrid_balanced raw st0 Hp) (renderGrid_targets raw st0 Hp) Hplay)
    as [(Hlr & Hlc & Hrow & Hcol & Hcells) [Htr Htc]].
  unfold isPuzzleSolved in Hsolved. apply andb_prop in Hsolved as [_ Hall].
  assert (Hcs : forall cell, cell ∈ cells st ->
            c_prev cell = valueOf (c_value cell) /\
            sanitizeInput (c_value cell) = c_value cell).
  { intros cell Hin. apply list_elem_of_lookup_1 in Hin as [i Hi].
    destruct (Hcells i cell Hi) as (H1 & H2 & _). split; assumption. }
  split.
  - intros r x Hx.
    destruct (lookup_lt_is_Some_2 (rowBases st) r) as [b Hb].
    { rewrite <- Hlr. eapply lookup_lt_Some. exact Hx. }
    rewrite (Hrow r b Hb) in Hx. injection Hx as <-.
    rewrite (Htr r b Hb) at 1.
    rewrite (proj1 (solved_entered (cells st) r Hcs Hall)). lia.
  - intros c x Hx.
    destruct (lookup_lt_is_Some_2 (colBases st) c) as [b Hb].
    { rewrite <- Hlc. eapply lookup_lt_Some. exact Hx. }
    rewrite (Hcol c b Hb) in Hx. injection Hx as <-.
    rewrite (Htc c b Hb) at 1.
    rewrite (proj2 (solved_entered (cells st) c Hcs Hall)). lia.
Qed.

Lemma solved_grid_has_zero_totals_witness :
  (forall r x, rowRemaining smallSolved !! r = Some x -> x = 0) /\
  (forall c x, colRemaining smallSolved !! c = Some x -> x = 0).
Proof.
  apply (solved_grid_has_zero_totals smallPuzzle smallPrepared smallSolved
           solvingInputs).
  - reflexivity.
  - reflexivity.
  - reflexivity.
Defined.

End GridFacts.
